(** * Container-code extraction and collision-safe renaming

    A shallow embedding of the decision logic of the PDF renaming agent
    ([src/settings.py], [src/tools.py], [src/agent.py], [src/main.py]):
    the two-pass pattern matcher, the candidate scorer, the normalizer, the
    collision-safe renamer and the policy that combines the regex and the
    LLM extractor.

    Conventions.
    - A Python [str] is a list of code points ([str := list N]); literals are
      written [u "..."] and decoded from the UTF-8 bytes of this file.
    - Python floats are IEEE binary64 numbers: Rocq's primitive floats.
    - The Unicode character database belongs to the Python runtime; it is
      the class [UnicodeData], whose laws state what the proofs rely on.
      [ucd] is the instance used to evaluate the code on concrete texts.
    - [re] patterns are values of the type [Re.regex], interpreted by a
      backtracking matcher with Python's priorities. *)

From Stdlib Require Import ZArith NArith List Bool Lia Floats String Ascii.
From stdpp Require Import gmap list pretty.
Import ListNotations.
Set Warnings "-inexact-float".

(** ** Strings *)

Definition str := list N.

(** Decoding of the UTF-8 bytes of a literal into code points. *)
Fixpoint utf8_decode (bs : list N) : str :=
  match bs with
  | [] => []
  | b1 :: t1 =>
    if (b1 <? 0x80)%N then b1 :: utf8_decode t1 else
    match t1 with
    | [] => []
    | b2 :: t2 =>
      if (b1 <? 0xE0)%N
      then ((b1 - 0xC0) * 64 + (b2 - 0x80))%N :: utf8_decode t2 else
      match t2 with
      | [] => []
      | b3 :: t3 =>
        if (b1 <? 0xF0)%N
        then ((b1 - 0xE0) * 4096 + (b2 - 0x80) * 64 + (b3 - 0x80))%N
               :: utf8_decode t3 else
        match t3 with
        | [] => []
        | b4 :: t4 =>
          ((b1 - 0xF0) * 262144 + (b2 - 0x80) * 4096
             + (b3 - 0x80) * 64 + (b4 - 0x80))%N :: utf8_decode t4
        end
      end
    end
  end.

Definition u (s : string) : str :=
  utf8_decode (map N_of_ascii (list_ascii_of_string s)).

Definition in_range (lo hi c : N) : bool := ((lo <=? c) && (c <=? hi))%N.

Definition str_eqb (a b : str) : bool := bool_decide (a = b).

(** [x in xs] for a list or a set of strings. *)
Definition str_mem (x : str) (xs : list str) : bool := existsb (str_eqb x) xs.

(** [s.startswith(p)] *)
Fixpoint py_startswith (s p : str) : bool :=
  match p, s with
  | [], _ => true
  | _ :: _, [] => false
  | a :: p', b :: s' => (a =? b)%N && py_startswith s' p'
  end.

(** [s.find(sub)]: the index of the first occurrence, or -1. *)
Fixpoint find_from (i : Z) (s sub : str) : Z :=
  if py_startswith s sub then i
  else match s with
       | [] => (-1)%Z
       | _ :: s' => find_from (i + 1) s' sub
       end.

Definition py_find (s sub : str) : Z := find_from 0 s sub.

(** [sub in s] *)
Definition py_in (sub s : str) : bool := negb (py_find s sub =? -1)%Z.

(** [s.replace(c, "")] for a one-character [c]. *)
Definition py_remove (c : N) (s : str) : str :=
  List.filter (fun x => negb (x =? c)%N) s.

(** [raw.replace(" ", "").replace("-", "").replace("_", "")] *)
Definition strip_separators (s : str) : str :=
  py_remove 0x5F (py_remove 0x2D (py_remove 0x20 s)).

(** ** The Unicode character database *)

Definition ascii_upper (c : N) : N :=
  if in_range 0x61 0x7A c then (c - 32)%N else c.

Definition ascii_lower (c : N) : N :=
  if in_range 0x41 0x5A c then (c + 32)%N else c.

Definition ascii_digit (c : N) : bool := in_range 0x30 0x39 c.

Class UnicodeData := {
  (** the full uppercase mapping of one character ([str.upper] maps each
      character on its own) *)
  upper_char : N -> str;
  (** [str.lower] (on a whole string: Unicode lowercasing looks at the
      context of a capital sigma) *)
  py_lower : str -> str;
  (** whether two characters are equal under [re.IGNORECASE] *)
  re_ieq : N -> N -> bool;
  (** [\d]: a decimal digit (category Nd) *)
  is_decimal : N -> bool;
  (** [\s] and [str.isspace] *)
  is_space : N -> bool;
  (** [\w]: alphanumeric or underscore *)
  is_word : N -> bool
}.

(** What the proofs use of the database: it is ASCII on ASCII, decimal
    digits have no case, and the Cyrillic capitals U+0410-U+042F are their
    own uppercase. *)
Class UnicodeLaws (U : UnicodeData) : Prop := {
  upper_ascii : forall c, (c < 128)%N -> upper_char c = [ascii_upper c];
  upper_decimal : forall c, is_decimal c = true -> upper_char c = [c];
  upper_cyrillic_capital :
    forall c, (0x410 <= c <= 0x42F)%N -> upper_char c = [c];
  decimal_ascii : forall c, (c < 128)%N -> is_decimal c = ascii_digit c
}.

(** [s.upper()] *)
Definition py_upper `{UnicodeData} (s : str) : str := flat_map upper_char s.

(** [s.strip()] *)
Fixpoint lstrip `{UnicodeData} (s : str) : str :=
  match s with
  | c :: s' => if is_space c then lstrip s' else s
  | [] => []
  end.

Definition py_strip `{UnicodeData} (s : str) : str :=
  rev (lstrip (rev (lstrip s))).

(** *** The database on Basic Latin, Latin-1 and Cyrillic

    [ucd] (below) is the character database restricted to the blocks U+0000-U+00FF
    and U+0400-U+04FF (and caseless symbols such as U+2116, the numero
    sign); a code point outside of them is taken as a caseless symbol.  It
    is exact on every text whose characters lie in these blocks. *)

Module Fragment.

Definition cyr_pairs (c : N) : bool :=
  in_range 0x460 0x481 c || in_range 0x48A 0x4BF c || in_range 0x4D0 0x4FF c.

Definition upper (c : N) : str :=
  if in_range 0x61 0x7A c then [(c - 32)%N]
  else if (c =? 0xB5)%N then [0x39C%N]
  else if (c =? 0xDF)%N then [0x53%N; 0x53%N]
  else if in_range 0xE0 0xFE c && negb (c =? 0xF7)%N then [(c - 32)%N]
  else if (c =? 0xFF)%N then [0x178%N]
  else if in_range 0x430 0x44F c then [(c - 32)%N]
  else if in_range 0x450 0x45F c then [(c - 80)%N]
  else if cyr_pairs c && N.odd c then [(c - 1)%N]
  else if in_range 0x4C1 0x4CE c && N.even c then [(c - 1)%N]
  else if (c =? 0x4CF)%N then [0x4C0%N]
  else [c].

Definition lower (c : N) : N :=
  if in_range 0x41 0x5A c then (c + 32)%N
  else if in_range 0xC0 0xDE c && negb (c =? 0xD7)%N then (c + 32)%N
  else if in_range 0x410 0x42F c then (c + 32)%N
  else if in_range 0x400 0x40F c then (c + 80)%N
  else if cyr_pairs c && N.even c then (c + 1)%N
  else if in_range 0x4C1 0x4CE c && N.odd c then (c + 1)%N
  else if (c =? 0x4C0)%N then 0x4CF%N
  else c.

Definition decimal (c : N) : bool := in_range 0x30 0x39 c.

Definition space (c : N) : bool :=
  in_range 0x09 0x0D c || in_range 0x1C 0x20 c
  || (c =? 0x85)%N || (c =? 0xA0)%N.

Definition letter (c : N) : bool :=
  in_range 0x41 0x5A c || in_range 0x61 0x7A c
  || (c =? 0xAA)%N || (c =? 0xB5)%N || (c =? 0xBA)%N
  || in_range 0xC0 0xD6 c || in_range 0xD8 0xF6 c || in_range 0xF8 0xFF c
  || in_range 0x400 0x481 c || in_range 0x48A 0x4FF c.

(** superscript digits and vulgar fractions count as alphanumeric *)
Definition numeric (c : N) : bool :=
  decimal c || in_range 0xB2 0xB3 c || (c =? 0xB9)%N || in_range 0xBC 0xBE c.

Definition word (c : N) : bool := letter c || numeric c || (c =? 0x5F)%N.

End Fragment.

#[export] Instance ucd : UnicodeData := {|
  upper_char := Fragment.upper;
  py_lower := map Fragment.lower;
  re_ieq := fun a b => (Fragment.lower a =? Fragment.lower b)%N;
  is_decimal := Fragment.decimal;
  is_space := Fragment.space;
  is_word := Fragment.word
|}.

(** ** Regular expressions

    The fragment of Python's [re] that the patterns of [settings.py] use,
    with its backtracking semantics: alternatives are tried from left to
    right, [?], [*] and [+] are greedy, and the first way to match wins. *)

Module Re.

Inductive cset_item :=
| CChar (c : N)          (* a character *)
| CRange (lo hi : N)     (* lo-hi *)
| CSpace                 (* \s *)
| CDigit.                (* \d *)

Inductive regex :=
| Eps
| Chr (c : N)                  (* a literal character *)
| Cls (items : list cset_item) (* [...], \s, \d *)
| Seq (r1 r2 : regex)
| Alt (r1 r2 : regex)          (* r1|r2 *)
| Opt (r : regex)              (* r? *)
| Star (r : regex)             (* r* *)
| Rep (n : nat) (r : regex)    (* r{n} *)
| Group (r : regex)            (* (r), a capturing group *)
| WordB                        (* \b *)
| Bol                          (* ^ *)
| Eol.                         (* $ *)

(** [r+] *)
Definition Plus (r : regex) : regex := Seq r (Star r).

(** a literal string *)
Definition lit (s : str) : regex := fold_right (fun c r => Seq (Chr c) r) Eps s.

(** [r1|r2|...|rn] *)
Fixpoint alts (rs : list regex) : regex :=
  match rs with
  | [] => Eps
  | [r] => r
  | r :: rs' => Alt r (alts rs')
  end.

(** A position of the matcher: the character before it, the text from it
    on, and the groups closed so far. *)
Record mstate := MState { prev : option N; rest : str; caps : list str }.

Section Matcher.
Context {U : UnicodeData}.
Variable icase : bool.   (* re.IGNORECASE *)

Definition chr_matches (c t : N) : bool :=
  if icase then re_ieq c t else (c =? t)%N.

Definition N_range (lo hi : N) : list N :=
  map (fun i => (lo + N.of_nat i)%N) (seq 0 (N.to_nat (hi + 1 - lo))).

Definition item_matches (it : cset_item) (t : N) : bool :=
  match it with
  | CChar c => chr_matches c t
  | CRange lo hi =>
    if icase then existsb (fun c => re_ieq c t) (N_range lo hi)
    else in_range lo hi t
  | CSpace => is_space t
  | CDigit => is_decimal t
  end.

Definition cls_matches (items : list cset_item) (t : N) : bool :=
  existsb (fun it => item_matches it t) items.

Definition word_at (o : option N) : bool :=
  match o with Some c => is_word c | None => false end.

Definition step1 (p : N -> bool) (st : mstate)
    (k : mstate -> option mstate) : option mstate :=
  match rest st with
  | t :: s' => if p t then k (MState (Some t) s' (caps st)) else None
  | [] => None
  end.

Definition or_else (a : option mstate) (b : unit -> option mstate) :=
  match a with Some x => Some x | None => b tt end.

(** [m r st k]: match [r] at [st], then the rest of the pattern [k]. *)
Fixpoint m (r : regex) (st : mstate) (k : mstate -> option mstate)
    {struct r} : option mstate :=
  match r with
  | Eps => k st
  | Chr c => step1 (chr_matches c) st k
  | Cls items => step1 (cls_matches items) st k
  | Seq r1 r2 => m r1 st (fun st' => m r2 st' k)
  | Alt r1 r2 => or_else (m r1 st k) (fun _ => m r2 st k)
  | Opt r1 => or_else (m r1 st k) (fun _ => k st)
  | Star r1 =>
    (fix loop (fuel : nat) (st : mstate) {struct fuel} : option mstate :=
       match fuel with
       | O => k st
       | S fuel' =>
         or_else
           (m r1 st (fun st' =>
              if (length (rest st') <? length (rest st))%nat
              then loop fuel' st' else None))
           (fun _ => k st)
       end) (length (rest st)) st
  | Rep n r1 =>
    (fix rep (n : nat) (st : mstate) {struct n} : option mstate :=
       match n with
       | O => k st
       | S n' => m r1 st (rep n')
       end) n st
  | Group r1 =>
    m r1 st (fun st' =>
      k (MState (prev st') (rest st')
           (caps st' ++ [firstn (length (rest st) - length (rest st'))
                           (rest st)])))
  | WordB =>
    if xorb (word_at (prev st)) (word_at (head (rest st)))
    then k st else None
  | Bol => match prev st with None => k st | Some _ => None end
  | Eol =>
    match rest st with
    | [] => k st
    | [c] => if (c =? 0x0A)%N then k st else None
    | _ => None
    end
  end.

(** A match of [r] starting at a position: the groups and the number of
    characters consumed. *)
Definition match_at (r : regex) (p : option N) (s : str)
    : option (list str * nat) :=
  match m r (MState p s []) Some with
  | Some st => Some (caps st, (length s - length (rest st))%nat)
  | None => None
  end.

(** [pattern.match(s)] as a truth value. *)
Definition matches (r : regex) (s : str) : bool :=
  match match_at r None s with Some _ => true | None => false end.

(** [pattern.findall(s)]: the groups of the successive non-overlapping
    matches, scanning from the left.  [skip] counts the characters of the
    last match that are still to be passed. *)
Fixpoint scan (r : regex) (p : option N) (s : str) (skip : nat)
    : list (list str) :=
  match s with
  | [] =>
    match skip, match_at r p [] with
    | O, Some (gs, _) => [gs]
    | _, _ => []
    end
  | c :: s' =>
    match skip with
    | S n => scan r (Some c) s' n
    | O =>
      match match_at r p s with
      | Some (gs, n) => gs :: scan r (Some c) s' (Nat.pred n)
      | None => scan r (Some c) s' 0
      end
    end
  end.

Definition findall (r : regex) (s : str) : list (list str) := scan r None s 0.

End Matcher.
End Re.

(** ** settings.py *)

(** A compiled pattern: its flags and its expression. *)
Record pattern := Pattern { icase : bool; re : Re.regex }.

Definition sp : Re.regex := Re.Cls [Re.CSpace].
Definition digit : Re.regex := Re.Cls [Re.CDigit].
Definition AZ : Re.regex := Re.Cls [Re.CRange 0x41 0x5A].
Definition sep : Re.regex := Re.Cls [Re.CChar 0x2D; Re.CSpace; Re.CChar 0x5F].

(** [(?i)(?:контейнер|container|наименование\s+груза|груз|cargo|код|номер|no\.?|№)\s*(?:№|#|:)?\s*([A-Z]{4}[-\s_]?\d{7})\b]
    compiled with [re.IGNORECASE | re.UNICODE] *)
Definition PRIORITY_PATTERN : pattern :=
  Pattern true
    (Re.Seq
       (Re.alts
          [Re.lit (u "контейнер"); Re.lit (u "container");
           Re.Seq (Re.lit (u "наименование"))
             (Re.Seq (Re.Plus sp) (Re.lit (u "груза")));
           Re.lit (u "груз"); Re.lit (u "cargo"); Re.lit (u "код");
           Re.lit (u "номер");
           Re.Seq (Re.lit (u "no")) (Re.Opt (Re.Chr 0x2E));
           Re.lit (u "№")])
       (Re.Seq (Re.Star sp)
          (Re.Seq (Re.Opt (Re.alts [Re.lit (u "№"); Re.Chr 0x23; Re.Chr 0x3A]))
             (Re.Seq (Re.Star sp)
                (Re.Seq
                   (Re.Group
                      (Re.Seq (Re.Rep 4 AZ)
                         (Re.Seq (Re.Opt sep) (Re.Rep 7 digit))))
                   Re.WordB))))).

(** [\b([A-Z]{4})[-\s_]?(\d{7})\b] compiled with [re.IGNORECASE] *)
Definition FALLBACK_PATTERN : pattern :=
  Pattern true
    (Re.Seq Re.WordB
       (Re.Seq (Re.Group (Re.Rep 4 AZ))
          (Re.Seq (Re.Opt sep)
             (Re.Seq (Re.Group (Re.Rep 7 digit)) Re.WordB)))).

(** [^[A-Z]{4}\d{7}$] *)
Definition VALIDATION_PATTERN : pattern :=
  Pattern false
    (Re.Seq Re.Bol (Re.Seq (Re.Rep 4 AZ) (Re.Seq (Re.Rep 7 digit) Re.Eol))).

Definition CONTAINER_KEYWORDS : list str :=
  Eval vm_compute in
  [u "контейнер"; u "container"; u "наименование груза"; u "груз";
   u "cargo"; u "код"; u "номер"; u "no"; u "№"; u "number";
   u "наименование"].

Definition KNOWN_CONTAINER_PREFIXES : list str :=
  Eval vm_compute in
  [u "TEMU"; u "MSCU"; u "TKRU"; u "TGHU"; u "FCIU"; u "HLBU"; u "CMAU";
   u "NYKU"; u "GESU"; u "TCLU"; u "WHLU"; u "PONU"; u "COSU"; u "HDMU";
   u "KKFU"; u "GLDU"; u "TCNU"; u "SNBU"; u "BMOU"; u "DFSU"; u "SUDU";
   u "APZU"; u "EISU"; u "CAXU"; u "MEDU"; u "OOCU"; u "TRLU"; u "INKU";
   u "MSKU"; u "CRXU"; u "MRKU"; u "CXDU"].

Definition EXCLUDED_PREFIXES : list str :=
  Eval vm_compute in [u "OKNO"; u "OKPO"; u "OGRN"; u "INN"; u "КПП"].

Definition MIN_CONFIDENCE_THRESHOLD : float := 0.8%float.

(** ** tools.py *)

Section Tools.
Context {U : UnicodeData}.

(** [pattern.findall(text)] and [pattern.match(text)] *)
Definition findall (p : pattern) (text : str) : list (list str) :=
  Re.findall (icase p) (re p) text.

Definition re_match (p : pattern) (text : str) : bool :=
  Re.matches (icase p) (re p) text.

(** [float(n)] for a length [n] (below 2^63, as every length is). *)
Definition float_of_nat (n : nat) : float :=
  PrimFloat.of_uint63 (Uint63.of_Z (Z.of_nat n)).

(** [min(a, b)]: the first of the smallest arguments. *)
Definition py_min (a b : float) : float :=
  if PrimFloat.ltb b a then b else a.

(** The reasons of a scored result, with the values their messages
    interpolate. *)
Inductive reason :=
| EmptyOrError    (* "текст пустой или ошибка чтения" *)
| NoCandidates    (* "кандидаты не найдены" *)
| SoleExcluded (code prefix : str)
    (* "код {code} исключён (префикс {prefix} не является контейнером)" *)
| SoleKnown (prefix : str)      (* "известный префикс контейнера {prefix}" *)
| SoleCandidate (method : str)  (* "единственный кандидат ({method})" *)
| AllExcluded
    (* "все кандидаты исключены (не являются кодами контейнеров)" *)
| BestKnown (prefix : str) (n : nat)
    (* "код контейнера с префиксом {prefix}, выбран из {n} кандидатов" *)
| BestScored (n : nat) (score : float).
    (* "выбран лучший из {n} кандидатов (score={score:.2f})" *)

(** [code[:4].upper()] *)
Definition prefix_of (code : str) : str := py_upper (firstn 4 code).

Definition cargo_keyword (keyword : str) : bool :=
  py_in (u "груз") keyword || py_in (u "cargo") keyword
  || py_in (u "наименование") keyword.

(** The loop over the keywords (lines 71-80): the first keyword of the
    table whose first occurrence is less than 100 characters away from the
    first occurrence of the code adds its bonus and ends the loop. *)
Fixpoint keyword_bonus (keywords : list str) (text_lower code_lower : str)
    (score : float) : float :=
  match keywords with
  | [] => score
  | keyword :: keywords' =>
    let keyword_pos := py_find text_lower keyword in
    let code_pos := py_find text_lower code_lower in
    if negb (keyword_pos =? -1)%Z && negb (code_pos =? -1)%Z
       && (Z.abs (keyword_pos - code_pos) <? 100)%Z
    then
      let score := (score + 0.3)%float in
      if cargo_keyword keyword then (score + 0.2)%float else score
    else keyword_bonus keywords' text_lower code_lower score
  end.

(** The score of one candidate that is not excluded (lines 66-82). *)
Definition candidate_score (text_lower code : str) : float :=
  let prefix := prefix_of code in
  let score := 0.3%float in
  let score :=
    if str_mem prefix KNOWN_CONTAINER_PREFIXES
    then (score + 0.5)%float else score in
  let score :=
    keyword_bonus CONTAINER_KEYWORDS text_lower (py_lower code) score in
  (score + float_of_nat (length code) * 0.01)%float.

(** The loop over the candidates (lines 60-83). *)
Definition score_all (text_lower : str) (candidates : list str)
    : list (str * float * str) :=
  flat_map
    (fun code =>
       let prefix := prefix_of code in
       if str_mem prefix EXCLUDED_PREFIXES then []
       else [(code, candidate_score text_lower code, prefix)])
    candidates.

(** [scored.sort(key=lambda x: x[1], reverse=True)]: a stable sort by
    decreasing score. *)
Definition score_of (x : str * float * str) : float := snd (fst x).

Fixpoint insert_desc (x : str * float * str) (l : list (str * float * str))
    : list (str * float * str) :=
  match l with
  | [] => [x]
  | y :: l' =>
    if PrimFloat.ltb (score_of x) (score_of y)
    then y :: insert_desc x l' else x :: l
  end.

Definition sort_desc (l : list (str * float * str))
    : list (str * float * str) :=
  fold_right insert_desc [] l.

Definition _calculate_confidence (candidates : list str) (text : str)
    (method : str) : str * float * reason :=
  match candidates with
  | [] => ([], 0.0%float, NoCandidates)
  | [code] =>
    let prefix := prefix_of code in
    if str_mem prefix EXCLUDED_PREFIXES
    then ([], 0.0%float, SoleExcluded code prefix)
    else if str_mem prefix KNOWN_CONTAINER_PREFIXES
    then (code, 0.98%float, SoleKnown prefix)
    else (code, 0.85%float, SoleCandidate method)
  | _ =>
    let text_lower := py_lower text in
    let scored := score_all text_lower candidates in
    match sort_desc scored with
    | [] => ([], 0.0%float, AllExcluded)
    | (best_code, best_score, best_prefix) :: _ =>
      let confidence := py_min best_score 0.98%float in
      let reason :=
        if str_mem best_prefix KNOWN_CONTAINER_PREFIXES
        then BestKnown best_prefix (length candidates)
        else BestScored (length candidates) best_score in
      (best_code, confidence, reason)
    end
  end.

(** [list(dict.fromkeys(candidates))]: the first occurrences, in order. *)
Definition dict_fromkeys (l : list str) : list str :=
  fold_left (fun keys x => if str_mem x keys then keys else keys ++ [x]) l [].

(** The normalization applied to every raw match. *)
Definition normalize_raw (raw : str) : str :=
  py_upper (strip_separators raw).

(** The validating loops (lines 450-453 and 457-460). *)
Definition validated (raws : list str) : list str :=
  flat_map
    (fun raw =>
       let normalized := normalize_raw raw in
       if re_match VALIDATION_PATTERN normalized then [normalized] else [])
    raws.

(** *** The pattern matcher

    The calls of [findall] are the scans of the text; a computation that
    scans carries the list of the patterns it has run, in order. *)

Inductive pass := PriorityPass | FallbackPass.

Definition Scanning (A : Type) : Type := A * list pass.

Definition ret {A} (a : A) : Scanning A := (a, []).

Definition bind {A B} (x : Scanning A) (f : A -> Scanning B) : Scanning B :=
  let (b, t) := f (fst x) in (b, snd x ++ t).

Definition pass_pattern (p : pass) : pattern :=
  match p with
  | PriorityPass => PRIORITY_PATTERN
  | FallbackPass => FALLBACK_PATTERN
  end.

Definition run_pass (p : pass) (text : str) : Scanning (list (list str)) :=
  (findall (pass_pattern p) text, [p]).

Record extract_result := ExtractResult {
  code : str;
  candidates : list str;
  confidence : float;
  why : reason
}.

(** [not x] for a string or a list *)
Definition is_empty {A} (s : list A) : bool :=
  match s with [] => true | _ => false end.

Definition regex_extract_code_direct (text : str) : Scanning extract_result :=
  if is_empty text || py_startswith text (u "ERROR")
  then ret (ExtractResult [] [] 0.0%float EmptyOrError)
  else
    bind (run_pass PriorityPass text) (fun priority_matches =>
    let candidates := validated (map (fun gs => nth 0 gs []) priority_matches) in
    bind (if is_empty candidates
          then bind (run_pass FallbackPass text) (fun fallback_matches =>
               ret (validated
                      (map (fun gs => nth 0 gs [] ++ nth 1 gs [])
                         fallback_matches)))
          else ret candidates) (fun candidates =>
    let candidates := dict_fromkeys candidates in
    let '(code, confidence, reason) :=
      _calculate_confidence candidates text (u "regex") in
    ret (ExtractResult code candidates confidence reason))).

(** The LangChain tool [regex_extract_code] has the same body. *)
Definition regex_extract_code (text : str) : Scanning extract_result :=
  if is_empty text || py_startswith text (u "ERROR")
  then ret (ExtractResult [] [] 0.0%float EmptyOrError)
  else
    bind (run_pass PriorityPass text) (fun priority_matches =>
    let candidates := validated (map (fun gs => nth 0 gs []) priority_matches) in
    bind (if is_empty candidates
          then bind (run_pass FallbackPass text) (fun fallback_matches =>
               ret (validated
                      (map (fun gs => nth 0 gs [] ++ nth 1 gs [])
                         fallback_matches)))
          else ret candidates) (fun candidates =>
    let candidates := dict_fromkeys candidates in
    let '(code, confidence, reason) :=
      _calculate_confidence candidates text (u "regex") in
    ret (ExtractResult code candidates confidence reason))).

(** *** The normalizer *)

Definition normalize_code_direct (raw : str) : str :=
  if is_empty raw then u "ERROR: пустой код"
  else
    let normalized := py_upper (strip_separators raw) in
    if negb (re_match VALIDATION_PATTERN normalized)
    then u "ERROR: код '" ++ normalized
           ++ u "' не соответствует формату (4 буквы + 7 цифр)"
    else normalized.

(** The tool [normalize_code] has the same body. *)
Definition normalize_code (raw : str) : str :=
  if is_empty raw then u "ERROR: пустой код"
  else
    let normalized := py_upper (strip_separators raw) in
    if negb (re_match VALIDATION_PATTERN normalized)
    then u "ERROR: код '" ++ normalized
           ++ u "' не соответствует формату (4 буквы + 7 цифр)"
    else normalized.

End Tools.

(** *** The collision-safe renamer

    [safe_rename_direct] builds every path in the parent directory of the
    file it renames, so a call is modelled on the listing of that directory:
    a finite map from the names of its files to the identities of the files.
    A path is the name of a file in the directory.  Paths are compared as
    POSIX paths are, and no call of the file system fails. *)

(** [str(n)] for a natural number *)
Definition str_of_nat (n : nat) : str :=
  map N_of_ascii (list_ascii_of_string (pretty n)).

(** [f"{new_basename}_{counter}.pdf"] *)
Definition suffixed (new_basename : str) (counter : nat) : str :=
  new_basename ++ u "_" ++ str_of_nat counter ++ u ".pdf".

(** The loop [while new_path.exists()] (lines 367-370): its state is the
    current path and the counter; [fuel] bounds its iterations. *)
Fixpoint next_free (fuel : nat) (dir : gmap str N) (new_basename : str)
    (new_path : str) (counter : nat) : option (str * nat) :=
  match dir !! new_path with
  | None => Some (new_path, counter)
  | Some _ =>
    match fuel with
    | O => None
    | S fuel' =>
      next_free fuel' dir new_basename (suffixed new_basename counter)
        (S counter)
    end
  end.

Record rename_result := RenameResult { new_path : str; note : str }.

(** [file_path.rename(new_path)] *)
Definition fs_rename (dir : gmap str N) (file_path new_path : str)
    : gmap str N :=
  match dir !! file_path with
  | Some f => <[new_path := f]> (delete file_path dir)
  | None => dir
  end.

(** The result and the directory after the call; [None] when the loop has
    not ended within [S (size dir)] iterations. *)
Definition safe_rename_direct (dir : gmap str N) (path new_basename : str)
    (dry_run : bool) : option (rename_result * gmap str N) :=
  match dir !! path with
  | None =>
    Some (RenameResult [] (u "ERROR: файл не найден: " ++ path), dir)
  | Some _ =>
    let new_name := new_basename ++ u ".pdf" in
    let found :=
      if bool_decide (is_Some (dir !! new_name))
         && negb (str_eqb new_name path)
      then
        match next_free (S (size dir)) dir new_basename new_name 1 with
        | Some (new_path, counter) =>
          Some (new_path,
                u "коллизия имени, добавлен суффикс _"
                  ++ str_of_nat (counter - 1))
        | None => None
        end
      else Some (new_name, u "переименовано успешно") in
    match found with
    | None => None
    | Some (new_path, note) =>
      if negb dry_run
      then
        Some (RenameResult new_path note,
              if negb (str_eqb new_path path)
              then fs_rename dir path new_path else dir)
      else Some (RenameResult new_path (u "DRY RUN: " ++ note), dir)
    end
  end.

(** The tool [safe_rename] has the same body. *)
Definition safe_rename (dir : gmap str N) (path new_basename : str)
    (dry_run : bool) : option (rename_result * gmap str N) :=
  match dir !! path with
  | None =>
    Some (RenameResult [] (u "ERROR: файл не найден: " ++ path), dir)
  | Some _ =>
    let new_name := new_basename ++ u ".pdf" in
    let found :=
      if bool_decide (is_Some (dir !! new_name))
         && negb (str_eqb new_name path)
      then
        match next_free (S (size dir)) dir new_basename new_name 1 with
        | Some (new_path, counter) =>
          Some (new_path,
                u "коллизия имени, добавлен суффикс _"
                  ++ str_of_nat (counter - 1))
        | None => None
        end
      else Some (new_name, u "переименовано успешно") in
    match found with
    | None => None
    | Some (new_path, note) =>
      if negb dry_run
      then
        Some (RenameResult new_path note,
              if negb (str_eqb new_path path)
              then fs_rename dir path new_path else dir)
      else Some (RenameResult new_path (u "DRY RUN: " ++ note), dir)
    end
  end.

(** Successive calls, with [dry_run] false, that rename the files
    [sources] to one base name. *)
Fixpoint rename_all (dir : gmap str N) (sources : list str)
    (new_basename : str) : option (list rename_result * gmap str N) :=
  match sources with
  | [] => Some ([], dir)
  | path :: sources' =>
    match safe_rename_direct dir path new_basename false with
    | None => None
    | Some (r, dir') =>
      match rename_all dir' sources' new_basename with
      | None => None
      | Some (rs, dir'') => Some (r :: rs, dir'')
      end
    end
  end.

(** ** agent.py *)

(** What [llm.invoke] and the decoding of its answer give: no JSON object,
    an exception, or the fields [code], [confidence] and [reason]. *)
Inductive llm_reply :=
| ReplyRaised (e : str)
| ReplyNoJson
| ReplyJson (code : str) (confidence : float) (reason : str).

Record llm_result := LlmResult {
  llm_code : str;
  llm_confidence : float;
  llm_reason : str
}.

Section Agent.
Context {U : UnicodeData}.

(** The anti-hallucination test (lines 62-72). *)
Definition found_in_text (text normalized : str) : bool :=
  let text_upper := py_upper text in
  let code_letters := firstn 4 normalized in
  let code_digits := skipn 4 normalized in
  if py_in normalized text_upper then true
  else if py_in code_letters text_upper && py_in code_digits text_upper
  then
    let dist :=
      Z.abs (py_find text_upper code_letters
               - py_find text_upper code_digits) in
    (dist <? 20)%Z
  else false.

(** [llm] answers the prompt built from [text[:2000]]. *)
Definition extract_code_with_llm (text : str) (llm : str -> llm_reply)
    : llm_result :=
  match llm (firstn 2000 text) with
  | ReplyRaised e => LlmResult [] 0.0%float (u "Ошибка LLM: " ++ e)
  | ReplyNoJson => LlmResult [] 0.0%float (u "Некорректный формат ответа LLM")
  | ReplyJson code confidence reason =>
    let code := py_strip code in
    if negb (is_empty code)
    then
      let normalized := py_upper (strip_separators code) in
      if negb (re_match VALIDATION_PATTERN normalized)
      then LlmResult [] 0.0%float
             (u "LLM вернул невалидный формат: " ++ code)
      else if negb (found_in_text text normalized)
      then LlmResult [] 0.0%float
             (u "LLM галлюцинация: код '" ++ normalized
                ++ u "' не найден в тексте документа")
      else LlmResult normalized (py_min confidence 0.95%float)
             (u "LLM: " ++ reason ++ u " (проверено в тексте)")
    else LlmResult [] 0.0%float (u "LLM не нашёл валидный код")
  end.

End Agent.

(** ** main.py *)

Section Main.
Context {U : UnicodeData}.

(** The extraction of one document: code, confidence, method and note. *)
Record extraction := Extraction {
  extracted_code : str;
  ex_confidence : float;
  method : str;
  ex_note : str
}.

(** Lines 181-198: the regex extractor, then the LLM when it is there and
    the regex result is weak or ambiguous. *)
Definition extract_from_text (llm : option (str -> llm_reply)) (text : str)
    : extraction :=
  let regex_result := fst (regex_extract_code_direct text) in
  let primary :=
    Extraction (code regex_result) (confidence regex_result) (u "regex") [] in
  match llm with
  | Some l =>
    if PrimFloat.ltb (confidence regex_result) MIN_CONFIDENCE_THRESHOLD
       || (1 <? length (candidates regex_result))%nat
    then
      let llm_result := extract_code_with_llm text l in
      if PrimFloat.ltb (confidence regex_result) (llm_confidence llm_result)
      then Extraction (llm_code llm_result) (llm_confidence llm_result)
             (u "llm") (llm_reason llm_result)
      else primary
    else primary
  | None => primary
  end.

(** Lines 206-220: the same on the text recovered by OCR; the LLM is asked
    only when the confidence is below the threshold. *)
Definition extract_from_ocr (llm : option (str -> llm_reply)) (ocr_text : str)
    : extraction :=
  let regex_result := fst (regex_extract_code_direct ocr_text) in
  let primary :=
    Extraction (code regex_result) (confidence regex_result)
      (u "ocr+regex") [] in
  match llm with
  | Some l =>
    if PrimFloat.ltb (confidence regex_result) MIN_CONFIDENCE_THRESHOLD
    then
      let llm_result := extract_code_with_llm ocr_text l in
      if PrimFloat.ltb (confidence regex_result) (llm_confidence llm_result)
      then Extraction (llm_code llm_result) (llm_confidence llm_result)
             (u "ocr+llm") []
      else primary
    else primary
  | None => primary
  end.

End Main.

(** ** main.py: the processing of a folder *)

(** One record of the log (the timestamp is left out). *)
Record log_row := LogRow {
  row_original_path : str;
  row_new_path : str;
  row_extracted_code : str;
  row_method : str;
  row_confidence : float;
  row_note : str;
  row_dry_run : str
}.

Record counters := Counters {
  processed : nat;
  renamed : nat;
  skipped : nat;
  errors : nat
}.

(** [a or b] for strings *)
Definition py_or (a b : str) : str := if is_empty a then b else a.

(** ["1" if dry_run else "0"] *)
Definition dry_flag (dry_run : bool) : str :=
  if dry_run then u "1" else u "0".

Section Folder.
Context {U : UnicodeData}.

(** Lines 180-228: the extraction from the text of the document, or from
    the text that OCR recovers when the document has none. *)
Definition extract_document (llm : option (str -> llm_reply))
    (ocr_enabled : bool) (text ocr_text : str) : extraction :=
  if negb (is_empty (py_strip text)) then extract_from_text llm text
  else if ocr_enabled then
    if negb (py_startswith ocr_text (u "ERROR"))
       && negb (is_empty (py_strip ocr_text))
    then extract_from_ocr llm ocr_text
    else Extraction [] 0.0%float (u "ocr") (u "OCR не смог извлечь текст")
  else Extraction [] 0.0%float (u "none")
         (u "NO_TEXT: текст пустой, OCR выключен").

(** The body of the loop (lines 152-288) for the document [pdf_path],
    whose text is [text] and whose OCR text is [ocr_text]: the record
    logged, the counters and the directory after it. *)
Definition process_document (llm : option (str -> llm_reply))
    (ocr_enabled dry_run : bool) (dir : gmap str N) (c : counters)
    (pdf_path text ocr_text : str)
    : option (log_row * counters * gmap str N) :=
  if py_startswith text (u "ERROR") then
    Some (LogRow pdf_path [] [] (u "read") 0.0%float
            (u "Ошибка чтения: " ++ text) (dry_flag dry_run),
          Counters (processed c) (renamed c) (skipped c) (S (errors c)),
          dir)
  else
    let e := extract_document llm ocr_enabled text ocr_text in
    if is_empty (extracted_code e) then
      Some (LogRow pdf_path [] [] (method e) (ex_confidence e)
              (py_or (ex_note e) (u "NOT_FOUND: код контейнера не найден"))
              (dry_flag dry_run),
            Counters (processed c) (renamed c) (S (skipped c)) (errors c),
            dir)
    else
      let normalized := normalize_code_direct (extracted_code e) in
      if py_startswith normalized (u "ERROR") then
        Some (LogRow pdf_path [] (extracted_code e) (method e)
                (ex_confidence e) normalized (dry_flag dry_run),
              Counters (processed c) (renamed c) (S (skipped c)) (errors c),
              dir)
      else
        match safe_rename_direct dir pdf_path normalized dry_run with
        | None => None
        | Some (r, dir') =>
          Some (LogRow pdf_path (new_path r) normalized (method e)
                  (ex_confidence e) (note r) (dry_flag dry_run),
                if is_empty (new_path r)
                   || py_startswith (note r) (u "ERROR")
                then Counters (S (processed c)) (renamed c) (skipped c)
                       (S (errors c))
                else Counters (S (processed c)) (S (renamed c)) (skipped c)
                       (errors c),
                dir')
        end.

(** The loop of [process_folder_simple] over the sorted paths: [read] and
    [ocr] are the text readers, the log is the list of the records. *)
Fixpoint process_paths (llm : option (str -> llm_reply))
    (ocr_enabled dry_run : bool) (read ocr : str -> str)
    (dir : gmap str N) (c : counters) (pdf_paths : list str)
    : option (list log_row * counters * gmap str N) :=
  match pdf_paths with
  | [] => Some ([], c, dir)
  | pdf_path :: pdf_paths' =>
    match process_document llm ocr_enabled dry_run dir c pdf_path
            (read pdf_path) (ocr pdf_path) with
    | None => None
    | Some (row, c', dir') =>
      match process_paths llm ocr_enabled dry_run read ocr dir' c'
              pdf_paths' with
      | None => None
      | Some (rows, c'', dir'') => Some (row :: rows, c'', dir'')
      end
    end
  end.

(** [analyze_log]: the classification of the records of a log. *)
Definition analyze_row (c : counters) (row : log_row) : counters :=
  if negb (is_empty (row_new_path row))
     && negb (py_startswith (row_note row) (u "ERROR"))
  then Counters (processed c) (S (renamed c)) (skipped c) (errors c)
  else if py_in (u "NOT_FOUND") (row_note row)
          || py_in (u "NO_TEXT") (row_note row)
  then Counters (processed c) (renamed c) (S (skipped c)) (errors c)
  else Counters (processed c) (renamed c) (skipped c) (S (errors c)).

(** The statistics of [analyze_log]: [renamed], [skipped] and [errors]
    are counted, [total] and [processed] are both the number of the
    records. *)
Definition analyze_log (rows : list log_row) : counters :=
  let c := fold_left analyze_row rows (Counters 0 0 0 0) in
  Counters (length rows) (renamed c) (skipped c) (errors c).

End Folder.

(** ** tools.py: the log file *)

Definition LOG_FIELDS : list str :=
  Eval vm_compute in
  [u "timestamp"; u "original_path"; u "new_path"; u "extracted_code";
   u "method"; u "confidence"; u "note"; u "dry_run"].

(** [v.replace(chr(34), chr(34)+chr(34))] *)
Definition double_quotes (v : str) : str :=
  flat_map (fun c => if (c =? 0x22)%N then [0x22%N; 0x22%N] else [c]) v.

(** [f'"{...}"'] *)
Definition csv_quote (v : str) : str := [0x22%N] ++ double_quotes v ++ [0x22%N].

(** [sep.join(values)] *)
Fixpoint py_join (sep : str) (values : list str) : str :=
  match values with
  | [] => []
  | [v] => v
  | v :: values' => v ++ sep ++ py_join sep values'
  end.

Definition csv_line (values : list str) : str :=
  py_join (u ",") (map csv_quote values).

(** [row.get(key, default)] on a dictionary of strings (the values of a
    row are taken as their [str()]). *)
Definition dict_get (row : gmap str str) (key default : str) : str :=
  match row !! key with Some v => v | None => default end.

(** The dictionary [log_entry] that [log_result] and [log_result_direct]
    build from a row (lines 330-339 and 390-399); [timestamp] is the
    formatted time of the call. *)
Definition log_entry (timestamp : str) (row : gmap str str) : gmap str str :=
  {[ u "timestamp" := timestamp;
     u "original_path" := dict_get row (u "original_path") [];
     u "new_path" := dict_get row (u "new_path") [];
     u "extracted_code" := dict_get row (u "extracted_code") [];
     u "method" := dict_get row (u "method") [];
     u "confidence" := dict_get row (u "confidence") [];
     u "note" := dict_get row (u "note") [];
     u "dry_run" := dict_get row (u "dry_run") (u "0") ]}.

(** [[str(log_entry.get(field, "")) for field in LOG_FIELDS]] *)
Definition log_values (timestamp : str) (row : gmap str str) : list str :=
  map (fun field => dict_get (log_entry timestamp row) field []) LOG_FIELDS.

(** The line that the two functions append for a row. *)
Definition log_line (timestamp : str) (row : gmap str str) : str :=
  csv_line (log_values timestamp row).

(** The log file of the tools: [None] until [set_log_file] is called, then
    the lines of the file. *)
Definition log_state := option (list str).

(** [set_log_file] on a log file whose lines are [existing] ([None] when
    the file does not exist): a new file gets the header. *)
Definition set_log_file (existing : option (list str)) : log_state :=
  match existing with
  | Some lines => Some lines
  | None => Some [py_join (u ",") LOG_FIELDS]
  end.

(** The tool [log_result]: the answer and the log after the call. *)
Definition log_result (timestamp : str) (row : gmap str str)
    (log : log_state) : str * log_state :=
  match log with
  | None => (u "ERROR: лог-файл не инициализирован", None)
  | Some lines =>
    (u "OK: запись добавлена в лог", Some (lines ++ [log_line timestamp row]))
  end.

(** [log_result_direct] on the lines of the file at [log_path]. *)
Definition log_result_direct (timestamp : str) (row : gmap str str)
    (lines : list str) : str * list str :=
  (u "OK", lines ++ [log_line timestamp row]).

(** A sequence of calls of [log_result], each with its timestamp and its
    row: the answers and the log after them. *)
Fixpoint log_results (calls : list (str * gmap str str)) (log : log_state)
    : list str * log_state :=
  match calls with
  | [] => ([], log)
  | (timestamp, row) :: calls' =>
    let (answer, log') := log_result timestamp row log in
    let (answers, log'') := log_results calls' log' in
    (answer :: answers, log'')
  end.

(** The dictionary that [process_folder_simple] passes to
    [log_result_direct] for a record (main.py, lines 165-173, 236-244,
    252-260 and 275-283); [str_of_float] is [str] on the confidence. *)
Definition row_dict (str_of_float : float -> str) (r : log_row)
    : gmap str str :=
  {[ u "original_path" := row_original_path r;
     u "new_path" := row_new_path r;
     u "extracted_code" := row_extracted_code r;
     u "method" := row_method r;
     u "confidence" := str_of_float (row_confidence r);
     u "note" := row_note r;
     u "dry_run" := row_dry_run r ]}.

(** The default of [row.get] for a field of the log. *)
Definition field_default (field : str) : str :=
  if str_eqb field (u "dry_run") then u "0" else [].

(** A reader of a line of quoted fields separated by commas, in which a
    doubled quote stands for a quote. *)
Inductive read_state := FieldStart | InQuoted | QuoteSeen.

Fixpoint csv_read (st : read_state) (cur : str) (done : list str) (s : str)
    : option (list str) :=
  match s with
  | [] =>
    match st with
    | QuoteSeen => Some (done ++ [cur])
    | FieldStart => if is_empty done then Some [] else None
    | InQuoted => None
    end
  | c :: s' =>
    match st with
    | FieldStart =>
      if (c =? 0x22)%N then csv_read InQuoted [] done s' else None
    | InQuoted =>
      if (c =? 0x22)%N then csv_read QuoteSeen cur done s'
      else csv_read InQuoted (cur ++ [c]) done s'
    | QuoteSeen =>
      if (c =? 0x22)%N then csv_read InQuoted (cur ++ [0x22%N]) done s'
      else if (c =? 0x2C)%N then csv_read FieldStart [] (done ++ [cur]) s'
      else None
    end
  end.

(** ** The notions of the statements *)

(** *** What the specification calls the shape of a code *)

Definition is_AZ (c : N) : bool := in_range 0x41 0x5A c.

(** Exactly 4 letters [A-Z] followed by 7 digits, 11 characters in all. *)
Definition shape_4L7D `{UnicodeData} (s : str) : bool :=
  (length s =? 11)%nat
  && forallb is_AZ (firstn 4 s) && forallb is_decimal (skipn 4 s).

(** [normalize] succeeds when it returns a code and not an error message,
    which is how [main.py] tells them apart. *)
Definition succeeds (r : str) : bool := negb (py_startswith r (u "ERROR")).

Section Notions.
Context {U : UnicodeData}.

(** A character that the normalization leaves as it is. *)
Definition plain (x : N) : Prop :=
  (x <> 0x20 /\ x <> 0x2D /\ x <> 0x5F)%N /\ upper_char x = [x].

(** The validated candidates of each pass. *)
Definition priority_candidates (text : str) : list str :=
  validated (map (fun gs => nth 0 gs []) (findall PRIORITY_PATTERN text)).

Definition fallback_candidates (text : str) : list str :=
  validated
    (map (fun gs => nth 0 gs [] ++ nth 1 gs [])
       (findall FALLBACK_PATTERN text)).

Definition gated (text : str) : bool :=
  is_empty text || py_startswith text (u "ERROR").

End Notions.

(** The exclusion test of the scorer. *)
Definition is_excluded `{UnicodeData} (code : str) : bool :=
  str_mem (prefix_of code) EXCLUDED_PREFIXES.

Definition is_known `{UnicodeData} (code : str) : bool :=
  str_mem (prefix_of code) KNOWN_CONTAINER_PREFIXES.

(** What a candidate is: a string that has passed the validation. *)
Definition valid `{UnicodeData} (code : str) : Prop :=
  re_match VALIDATION_PATTERN code = true.

(** The keyword test of the scorer: the first occurrences of the keyword
    and of the code are less than 100 characters apart. *)
Definition near (text_lower code_lower keyword : str) : bool :=
  let keyword_pos := py_find text_lower keyword in
  let code_pos := py_find text_lower code_lower in
  negb (keyword_pos =? -1)%Z && negb (code_pos =? -1)%Z
  && (Z.abs (keyword_pos - code_pos) <? 100)%Z.

(** The score as a sum: the base, the known prefix, the first keyword of
    the table that is [near], and the length. *)
Definition score_formula `{UnicodeData} (text code : str) : float :=
  let s := 0.3%float in
  let s := if is_known code then (s + 0.5)%float else s in
  let s :=
    match List.find (near (py_lower text) (py_lower code)) CONTAINER_KEYWORDS with
    | Some keyword =>
      if cargo_keyword keyword then (s + 0.3 + 0.2)%float else (s + 0.3)%float
    | None => s
    end in
  (s + float_of_nat (length code) * 0.01)%float.

(** The score in the words of the specification: the bonus is due when a
    keyword appears, anywhere, less than 100 characters from the position
    of the candidate. *)
Fixpoint occurrences_from (i : Z) (s sub : str) : list Z :=
  (if py_startswith s sub then [i] else [])
  ++ match s with
     | [] => []
     | _ :: s' => occurrences_from (i + 1) s' sub
     end.

Definition appears_in_window (text_lower code_lower keyword : str) : bool :=
  let code_pos := py_find text_lower code_lower in
  negb (code_pos =? -1)%Z
  && existsb (fun p => (Z.abs (p - code_pos) <? 100)%Z)
       (occurrences_from 0 text_lower keyword).

Definition spec_score `{UnicodeData} (text code : str) : float :=
  let s := 0.3%float in
  let s := if is_known code then (s + 0.5)%float else s in
  let s :=
    match List.find (appears_in_window (py_lower text) (py_lower code))
            CONTAINER_KEYWORDS with
    | Some keyword =>
      if cargo_keyword keyword then (s + 0.3 + 0.2)%float else (s + 0.3)%float
    | None => s
    end in
  (s + float_of_nat (length code) * 0.01)%float.

(** The values that the score of a string of 11 or 12 characters takes. *)
Definition score_values : list float :=
  Eval vm_compute in
  flat_map
    (fun n =>
       flat_map
         (fun s =>
            map (fun s' => (s' + float_of_nat n * 0.01)%float)
              [s; (s + 0.3)%float; (s + 0.3 + 0.2)%float])
         [0.3%float; (0.3 + 0.5)%float])
    [11; 12].

Definition selected_code (r : str * float * reason) : str := fst (fst r).

Definition selected_confidence (r : str * float * reason) : float :=
  snd (fst r).

(** The text of the counterexample to C6 as it is stated: the keyword "код"
    stands 100 spaces before AAAA1111111 and again right after it, and
    "номер" stands before BBBB2222222, more than 100 characters later. *)
Definition far_keyword_text : str :=
  u "код" ++ repeat 0x20%N 100 ++ u "AAAA1111111 код" ++ repeat 0x20%N 100
    ++ u "номер BBBB2222222".

(** [sub] occurs in [s] at the index [i]. *)
Definition occurs_at (s sub : str) (i : Z) : Prop :=
  (0 <= i)%Z /\ py_startswith (skipn (Z.to_nat i) s) sub = true.

(** The directory of the scenario: two documents with the code
    ABCD1234567. *)
Definition two_documents : gmap str N :=
  {[ u "doc1.pdf" := 1%N; u "duplicate.pdf" := 2%N ]}.

(** [g] is a contiguous piece of [s]. *)
Definition substring (g s : str) : Prop := exists a b, s = a ++ g ++ b.

(** [st'] is reached from [st]: some characters have been consumed and
    the groups closed on the way are pieces of the text left at [st]. *)
Definition reached (st st' : Re.mstate) : Prop :=
  (exists consumed, Re.rest st = consumed ++ Re.rest st')
  /\ exists new, Re.caps st' = Re.caps st ++ new
                 /\ Forall (fun g => substring g (Re.rest st)) new.

Section RenamePlan.
Implicit Types (dir : gmap str N) (b path : str).

(** The target and the note that a call computes for an existing file,
    before it renames or not. *)
Definition rename_plan dir path b : option (str * str) :=
  let new_name := b ++ u ".pdf" in
  if bool_decide (is_Some (dir !! new_name)) && negb (str_eqb new_name path)
  then
    match next_free (S (size dir)) dir b new_name 1 with
    | Some (new_path, counter) =>
      Some (new_path,
            u "коллизия имени, добавлен суффикс _" ++ str_of_nat (counter - 1))
    | None => None
    end
  else Some (new_name, u "переименовано успешно").

(** The files of a directory: the identities that have a name. *)
Definition has_file dir (f : N) : Prop := exists n, dir !! n = Some f.

End RenamePlan.

(** A directory in which ABCD1234567.pdf and ABCD1234567_1.pdf exist. *)
Definition busy_directory : gmap str N :=
  {[ u "ABCD1234567.pdf" := 1%N; u "ABCD1234567_1.pdf" := 2%N;
     u "scan.pdf" := 3%N ]}.

(** The name that a document gets: the code with ".pdf", or with a suffix
    before it. *)
Definition named_after (code new_path : str) : Prop :=
  new_path = code ++ u ".pdf"
  \/ exists k, 1 <= k /\ new_path = suffixed code k.

(** The confidences of the regex extractor. *)
Definition confidence_values : list float :=
  Eval vm_compute in
  0.0%float :: 0.85%float :: 0.98%float
    :: map (fun x => py_min x 0.98%float) score_values.

(** The witness: two bare codes, and an LLM that answers the second one
    with the confidence 0.9. *)
Definition second_code_llm (prompt : str) : llm_reply :=
  ReplyJson (u " bbbb-2222222 ") 0.9%float (u "second code").

(** A record counts as renamed: it has a new path and its note is not an
    error. *)
Definition counts_as_renamed (row : log_row) : bool :=
  negb (is_empty (row_new_path row))
  && negb (py_startswith (row_note row) (u "ERROR")).

(** The new paths that a run has given. *)
Definition given_names (rows : list log_row) : list str :=
  List.filter (fun n => negb (is_empty n)) (map row_new_path rows).

(** The witness: two documents that hold the same code. *)
Definition same_code_reader (path : str) : str :=
  u "Контейнер № ABCD1234567".

(** A regular expression without capturing group. *)
Fixpoint no_groups (r : Re.regex) : bool :=
  match r with
  | Re.Seq r1 r2 | Re.Alt r1 r2 => no_groups r1 && no_groups r2
  | Re.Opt r1 | Re.Star r1 | Re.Rep _ r1 => no_groups r1
  | Re.Group _ => false
  | _ => true
  end.

(** * Properties *)

(** Case analysis on the range tests of a goal, dropping impossible cases. *)
Ltac range_cases :=
  repeat (match goal with
          | |- context [(?a <=? ?b)%N] =>
            destruct (N.leb_spec a b); try lia
          | |- context [(?a =? ?b)%N] =>
            destruct (N.eqb_spec a b); try lia
          end; simpl).

Lemma ucd_laws : UnicodeLaws ucd.
Proof.
  split; simpl.
  - intros c Hc. unfold Fragment.upper, ascii_upper, Fragment.cyr_pairs,
      in_range. range_cases; reflexivity.
  - unfold Fragment.decimal, Fragment.upper, Fragment.cyr_pairs, in_range.
    intros c Hc. apply andb_true_iff in Hc as [H1 H2].
    apply N.leb_le in H1, H2. range_cases; reflexivity.
  - intros c Hc. unfold Fragment.upper, Fragment.cyr_pairs, in_range.
    range_cases; reflexivity.
  - reflexivity.
Qed.

Section ValidationFacts.
Context {U : UnicodeData}.

Ltac eval_validation :=
  unfold re_match, Re.matches, Re.match_at;
  cbn [VALIDATION_PATTERN icase re Re.m Re.prev Re.rest Re.caps AZ digit
       Re.step1 Re.cls_matches Re.item_matches existsb Re.or_else].

Ltac split_ifs :=
  repeat match goal with
         | H : context [if ?b then _ else _] |- _ =>
           destruct b eqn:?; try discriminate H
         end.

(** The strings that [VALIDATION_PATTERN.match] accepts: [$] also matches
    before a newline that ends the string. *)
Lemma validation_match_inv s :
  re_match VALIDATION_PATTERN s = true ->
  exists s', shape_4L7D s' = true /\ (s = s' \/ s = s' ++ [0x0A%N]).
Proof.
  do 11 (destruct s as [|? s];
         [eval_validation; intros H; split_ifs; discriminate H|]).
  eval_validation. intros H. split_ifs.
  repeat match goal with
         | H : (_ || false) = true |- _ => rewrite orb_false_r in H
         end.
  assert (Hs : forall tl, tl = [] ->
            shape_4L7D (n :: n0 :: n1 :: n2 :: n3 :: n4 :: n5 :: n6
                          :: n7 :: n8 :: n9 :: tl) = true).
  { intros tl ->. unfold shape_4L7D, is_AZ. cbn.
    repeat match goal with H : _ = true |- _ => rewrite H; clear H end.
    reflexivity. }
  destruct s as [|c [|? ?]]; try discriminate.
  - eexists; split; [apply Hs; reflexivity | left; reflexivity].
  - destruct (N.eqb_spec c 10); try discriminate. subst c.
    eexists; split; [apply Hs; reflexivity | right; reflexivity].
Qed.

Lemma shape_inv s :
  shape_4L7D s = true ->
  exists a b c d d1 d2 d3 d4 d5 d6 d7,
    s = [a; b; c; d; d1; d2; d3; d4; d5; d6; d7]
    /\ forallb is_AZ [a; b; c; d] = true
    /\ forallb is_decimal [d1; d2; d3; d4; d5; d6; d7] = true.
Proof.
  unfold shape_4L7D. intros H.
  apply andb_true_iff in H as [H H3]. apply andb_true_iff in H as [H1 H2].
  apply Nat.eqb_eq in H1.
  do 11 (destruct s as [|? s]; [discriminate|]).
  destruct s; [|discriminate].
  do 11 eexists. split; [reflexivity|]. split; assumption.
Qed.

Lemma validation_match_shape s :
  shape_4L7D s = true -> re_match VALIDATION_PATTERN s = true.
Proof.
  intros H. apply shape_inv in H
    as (a & b & c & d & d1 & d2 & d3 & d4 & d5 & d6 & d7 & -> & HA & HD).
  cbn in HA, HD. unfold is_AZ in HA.
  repeat match goal with
         | H : (_ && _) = true |- _ => apply andb_true_iff in H as [? H]
         end.
  eval_validation.
  repeat match goal with H : _ = true |- _ => rewrite H; clear H end.
  reflexivity.
Qed.

Lemma validation_match_newline s :
  shape_4L7D s = true -> re_match VALIDATION_PATTERN (s ++ [0x0A%N]) = true.
Proof.
  intros H. apply shape_inv in H
    as (a & b & c & d & d1 & d2 & d3 & d4 & d5 & d6 & d7 & -> & HA & HD).
  cbn in HA, HD. unfold is_AZ in HA.
  repeat match goal with
         | H : (_ && _) = true |- _ => apply andb_true_iff in H as [? H]
         end.
  cbn [app]. eval_validation.
  repeat match goal with H : _ = true |- _ => rewrite H; clear H end.
  reflexivity.
Qed.

Lemma validation_match_length s :
  re_match VALIDATION_PATTERN s = true -> length s = 11 \/ length s = 12.
Proof.
  intros H. apply validation_match_inv in H as (s' & Hs & [-> | ->]).
  - left. apply shape_inv in Hs as (? & ? & ? & ? & ? & ? & ? & ? & ? & ?
      & ? & -> & _). reflexivity.
  - right. apply shape_inv in Hs as (? & ? & ? & ? & ? & ? & ? & ? & ? & ?
      & ? & -> & _). reflexivity.
Qed.

End ValidationFacts.

(** ** The normalizer *)

Lemma u_ERROR : u "ERROR" = [0x45; 0x52; 0x52; 0x4F; 0x52]%N.
Proof. reflexivity. Qed.

Section NormalizerFacts.
Context {U : UnicodeData} {L : UnicodeLaws U}.

Lemma strip_separators_fixed s :
  Forall (fun x => x <> 0x20 /\ x <> 0x2D /\ x <> 0x5F)%N s ->
  strip_separators s = s.
Proof.
  unfold strip_separators, py_remove.
  induction 1 as [|x s (H1 & H2 & H3) _ IH]; [reflexivity|].
  cbn. apply N.eqb_neq in H1, H2, H3. rewrite H1. cbn. rewrite H2. cbn.
  rewrite H3. cbn. f_equal. exact IH.
Qed.

Lemma py_upper_fixed s :
  Forall (fun x => upper_char x = [x]) s -> py_upper s = s.
Proof.
  unfold py_upper. induction 1 as [|x s Hx _ IH]; [reflexivity|].
  cbn. rewrite Hx, IH. reflexivity.
Qed.

Lemma plain_AZ x : is_AZ x = true -> plain x.
Proof.
  unfold is_AZ, in_range. intros H. apply andb_true_iff in H as [H1 H2].
  apply N.leb_le in H1, H2. split; [lia|].
  rewrite upper_ascii by lia. unfold ascii_upper, in_range.
  destruct (N.leb_spec 0x61 x); [lia | reflexivity].
Qed.

Lemma decimal_not_ascii_other x :
  is_decimal x = true -> (x < 128)%N -> (0x30 <= x <= 0x39)%N.
Proof.
  intros Hd Hx. rewrite decimal_ascii in Hd by exact Hx.
  unfold ascii_digit, in_range in Hd. apply andb_true_iff in Hd as [H1 H2].
  apply N.leb_le in H1, H2. lia.
Qed.

Lemma plain_decimal x : is_decimal x = true -> plain x.
Proof.
  intros H. split; [|apply upper_decimal; exact H].
  repeat split; intros ->; apply decimal_not_ascii_other in H; lia.
Qed.

Lemma plain_newline : plain 0x0A%N.
Proof.
  split; [lia|]. rewrite upper_ascii by lia. reflexivity.
Qed.

Lemma shape_plain s : shape_4L7D s = true -> Forall plain s.
Proof.
  intros H. apply shape_inv in H
    as (a & b & c & d & d1 & d2 & d3 & d4 & d5 & d6 & d7 & -> & HA & HD).
  cbn in HA, HD.
  repeat match goal with
         | H : (_ && _) = true |- _ => apply andb_true_iff in H as [? H]
         end.
  repeat (apply List.Forall_cons; [auto using plain_AZ, plain_decimal|]).
  apply List.Forall_nil.
Qed.

(** A string that passes the validation is left as it is by the
    normalization. *)
Lemma validated_fixed n :
  re_match VALIDATION_PATTERN n = true -> py_upper (strip_separators n) = n.
Proof.
  intros H. apply validation_match_inv in H as (s' & Hs & Hn).
  assert (Hp : Forall plain n).
  { destruct Hn as [-> | ->]; [apply shape_plain; exact Hs|].
    apply Forall_app; split; [apply shape_plain; exact Hs|].
    apply List.Forall_cons; [apply plain_newline | apply List.Forall_nil]. }
  rewrite strip_separators_fixed.
  - apply py_upper_fixed. eapply List.Forall_impl; [|exact Hp]. intros x [_ Hx].
    exact Hx.
  - eapply List.Forall_impl; [|exact Hp]. intros x [Hx _]. exact Hx.
Qed.

(** A validated string is not an error message: its fifth character is a
    digit. *)
Lemma validated_succeeds n :
  re_match VALIDATION_PATTERN n = true -> succeeds n = true.
Proof.
  intros H. apply validation_match_inv in H as (s' & Hs & Hn).
  apply shape_inv in Hs
    as (a & b & c & d & d1 & d2 & d3 & d4 & d5 & d6 & d7 & -> & HA & HD).
  cbn in HD. apply andb_true_iff in HD as [HD _].
  assert (Hd : (0x52 =? d1)%N = false).
  { apply N.eqb_neq. intros <-. apply decimal_not_ascii_other in HD; lia. }
  unfold succeeds.
  rewrite u_ERROR.
  destruct Hn as [-> | ->]; cbn [py_startswith app]; rewrite Hd;
    repeat match goal with
           | |- context [(?x =? ?y)%N] => destruct (x =? y)%N
           end; reflexivity.
Qed.

(** [normalize_code_direct] returns a code exactly when the stripped and
    uppercased input passes [VALIDATION_PATTERN], and the code is that
    string. *)
Lemma normalize_code_direct_cases raw :
  (re_match VALIDATION_PATTERN (normalize_raw raw) = true
   /\ normalize_code_direct raw = normalize_raw raw
   /\ succeeds (normalize_code_direct raw) = true)
  \/ (re_match VALIDATION_PATTERN (normalize_raw raw) = false
      /\ succeeds (normalize_code_direct raw) = false).
Proof.
  unfold normalize_code_direct, normalize_raw. destruct raw as [|x raw].
  - right. split; reflexivity.
  - cbn [is_empty].
    destruct (re_match VALIDATION_PATTERN
                (py_upper (strip_separators (x :: raw)))) eqn:Hm; cbn [negb].
    + left. repeat split. apply validated_succeeds. exact Hm.
    + right. split; reflexivity.
Qed.

End NormalizerFacts.

(** C3 (the shape invariant of the normalizer), evaluated at the input
    "ABCD1234567" followed by a newline: the call returns the 12 characters
    of its input as a code, although the stripped and uppercased input is
    not 4 letters and 7 digits.  The [$] of [VALIDATION_PATTERN] accepts a
    final newline. *)
Theorem C3_normalize_accepts_trailing_newline :
  let raw := u "ABCD1234567" ++ [0x0A%N] in
  normalize_code_direct raw = raw
  /\ succeeds (normalize_code_direct raw) = true
  /\ shape_4L7D (py_upper (strip_separators raw)) = false
  /\ length (normalize_code_direct raw) = 12.
Proof. vm_compute. repeat split. Qed.

(** C9: for every valid code [c] (one that [normalize] accepts),
    normalizing the result of the normalization returns it unchanged:
    [normalize (normalize c) = normalize c]. *)
Theorem C9_normalize_idempotent {U : UnicodeData} (L : UnicodeLaws U)
    (c : str) :
  succeeds (normalize_code_direct c) = true ->
  normalize_code_direct (normalize_code_direct c) = normalize_code_direct c.
Proof.
  intros Hok.
  destruct (normalize_code_direct_cases c) as [(Hm & Hn & _) | (_ & Hf)];
    [|congruence].
  rewrite Hn.
  destruct (normalize_code_direct_cases (normalize_raw c))
    as [(_ & Hn' & _) | (Hm' & _)].
  - rewrite Hn'. unfold normalize_raw at 1. apply validated_fixed. exact Hm.
  - unfold normalize_raw at 1 in Hm'. rewrite validated_fixed in Hm' by exact Hm.
    congruence.
Qed.

Lemma C9_normalize_idempotent_witness :
  let c := u "abcd-1234567" in
  succeeds (normalize_code_direct c) = true
  /\ normalize_code_direct (normalize_code_direct c) = normalize_code_direct c.
Proof.
  split; [reflexivity|].
  apply (C9_normalize_idempotent ucd_laws (u "abcd-1234567")). reflexivity.
Defined.

(** ** The pattern matcher *)

Section MatcherFacts.
Context {U : UnicodeData}.

(** The passes that the matcher runs. *)
Lemma regex_extract_code_direct_passes text :
  snd (regex_extract_code_direct text) =
  if gated text then []
  else if is_empty (priority_candidates text) then [PriorityPass; FallbackPass]
  else [PriorityPass].
Proof.
  unfold regex_extract_code_direct, gated.
  destruct (is_empty text || py_startswith text (u "ERROR")); [reflexivity|].
  unfold bind, run_pass, ret. cbn [fst snd pass_pattern].
  fold (priority_candidates text).
  destruct (is_empty (priority_candidates text)); cbn [fst snd];
    destruct (_calculate_confidence _ _ _) as [[? ?] ?]; reflexivity.
Qed.

(** The candidates that the matcher returns. *)
Lemma regex_extract_code_direct_candidates text :
  gated text = false ->
  candidates (fst (regex_extract_code_direct text)) =
  dict_fromkeys
    (if is_empty (priority_candidates text) then fallback_candidates text
     else priority_candidates text).
Proof.
  unfold regex_extract_code_direct, gated. intros ->.
  unfold bind, run_pass, ret. cbn [fst snd pass_pattern].
  fold (priority_candidates text). fold (fallback_candidates text).
  destruct (is_empty (priority_candidates text)); cbn [fst snd];
    destruct (_calculate_confidence _ _ _) as [[? ?] ?]; reflexivity.
Qed.

End MatcherFacts.

(** C1: on the text "Коды: AAAA1111111, BBBB2222222, контейнер №
    CCCC3333333" the pattern matcher followed by the scorer selects
    CCCC3333333. *)
Theorem C1_keyword_anchored_code_selected :
  code (fst (regex_extract_code_direct
               (u "Коды: AAAA1111111, BBBB2222222, контейнер № CCCC3333333")))
  = u "CCCC3333333".
Proof. vm_compute. reflexivity. Qed.

(** C7: on every text that is neither empty nor an error message the
    priority pass is run, first; the fallback pass is run exactly when the
    priority pass has been run and has given no validated candidate, and
    then it is the second and last scan; the candidates returned are those
    of the fallback pass in that case and those of the priority pass
    otherwise.  On the empty text the matcher returns the code "", no
    candidate and the confidence 0.0, without any scan and without an
    error. *)
Theorem C7_fallback_only_after_empty_priority {U : UnicodeData} (text : str) :
  (In PriorityPass (snd (regex_extract_code_direct text))
   <-> gated text = false)
  /\ (In FallbackPass (snd (regex_extract_code_direct text))
      <-> gated text = false /\ priority_candidates text = [])
  /\ (In FallbackPass (snd (regex_extract_code_direct text))
      <-> In PriorityPass (snd (regex_extract_code_direct text))
          /\ priority_candidates text = [])
  /\ snd (regex_extract_code_direct text)
     = (if gated text then []
        else if is_empty (priority_candidates text)
        then [PriorityPass; FallbackPass] else [PriorityPass])
  /\ candidates (fst (regex_extract_code_direct text))
     = (if gated text then []
        else dict_fromkeys
               (if is_empty (priority_candidates text)
                then fallback_candidates text
                else priority_candidates text))
  /\ regex_extract_code_direct []
     = (ExtractResult [] [] 0.0%float EmptyOrError, []).
Proof.
  rewrite regex_extract_code_direct_passes.
  assert (Hc : candidates (fst (regex_extract_code_direct text))
               = (if gated text then []
                  else dict_fromkeys
                         (if is_empty (priority_candidates text)
                          then fallback_candidates text
                          else priority_candidates text))).
  { destruct (gated text) eqn:Hg.
    - unfold regex_extract_code_direct. fold (gated text). rewrite Hg.
      reflexivity.
    - apply regex_extract_code_direct_candidates. exact Hg. }
  rewrite Hc. clear Hc.
  destruct (gated text); [cbn; intuition congruence|].
  destruct (priority_candidates text) eqn:Hp; cbn; intuition congruence.
Qed.

(** C10: on every input that starts with "ERROR" the entry point
    [regex_extract_code] returns the code "", no candidate and the
    confidence 0.0, and scans nothing. *)
Theorem C10_error_text_not_scanned {U : UnicodeData} (text : str) :
  py_startswith text (u "ERROR") = true ->
  regex_extract_code text = (ExtractResult [] [] 0.0%float EmptyOrError, []).
Proof.
  intros H. unfold regex_extract_code. rewrite H, orb_true_r. reflexivity.
Qed.

(** The witness: an error text that holds a lexically valid code, which
    the fallback pattern would find. *)
Lemma C10_error_text_not_scanned_witness :
  let text := u "ERROR: container ABCD1234567" in
  py_startswith text (u "ERROR") = true
  /\ priority_candidates text = [u "ABCD1234567"]
  /\ regex_extract_code text = (ExtractResult [] [] 0.0%float EmptyOrError, []).
Proof.
  split; [reflexivity|]. split; [vm_compute; reflexivity|].
  apply (C10_error_text_not_scanned
           (u "ERROR: container ABCD1234567")). reflexivity.
Defined.

(** ** The candidate scorer *)

(** *** The scores of valid candidates *)

Lemma score_values_capped :
  forallb (fun x => PrimFloat.leb (py_min x 0.98%float) 0.98%float)
    score_values = true.
Proof. vm_compute. reflexivity. Qed.

Lemma score_values_order :
  forallb
    (fun x =>
       forallb
         (fun y =>
            forallb
              (fun z =>
                 implb (PrimFloat.ltb x z) (PrimFloat.ltb x y || PrimFloat.ltb y z)
                 && implb (PrimFloat.ltb x y && PrimFloat.ltb y z)
                      (PrimFloat.ltb x z))
              score_values)
         score_values)
    score_values = true.
Proof. vm_compute. reflexivity. Qed.

Lemma ltb_negtrans x y z :
  In x score_values -> In y score_values -> In z score_values ->
  PrimFloat.ltb x z = true ->
  PrimFloat.ltb x y = true \/ PrimFloat.ltb y z = true.
Proof.
  intros Hx Hy Hz Hxz. pose proof score_values_order as H.
  rewrite forallb_forall in H. specialize (H x Hx).
  rewrite forallb_forall in H. specialize (H y Hy).
  rewrite forallb_forall in H. specialize (H z Hz).
  rewrite Hxz in H. cbn in H. apply andb_true_iff in H as [H _].
  apply orb_true_iff in H. exact H.
Qed.

Lemma ltb_trans x y z :
  In x score_values -> In y score_values -> In z score_values ->
  PrimFloat.ltb x y = true -> PrimFloat.ltb y z = true ->
  PrimFloat.ltb x z = true.
Proof.
  intros Hx Hy Hz Hxy Hyz. pose proof score_values_order as H.
  rewrite forallb_forall in H. specialize (H x Hx).
  rewrite forallb_forall in H. specialize (H y Hy).
  rewrite forallb_forall in H. specialize (H z Hz).
  rewrite Hxy, Hyz in H. cbn in H. apply andb_true_iff in H as [_ H].
  exact H.
Qed.

Section ScorerFacts.
Context {U : UnicodeData}.

Lemma keyword_bonus_find keywords text_lower code_lower s :
  keyword_bonus keywords text_lower code_lower s =
  match List.find (near text_lower code_lower) keywords with
  | Some keyword =>
    if cargo_keyword keyword then (s + 0.3 + 0.2)%float else (s + 0.3)%float
  | None => s
  end.
Proof.
  induction keywords as [|k ks IH]; [reflexivity|].
  cbn [keyword_bonus List.find]. fold (near text_lower code_lower k).
  destruct (near text_lower code_lower k); [reflexivity | exact IH].
Qed.

(** The score that the loop computes is the sum [score_formula]. *)
Lemma candidate_score_formula text code :
  candidate_score (py_lower text) code = score_formula text code.
Proof.
  unfold candidate_score, score_formula. rewrite keyword_bonus_find.
  reflexivity.
Qed.

Lemma score_formula_values text code :
  valid code -> In (score_formula text code) score_values.
Proof.
  intros Hv. apply validation_match_length in Hv.
  unfold score_formula.
  destruct (is_known code);
    destruct (List.find _ CONTAINER_KEYWORDS) as [k|];
    try destruct (cargo_keyword k);
    destruct Hv as [-> | ->]; vm_compute; tauto.
Qed.

Lemma score_all_In text_lower cands x :
  In x (score_all text_lower cands) <->
  exists c, In c cands /\ is_excluded c = false
            /\ x = (c, candidate_score text_lower c, prefix_of c).
Proof.
  unfold score_all. rewrite in_flat_map. split.
  - intros (c & Hc & Hx). exists c. unfold is_excluded.
    destruct (str_mem (prefix_of c) EXCLUDED_PREFIXES); [destruct Hx|].
    destruct Hx as [<- | []]. auto.
  - intros (c & Hc & He & ->). exists c. split; [exact Hc|].
    unfold is_excluded in He. rewrite He. left. reflexivity.
Qed.

Lemma insert_desc_In x y l : In y (insert_desc x l) <-> y = x \/ In y l.
Proof.
  induction l as [|z l IH]; cbn.
  - intuition.
  - destruct (PrimFloat.ltb (score_of x) (score_of z)); cbn;
      rewrite ?IH; intuition.
Qed.

Lemma sort_desc_In y l : In y (sort_desc l) <-> In y l.
Proof.
  induction l as [|x l IH]; [cbn; tauto|].
  change (sort_desc (x :: l)) with (insert_desc x (sort_desc l)).
  rewrite insert_desc_In, IH. cbn. intuition.
Qed.

Lemma sort_desc_nil l : sort_desc l = [] -> l = [].
Proof.
  destruct l as [|x l]; [reflexivity|].
  change (sort_desc (x :: l)) with (insert_desc x (sort_desc l)). intros H.
  assert (Hin : In x (insert_desc x (sort_desc l)))
    by (apply insert_desc_In; left; reflexivity).
  rewrite H in Hin. destruct Hin.
Qed.

(** The head of the sorted list is the first of the entries with the
    greatest score. *)
Lemma sort_desc_head l :
  Forall (fun x => In (score_of x) score_values) l -> l <> [] ->
  exists l1 x l2 rest,
    l = l1 ++ x :: l2 /\ sort_desc l = x :: rest
    /\ (forall y, In y l1 -> PrimFloat.ltb (score_of y) (score_of x) = true)
    /\ (forall y, In y l2 -> PrimFloat.ltb (score_of x) (score_of y) = false).
Proof.
  induction l as [|a l IH]; [congruence|]. intros HF _.
  apply Forall_cons in HF as [Ha HF].
  destruct l as [|b l'].
  - exists [], a, [], []. cbn. repeat split; intros y [].
  - destruct (IH HF) as (l1 & x & l2 & rest & Hl & Hs & H1 & H2);
      [discriminate|].
    assert (Hx : In (score_of x) score_values).
    { rewrite List.Forall_forall in HF. apply HF. rewrite Hl.
      apply in_or_app. right. left. reflexivity. }
    assert (Hin : forall y, In y l1 \/ In y l2 -> In (score_of y) score_values).
    { intros y Hy. rewrite List.Forall_forall in HF. apply HF. rewrite Hl.
      apply in_or_app. destruct Hy; [left | right; right];
        assumption. }
    change (sort_desc (a :: b :: l')) with (insert_desc a (sort_desc (b :: l'))).
    rewrite Hs, Hl. cbn [insert_desc].
    destruct (PrimFloat.ltb (score_of a) (score_of x)) eqn:Hax.
    + exists (a :: l1), x, l2, (insert_desc a rest). repeat split; auto.
      intros y [<- | Hy]; auto.
    + exists [], a, (l1 ++ x :: l2), (x :: rest). repeat split.
      * intros y [].
      * intros y Hy. destruct (PrimFloat.ltb (score_of a) (score_of y)) eqn:Hay;
          [|reflexivity].
        apply in_app_or in Hy as [Hy | [<- | Hy]].
        -- rewrite (ltb_trans _ _ _ Ha (Hin y (or_introl Hy)) Hx Hay (H1 y Hy))
             in Hax. discriminate.
        -- congruence.
        -- destruct (ltb_negtrans _ (score_of x) _ Ha Hx
                      (Hin y (or_intror Hy)) Hay) as [H | H]; [congruence|].
           rewrite (H2 y Hy) in H. discriminate.
Qed.

End ScorerFacts.

Section ScorerTheorems.
Context {U : UnicodeData}.

Lemma calculate_confidence_many candidates text method :
  2 <= length candidates ->
  _calculate_confidence candidates text method =
  match sort_desc (score_all (py_lower text) candidates) with
  | [] => ([], 0.0%float, AllExcluded)
  | (best_code, best_score, best_prefix) :: _ =>
    (best_code, py_min best_score 0.98%float,
     if str_mem best_prefix KNOWN_CONTAINER_PREFIXES
     then BestKnown best_prefix (length candidates)
     else BestScored (length candidates) best_score)
  end.
Proof.
  destruct candidates as [|a [|b l]]; cbn [length]; try lia. reflexivity.
Qed.

Lemma calculate_confidence_one c text method :
  _calculate_confidence [c] text method =
  if is_excluded c then ([], 0.0%float, SoleExcluded c (prefix_of c))
  else if is_known c then (c, 0.98%float, SoleKnown (prefix_of c))
  else (c, 0.85%float, SoleCandidate method).
Proof. reflexivity. Qed.

Lemma score_all_cons text_lower c cands :
  score_all text_lower (c :: cands) =
  (if is_excluded c then []
   else [(c, candidate_score text_lower c, prefix_of c)])
  ++ score_all text_lower cands.
Proof. reflexivity. Qed.

Lemma score_all_excluded text_lower cands :
  (forall c, In c cands -> is_excluded c = true) ->
  score_all text_lower cands = [].
Proof.
  induction cands as [|c cands IH]; [reflexivity|]. intros H.
  rewrite score_all_cons, (H c (or_introl eq_refl)), IH; [reflexivity|].
  intros c' Hc'. apply H. right. exact Hc'.
Qed.

(** The scored list keeps the order of the candidates. *)
Lemma score_all_split text_lower cands l1 x l2 :
  score_all text_lower cands = l1 ++ x :: l2 ->
  exists a c b,
    cands = a ++ c :: b /\ score_all text_lower a = l1
    /\ score_all text_lower b = l2 /\ is_excluded c = false
    /\ x = (c, candidate_score text_lower c, prefix_of c).
Proof.
  revert l1. induction cands as [|c cands IH]; intros l1 H.
  - destruct l1; discriminate H.
  - rewrite score_all_cons in H. destruct (is_excluded c) eqn:He.
    + destruct (IH l1 H) as (a & c' & b & -> & Ha & Hb & Hc & Hx).
      exists (c :: a), c', b. rewrite score_all_cons, He.
      repeat split; assumption.
    + destruct l1 as [|e l1]; cbn [app] in H; injection H as He' Hl.
      * exists [], c, cands. repeat split; auto.
      * destruct (IH l1 Hl) as (a & c' & b & -> & Ha & Hb & Hc & Hx).
        exists (c :: a), c', b. rewrite score_all_cons, He.
        split; [reflexivity|]. split; [cbn [app]; congruence|].
        repeat split; assumption.
Qed.

Lemma score_all_values text cands :
  Forall valid cands ->
  Forall (fun x => In (score_of x) score_values)
    (score_all (py_lower text) cands).
Proof.
  intros Hv. apply List.Forall_forall. intros x Hx.
  apply score_all_In in Hx as (c & Hc & _ & ->). unfold score_of.
  cbn [fst snd]. rewrite candidate_score_formula. apply score_formula_values.
  rewrite List.Forall_forall in Hv. apply Hv. exact Hc.
Qed.

Lemma valid_nonempty c : valid c -> c <> [].
Proof.
  intros Hv ->. apply validation_match_length in Hv. cbn in Hv. lia.
Qed.

End ScorerTheorems.

Lemma excluded_fixed {U : UnicodeData} (L : UnicodeLaws U) (p : str) :
  str_mem p EXCLUDED_PREFIXES = true -> py_upper p = p.
Proof.
  unfold str_mem. rewrite existsb_exists. intros (x & Hx & Hp).
  unfold str_eqb in Hp. apply bool_decide_eq_true in Hp. subst x.
  apply py_upper_fixed.
  cbn in Hx.
  repeat destruct Hx as [<- | Hx]; try destruct Hx;
    repeat (apply List.Forall_cons;
            [first [apply upper_ascii; lia | apply upper_cyrillic_capital; lia]
            |]); try apply List.Forall_nil.
Qed.

(** C4: the scorer never selects a code whose prefix is in the table of the
    excluded prefixes, be it the first four characters as they are or
    uppercased as the scorer reads them; when every candidate has an
    excluded prefix - a sole candidate included - the result is the code ""
    with the confidence 0.0. *)
Theorem C4_excluded_prefix_never_selected {U : UnicodeData}
    (L : UnicodeLaws U) (candidates : list str) (text method : str) :
  let r := _calculate_confidence candidates text method in
  str_mem (firstn 4 (selected_code r)) EXCLUDED_PREFIXES = false
  /\ is_excluded (selected_code r) = false
  /\ (Forall (fun c => str_mem (firstn 4 c) EXCLUDED_PREFIXES = true)
        candidates ->
      selected_code r = [] /\ selected_confidence r = 0.0%float).
Proof.
  assert (Hlit : forall c, str_mem (firstn 4 c) EXCLUDED_PREFIXES = true ->
                           is_excluded c = true).
  { intros c Hc. unfold is_excluded, prefix_of.
    rewrite (excluded_fixed L _ Hc). exact Hc. }
  assert (Hsel : is_excluded
                   (selected_code (_calculate_confidence candidates text method))
                 = false).
  { destruct candidates as [|a [|b l]].
    - reflexivity.
    - rewrite calculate_confidence_one.
      destruct (is_excluded a) eqn:He; [reflexivity|].
      destruct (is_known a); exact He.
    - rewrite calculate_confidence_many by (cbn; lia).
      destruct (sort_desc _) as [|[[bc bs] bp] rest] eqn:Hs; [reflexivity|].
      assert (Hin : In (bc, bs, bp) (sort_desc (score_all (py_lower text)
                                                  (a :: b :: l))))
        by (rewrite Hs; left; reflexivity).
      apply (proj1 (sort_desc_In _ _)), score_all_In in Hin
        as (c & _ & Hc & Heq).
      injection Heq as -> _ _. exact Hc. }
  cbv zeta. split; [|split].
  - destruct (str_mem (firstn 4 _) EXCLUDED_PREFIXES) eqn:He; [|reflexivity].
    apply Hlit in He. congruence.
  - exact Hsel.
  - intros Hall.
    assert (Hall' : forall c, In c candidates -> is_excluded c = true).
    { intros c Hc. apply Hlit. rewrite List.Forall_forall in Hall.
      apply Hall. exact Hc. }
    destruct candidates as [|a [|b l]].
    + split; reflexivity.
    + rewrite calculate_confidence_one, (Hall' a (or_introl eq_refl)).
      split; reflexivity.
    + rewrite calculate_confidence_many by (cbn; lia).
      rewrite score_all_excluded by exact Hall'. split; reflexivity.
Qed.

Lemma C4_excluded_prefix_never_selected_witness :
  let r := _calculate_confidence [u "OKPO1234567"; u "OGRN7654321"]
             (u "ОКПО OKPO1234567, ОГРН OGRN7654321") (u "regex") in
  str_mem (firstn 4 (selected_code r)) EXCLUDED_PREFIXES = false
  /\ is_excluded (selected_code r) = false
  /\ (Forall (fun c => str_mem (firstn 4 c) EXCLUDED_PREFIXES = true)
        [u "OKPO1234567"; u "OGRN7654321"] ->
      selected_code r = [] /\ selected_confidence r = 0.0%float).
Proof.
  exact (C4_excluded_prefix_never_selected ucd_laws
           [u "OKPO1234567"; u "OGRN7654321"]
           (u "ОКПО OKPO1234567, ОГРН OGRN7654321") (u "regex")).
Defined.

(** C8: for every set of candidates (strings that have passed the
    validation) the result of the scorer has the confidence 0.0 when its
    code is empty, and a confidence of at most 0.98 in every case. *)
Theorem C8_scored_result_invariant {U : UnicodeData}
    (candidates : list str) (text method : str) :
  Forall valid candidates ->
  let r := _calculate_confidence candidates text method in
  (selected_code r = [] -> selected_confidence r = 0.0%float)
  /\ PrimFloat.leb (selected_confidence r) 0.98%float = true.
Proof.
  intros Hv. cbv zeta. destruct candidates as [|a [|b l]].
  - split; reflexivity.
  - apply Forall_cons in Hv as [Ha _]. apply valid_nonempty in Ha.
    rewrite calculate_confidence_one.
    destruct (is_excluded a); [split; reflexivity|].
    destruct (is_known a); (split; [intros; contradiction | reflexivity]).
  - rewrite calculate_confidence_many by (cbn; lia).
    destruct (sort_desc _) as [|[[bc bs] bp] rest] eqn:Hs;
      [split; reflexivity|].
    assert (Hin : In (bc, bs, bp) (sort_desc (score_all (py_lower text)
                                                (a :: b :: l))))
      by (rewrite Hs; left; reflexivity).
    apply (proj1 (sort_desc_In _ _)) in Hin.
    pose proof (score_all_values text _ Hv) as Hval.
    rewrite List.Forall_forall in Hval. specialize (Hval _ Hin).
    unfold score_of in Hval. cbn [fst snd] in Hval.
    apply score_all_In in Hin as (c & Hc & _ & Heq). injection Heq as -> _ _.
    rewrite List.Forall_forall in Hv. specialize (Hv _ Hc).
    apply valid_nonempty in Hv. unfold selected_code, selected_confidence.
    cbn [fst snd]. split; [intros; contradiction|].
    pose proof score_values_capped as Hcap. rewrite forallb_forall in Hcap.
    apply Hcap. exact Hval.
Qed.

Lemma C8_scored_result_invariant_witness :
  let candidates := [u "BBBB2222222"; u "MSCU3333333"] in
  let r := _calculate_confidence candidates
             (u "код BBBB2222222, container MSCU3333333") (u "regex") in
  Forall valid candidates
  /\ (selected_code r = [] -> selected_confidence r = 0.0%float)
  /\ PrimFloat.leb (selected_confidence r) 0.98%float = true.
Proof.
  assert (Hv : Forall valid [u "BBBB2222222"; u "MSCU3333333"]).
  { repeat (apply List.Forall_cons; [vm_compute; reflexivity|]).
    apply List.Forall_nil. }
  split; [exact Hv|].
  exact (C8_scored_result_invariant [u "BBBB2222222"; u "MSCU3333333"]
           (u "код BBBB2222222, container MSCU3333333") (u "regex") Hv).
Defined.

(** C6, as amended: for two or more candidates (strings that have passed
    the validation) the score of every candidate that is not excluded is
    0.30, plus 0.50 for a known prefix, plus 0.30 when some keyword of the
    table has its first occurrence in the lowercased text less than 100
    characters from the first occurrence of the lowercased candidate (and
    0.20 more when the first such keyword of the table names the cargo),
    plus 0.01 times its length; the candidate selected is the first, in
    insertion order, of those with the greatest score, and its confidence
    is that score capped at 0.98. *)
Theorem C6_scores_and_selection {U : UnicodeData}
    (candidates : list str) (text method : str) :
  2 <= length candidates ->
  Forall valid candidates ->
  let r := _calculate_confidence candidates text method in
  (forall c, candidate_score (py_lower text) c = score_formula text c)
  /\ ((forall c, In c candidates -> is_excluded c = true) ->
      r = ([], 0.0%float, AllExcluded))
  /\ ((exists c, In c candidates /\ is_excluded c = false) ->
      exists earlier best later,
        candidates = earlier ++ best :: later
        /\ is_excluded best = false
        /\ (forall c, In c earlier -> is_excluded c = false ->
            PrimFloat.ltb (score_formula text c) (score_formula text best)
            = true)
        /\ (forall c, In c later -> is_excluded c = false ->
            PrimFloat.ltb (score_formula text best) (score_formula text c)
            = false)
        /\ selected_code r = best
        /\ selected_confidence r
           = py_min (score_formula text best) 0.98%float).
Proof.
  intros Hlen Hv. cbv zeta. split; [apply candidate_score_formula|].
  rewrite calculate_confidence_many by exact Hlen. split.
  - intros Hall. rewrite score_all_excluded by exact Hall. reflexivity.
  - intros (c0 & Hc0 & He0).
    destruct (sort_desc_head (score_all (py_lower text) candidates))
      as (l1 & x & l2 & rest & Hl & Hs & H1 & H2).
    { apply score_all_values. exact Hv. }
    { intros Hnil.
      assert (Hin : In (c0, candidate_score (py_lower text) c0, prefix_of c0)
                      (score_all (py_lower text) candidates))
        by (apply score_all_In; eauto).
      rewrite Hnil in Hin. destruct Hin. }
    destruct (score_all_split _ _ _ _ _ Hl)
      as (earlier & best & later & -> & Ha & Hb & Hbest & ->).
    exists earlier, best, later. rewrite Hs.
    split; [reflexivity|]. split; [exact Hbest|].
    split; [|split].
    + intros c Hc Hce. rewrite <- !candidate_score_formula.
      apply (H1 (c, candidate_score (py_lower text) c, prefix_of c)).
      rewrite <- Ha. apply score_all_In. eauto.
    + intros c Hc Hce. rewrite <- !candidate_score_formula.
      apply (H2 (c, candidate_score (py_lower text) c, prefix_of c)).
      rewrite <- Hb. apply score_all_In. eauto.
    + rewrite <- candidate_score_formula. split; reflexivity.
Qed.

(** The witness: the second candidate has the known prefix MSCU and wins
    over the first. *)
Lemma C6_scores_and_selection_witness :
  let candidates := [u "BBBB2222222"; u "MSCU3333333"] in
  let text := u "код BBBB2222222, container MSCU3333333" in
  let r := _calculate_confidence candidates text (u "regex") in
  (2 <= length candidates /\ Forall valid candidates)
  /\ selected_code r = u "MSCU3333333"
  /\ (forall c, candidate_score (py_lower text) c = score_formula text c).
Proof.
  assert (Hv : Forall valid [u "BBBB2222222"; u "MSCU3333333"]).
  { repeat (apply List.Forall_cons; [vm_compute; reflexivity|]).
    apply List.Forall_nil. }
  assert (Hlen : 2 <= length [u "BBBB2222222"; u "MSCU3333333"])
    by (cbn; lia).
  split; [split; [exact Hlen | exact Hv]|].
  split; [vm_compute; reflexivity|].
  exact (proj1 (C6_scores_and_selection [u "BBBB2222222"; u "MSCU3333333"]
                  (u "код BBBB2222222, container MSCU3333333") (u "regex")
                  Hlen Hv)).
Defined.

(** C6 as stated fails on [far_keyword_text]: the keyword "код" appears 12
    characters after AAAA1111111 (positions 115 and 103 of the lowercased
    text), yet the score of AAAA1111111 is 0.3 + 11 * 0.01, without the
    0.30 of the keyword, because only the first occurrence of "код", at
    position 0, is looked at; the scorer selects BBBB2222222, where the
    score in the words of the specification selects AAAA1111111. *)
Lemma C6_keyword_window_counterexample :
  let text := far_keyword_text in
  let candidates := candidates (fst (regex_extract_code_direct text)) in
  candidates = [u "AAAA1111111"; u "BBBB2222222"]
  /\ is_excluded (u "AAAA1111111") = false
  /\ In 115%Z (occurrences_from 0 (py_lower text) (u "код"))
  /\ py_find (py_lower text) (py_lower (u "AAAA1111111")) = 103%Z
  /\ candidate_score (py_lower text) (u "AAAA1111111")
     = (0.3 + float_of_nat 11 * 0.01)%float
  /\ spec_score text (u "AAAA1111111")
     = (0.3 + 0.3 + float_of_nat 11 * 0.01)%float
  /\ candidate_score (py_lower text) (u "AAAA1111111")
     <> spec_score text (u "AAAA1111111")
  /\ PrimFloat.ltb (spec_score text (u "BBBB2222222"))
       (spec_score text (u "AAAA1111111")) = false
  /\ selected_code (_calculate_confidence candidates text (u "regex"))
     = u "BBBB2222222".
Proof.
  cbv zeta.
  assert (Hc : candidates (fst (regex_extract_code_direct far_keyword_text))
               = [u "AAAA1111111"; u "BBBB2222222"])
    by (vm_compute; reflexivity).
  rewrite Hc.
  split; [reflexivity|]. split; [vm_compute; reflexivity|].
  split; [vm_compute; tauto|].
  split; [vm_compute; reflexivity|].
  split; [vm_compute; reflexivity|].
  split; [vm_compute; reflexivity|].
  split.
  - intros H.
    apply (f_equal (fun x => PrimFloat.ltb x 0.5%float)) in H.
    vm_compute in H. discriminate H.
  - split; vm_compute; reflexivity.
Qed.

(** ** The secondary extractor and the policy of the orchestrator *)

Lemma find_from_occurs i0 s sub :
  find_from i0 s sub <> (-1)%Z -> (0 <= i0)%Z ->
  (i0 <= find_from i0 s sub)%Z
  /\ py_startswith (skipn (Z.to_nat (find_from i0 s sub - i0)) s) sub = true.
Proof.
  revert i0. induction s as [|x s IH]; intros i0 H Hi0.
  - cbn [find_from] in *. destruct (py_startswith [] sub) eqn:Hp;
      [|congruence].
    rewrite Z.sub_diag. split; [lia | exact Hp].
  - cbn [find_from] in *. destruct (py_startswith (x :: s) sub) eqn:Hp.
    + rewrite Z.sub_diag. split; [lia | exact Hp].
    + destruct (IH (i0 + 1)%Z H ltac:(lia)) as [H1 H2]. split; [lia|].
      replace (Z.to_nat (find_from (i0 + 1) s sub - i0))
        with (S (Z.to_nat (find_from (i0 + 1) s sub - (i0 + 1)))) by lia.
      exact H2.
Qed.

Lemma py_in_occurs sub s :
  py_in sub s = true -> occurs_at s sub (py_find s sub).
Proof.
  unfold py_in, py_find, occurs_at. intros H.
  apply negb_true_iff, Z.eqb_neq in H.
  destruct (find_from_occurs 0 s sub H ltac:(lia)) as [H1 H2].
  rewrite Z.sub_0_r in H2. split; assumption.
Qed.

(** C5: the result of the LLM extractor replaces the result of the regex
    extractor only when its confidence is strictly greater; and the LLM
    extractor returns a code only when that code occurs in the uppercased
    text, or its first four characters and the rest of it both occur there
    less than 20 characters apart; in every other case it returns the code
    "" with the confidence 0.0. *)
Theorem C5_llm_adopted_only_if_better_and_verified {U : UnicodeData}
    (text : str) (llm : str -> llm_reply) :
  let primary := fst (regex_extract_code_direct text) in
  let secondary := extract_code_with_llm text llm in
  let e := extract_from_text (Some llm) text in
  ((extracted_code e, ex_confidence e, method e)
   = (code primary, confidence primary, u "regex")
   \/ ((extracted_code e, ex_confidence e, method e)
       = (llm_code secondary, llm_confidence secondary, u "llm")
       /\ PrimFloat.ltb (confidence primary) (llm_confidence secondary)
          = true))
  /\ (llm_code secondary <> [] ->
      py_in (llm_code secondary) (py_upper text) = true
      \/ exists i j,
           occurs_at (py_upper text) (firstn 4 (llm_code secondary)) i
           /\ occurs_at (py_upper text) (skipn 4 (llm_code secondary)) j
           /\ (Z.abs (i - j) < 20)%Z)
  /\ (llm_code secondary = [] -> llm_confidence secondary = 0.0%float).
Proof.
  cbv zeta. split; [|split].
  - unfold extract_from_text.
    destruct (_ || _); [|left; reflexivity].
    destruct (PrimFloat.ltb _ _) eqn:Hlt; [right | left]; auto.
  - unfold extract_code_with_llm.
    destruct (llm (firstn 2000 text)) as [e | | c conf reason]; cbn [llm_code];
      try congruence.
    destruct (negb (is_empty (py_strip c))); [|cbn; congruence].
    destruct (negb (re_match VALIDATION_PATTERN _)); [cbn; congruence|].
    destruct (negb (found_in_text text _)) eqn:Hf; [cbn; congruence|].
    cbn [llm_code]. intros _.
    apply negb_false_iff in Hf. unfold found_in_text in Hf.
    destruct (py_in (py_upper (strip_separators (py_strip c)))
                (py_upper text)); [left; reflexivity|].
    destruct (py_in (firstn 4 _) (py_upper text)) eqn:H1; [|discriminate].
    destruct (py_in (skipn 4 _) (py_upper text)) eqn:H2; [|discriminate].
    cbn [andb] in Hf. apply Z.ltb_lt in Hf. right.
    eexists _, _. split; [apply py_in_occurs; exact H1|].
    split; [apply py_in_occurs; exact H2 | exact Hf].
  - unfold extract_code_with_llm.
    destruct (llm (firstn 2000 text)) as [e | | c conf reason];
      try reflexivity.
    destruct (negb (is_empty (py_strip c))); [|reflexivity].
    destruct (re_match VALIDATION_PATTERN _) eqn:Hm; [|reflexivity].
    cbn [negb]. destruct (negb (found_in_text text _)); [reflexivity|].
    cbn [llm_code llm_confidence]. intros Hnil.
    apply validation_match_length in Hm. rewrite Hnil in Hm. cbn in Hm. lia.
Qed.

(** ** The collision-safe renamer *)

Lemma ascii_codes_inj (l1 l2 : list ascii) :
  map N_of_ascii l1 = map N_of_ascii l2 -> l1 = l2.
Proof.
  revert l2. induction l1 as [|a l1 IH]; intros [|a2 l2] H; try discriminate H.
  - reflexivity.
  - cbn in H. injection H as Ha Hl. f_equal; [|apply IH; exact Hl].
    rewrite <- (ascii_N_embedding a), <- (ascii_N_embedding a2), Ha.
    reflexivity.
Qed.

Lemma str_of_nat_inj i j : str_of_nat i = str_of_nat j -> i = j.
Proof.
  unfold str_of_nat. intros H. apply ascii_codes_inj in H.
  apply (f_equal string_of_list_ascii) in H.
  rewrite !string_of_list_ascii_of_string in H.
  apply (inj pretty) in H. exact H.
Qed.

Lemma suffixed_inj b i j : suffixed b i = suffixed b j -> i = j.
Proof.
  unfold suffixed. intros H. apply app_inv_head in H.
  apply (app_inv_head (u "_")) in H. apply app_inv_tail in H.
  apply str_of_nat_inj. exact H.
Qed.

Lemma suffixed_not_naive b k : suffixed b k <> b ++ u ".pdf".
Proof.
  unfold suffixed. intros H. apply app_inv_head in H. discriminate H.
Qed.

Section RenameFacts.
Implicit Types (dir : gmap str N) (b path : str).

(** As many suffixed names as exist in a directory, as many files it has. *)
Lemma suffixed_names_bound dir b n :
  (forall j, 1 <= j <= n -> is_Some (dir !! suffixed b j)) -> n <= size dir.
Proof.
  intros H.
  assert (Hnd : NoDup (suffixed b <$> seq 1 n)).
  { apply NoDup_fmap_2; [intros i j; apply suffixed_inj | apply NoDup_seq]. }
  assert (Hsub : (list_to_set (suffixed b <$> seq 1 n) : gset str) ⊆ dom dir).
  { intros x Hx. apply (proj1 (elem_of_list_to_set _ _)) in Hx.
    apply (proj1 (list_elem_of_fmap _ _ _)) in Hx as (j & Hx & Hj).
    subst x.
    apply elem_of_seq in Hj. apply elem_of_dom, H. lia. }
  apply subseteq_size in Hsub.
  rewrite size_list_to_set, size_dom in Hsub by exact Hnd.
  rewrite length_fmap, length_seq in Hsub. exact Hsub.
Qed.

(** The loop stops at the first free name. *)
Lemma next_free_sound fuel dir b name c name' c' :
  next_free fuel dir b name c = Some (name', c') ->
  dir !! name' = None
  /\ ((name' = name /\ c' = c)
      \/ (is_Some (dir !! name)
          /\ exists k, c <= k /\ name' = suffixed b k /\ c' = S k
               /\ forall j, c <= j < k -> is_Some (dir !! suffixed b j))).
Proof.
  revert name c. induction fuel as [|fuel IH]; intros name c;
    cbn [next_free]; destruct (dir !! name) eqn:Hn; try discriminate.
  - intros H. inversion H; subst. split; [exact Hn | left; split; reflexivity].
  - intros H. apply IH in H as [Hfree H]. split; [exact Hfree|]. right.
    split; [eauto|].
    destruct H as [[-> ->] | (Hc & k & Hk & -> & -> & Hj)].
    + exists c. split; [lia|]. split; [reflexivity|]. split; [reflexivity|].
      intros j Hj. lia.
    + exists k. split; [lia|]. split; [reflexivity|]. split; [reflexivity|].
      intros j Hjk.
      destruct (decide (j = c)) as [-> | Hne]; [exact Hc | apply Hj; lia].
  - intros H. inversion H; subst. split; [exact Hn | left; split; reflexivity].
Qed.

(** The loop ends: a directory of [n] files has a free name among the
    first [n + 1] suffixed names. *)
Lemma next_free_total fuel dir b name c :
  1 <= c -> (c = 1 \/ name = suffixed b (c - 1)) ->
  (forall j, 1 <= j < c - 1 -> is_Some (dir !! suffixed b j)) ->
  (c = 1 -> is_Some (dir !! name)) ->
  size dir + 1 < fuel + c ->
  is_Some (next_free fuel dir b name c).
Proof.
  revert name c. induction fuel as [|fuel IH]; intros name c Hc Hname Hprev
    Hfirst Hfuel; cbn [next_free]; destruct (dir !! name) eqn:Hn; eauto.
  - exfalso. destruct Hname as [-> | ->]; [lia|].
    assert (c - 1 <= size dir); [|lia].
    apply (suffixed_names_bound dir b). intros j Hj.
    destruct (decide (j = c - 1)) as [-> | Hne]; [eauto | apply Hprev; lia].
  - apply IH; try lia.
    + right. f_equal. lia.
    + intros j Hj. destruct (decide (j = c - 1)) as [Heq | Hne].
      * destruct Hname as [-> | ->]; [lia|]. rewrite Heq. eauto.
      * apply Hprev. lia.
Qed.

(** One call with [dry_run] false on an existing file. *)
Lemma safe_rename_direct_spec dir path b f :
  dir !! path = Some f ->
  exists r dir',
    safe_rename_direct dir path b false = Some (r, dir')
    /\ (new_path r = path /\ dir' = dir
        \/ dir !! new_path r = None
           /\ dir' = <[new_path r := f]> (delete path dir))
    /\ (dir !! (b ++ u ".pdf") = None \/ b ++ u ".pdf" = path ->
        new_path r = b ++ u ".pdf")
    /\ (is_Some (dir !! (b ++ u ".pdf")) -> b ++ u ".pdf" <> path ->
        exists k, 1 <= k /\ new_path r = suffixed b k
             /\ forall j, 1 <= j < k -> is_Some (dir !! suffixed b j)).
Proof.
  intros Hp. unfold safe_rename_direct. rewrite Hp.
  destruct (bool_decide (is_Some (dir !! (b ++ u ".pdf")))) eqn:He;
    [apply bool_decide_eq_true in He | apply bool_decide_eq_false in He];
    (destruct (str_eqb (b ++ u ".pdf") path) eqn:Hq;
     [apply bool_decide_eq_true in Hq | apply bool_decide_eq_false in Hq]);
    cbn [andb negb].
  - (* the target is the file itself *)
    unfold str_eqb. rewrite (bool_decide_eq_true_2 _ Hq). cbn [negb].
    eexists _, _. split; [reflexivity|]. cbn [new_path].
    split; [left; auto|]. split; [auto|]. intros _ Hne. contradiction.
  - (* a collision *)
    destruct (next_free_total (S (size dir)) dir b (b ++ u ".pdf") 1)
      as [[name' c'] Hnf]; try lia; auto.
    rewrite Hnf. apply next_free_sound in Hnf as [Hfree Hnf].
    destruct Hnf as [[-> _] | (_ & k & Hk & -> & -> & Hj)].
    { destruct He as [? He]. exfalso.
      generalize (eq_trans (eq_sym He) Hfree). discriminate. }
    assert (Hne : suffixed b k <> path).
    { intros Heq. subst path.
      generalize (eq_trans (eq_sym Hp) Hfree). discriminate. }
    unfold str_eqb. rewrite (bool_decide_eq_false_2 _ Hne). cbn [negb].
    unfold fs_rename. rewrite Hp.
    eexists _, _. split; [reflexivity|]. cbn [new_path].
    split; [right; auto|]. split.
    + intros [Hnone | Heq]; [|contradiction].
      destruct He as [? He]. exfalso.
      generalize (eq_trans (eq_sym He) Hnone). discriminate.
    + intros _ _. exists k. auto.
  - (* the target is free, and has the name of the file: impossible *)
    subst path. exfalso. apply He. eauto.
  - (* the target is free *)
    unfold str_eqb. rewrite (bool_decide_eq_false_2 _ Hq). cbn [negb].
    unfold fs_rename. rewrite Hp.
    assert (Hnone : dir !! (b ++ u ".pdf") = None).
    { destruct (dir !! (b ++ u ".pdf")) eqn:E; [|reflexivity].
      exfalso. apply He. eauto. }
    eexists _, _. split; [reflexivity|]. cbn [new_path].
    split; [right; auto|]. split; [auto|]. intros Hs. contradiction.
Qed.

(** A file that is not renamed keeps its name, and no later call takes
    that name. *)
Lemma rename_all_keeps dir sources b rs dir' t :
  rename_all dir sources b = Some (rs, dir') ->
  NoDup sources ->
  (forall s, In s sources -> is_Some (dir !! s)) ->
  is_Some (dir !! t) -> ~ In t sources ->
  ~ In t (map new_path rs) /\ is_Some (dir' !! t).
Proof.
  revert dir rs. induction sources as [|p sources IH]; intros dir rs.
  - intros [= <- <-] _ _ Ht _. split; [intros [] | exact Ht].
  - cbn [rename_all]. intros H Hnd Hex Ht Hnot.
    apply NoDup_cons in Hnd as [Hp_notin Hnd].
    destruct (Hex p (or_introl eq_refl)) as [f Hp].
    destruct (safe_rename_direct_spec dir p b f Hp)
      as (r & dir1 & Hr & Hcase & _).
    rewrite Hr in H.
    destruct (rename_all dir1 sources b) as [[rs' dir2]|] eqn:Hrest;
      [|discriminate].
    injection H as <- <-.
    assert (Htp : t <> p) by (intros ->; apply Hnot; left; reflexivity).
    assert (Hstay : forall s, s <> p -> is_Some (dir !! s) ->
                              is_Some (dir1 !! s) /\ new_path r <> s).
    { intros s Hsp Hs. destruct Hcase as [[Hnp ->] | [Hfree ->]].
      - split; [exact Hs | congruence].
      - assert (new_path r <> s).
        { intros Heq. rewrite Heq in Hfree. rewrite Hfree in Hs.
          destruct Hs as [? Hs]. discriminate Hs. }
        split; [|assumption].
        rewrite lookup_insert_ne, lookup_delete_ne by congruence. exact Hs. }
    destruct (Hstay t Htp Ht) as [Ht1 Hnt].
    destruct (IH dir1 rs' Hrest) as [Hnin Hfin]; try assumption.
    + intros s Hs. apply Hstay; [|apply Hex; right; exact Hs].
      intros ->. apply Hp_notin, list_elem_of_In. exact Hs.
    + intros Hin. apply Hnot. right. exact Hin.
    + split; [|exact Hfin]. cbn [map]. intros [Heq | Hin]; auto.
Qed.

End RenameFacts.

Section RenameTheorems.
Implicit Types (dir : gmap str N) (b path : str).

Lemma rename_all_distinct dir sources b :
  NoDup sources ->
  (forall s, In s sources -> is_Some (dir !! s)) ->
  exists rs dir',
    rename_all dir sources b = Some (rs, dir')
    /\ length rs = length sources
    /\ NoDup (map new_path rs)
    /\ Forall (fun r => is_Some (dir' !! new_path r)) rs.
Proof.
  revert dir. induction sources as [|p sources IH]; intros dir Hnd Hex.
  - exists [], dir. repeat split; [apply NoDup_nil_2 | apply List.Forall_nil].
  - pose proof Hnd as Hnd0.
    apply NoDup_cons in Hnd as [Hp_notin Hnd].
    destruct (Hex p (or_introl eq_refl)) as [f Hp].
    destruct (safe_rename_direct_spec dir p b f Hp)
      as (r & dir1 & Hr & Hcase & _).
    assert (Hstay : forall s, In s sources -> is_Some (dir1 !! s)
                                              /\ new_path r <> s).
    { intros s Hs.
      assert (Hsp : s <> p)
        by (intros ->; apply Hp_notin, list_elem_of_In; exact Hs).
      specialize (Hex s (or_intror Hs)).
      destruct Hcase as [[Hnp ->] | [Hfree ->]].
      - split; [exact Hex | congruence].
      - assert (new_path r <> s).
        { intros Heq. rewrite Heq in Hfree. rewrite Hfree in Hex.
          destruct Hex as [? Hex]. discriminate Hex. }
        split; [|assumption].
        rewrite lookup_insert_ne, lookup_delete_ne by congruence. exact Hex. }
    destruct (IH dir1 Hnd (fun s Hs => proj1 (Hstay s Hs)))
      as (rs & dir' & Hrs & Hlen & Hdist & Hfin).
    assert (Hr1 : is_Some (dir1 !! new_path r)).
    { destruct Hcase as [[-> ->] | [_ ->]]; [eauto|].
      rewrite lookup_insert_eq. eauto. }
    destruct (rename_all_keeps dir1 sources b rs dir' (new_path r) Hrs Hnd
                (fun s Hs => proj1 (Hstay s Hs)) Hr1) as [Hnew Hkept].
    { intros Hin. apply (proj2 (Hstay _ Hin)). reflexivity. }
    exists (r :: rs), dir'. cbn [rename_all]. rewrite Hr, Hrs.
    split; [reflexivity|]. split; [cbn; lia|]. split.
    + cbn [map]. apply NoDup_cons. split; [|exact Hdist].
      rewrite list_elem_of_In. exact Hnew.
    + apply List.Forall_cons; assumption.
Qed.

Lemma rename_two_documents dir s1 s2 b :
  s1 <> s2 -> is_Some (dir !! s1) -> is_Some (dir !! s2) ->
  dir !! (b ++ u ".pdf") = None -> dir !! suffixed b 1 = None ->
  exists rs dir',
    rename_all dir [s1; s2] b = Some (rs, dir')
    /\ map new_path rs = [b ++ u ".pdf"; suffixed b 1].
Proof.
  intros Hne [f1 H1] [f2 H2] Hnaive Hone.
  destruct (safe_rename_direct_spec dir s1 b f1 H1)
    as (r1 & dir1 & Hr1 & Hcase1 & Hn1 & _).
  specialize (Hn1 (or_introl Hnaive)).
  assert (Hd1 : dir1 = <[b ++ u ".pdf" := f1]> (delete s1 dir)).
  { destruct Hcase1 as [[Heq _] | [_ ->]]; [|rewrite Hn1; reflexivity].
    exfalso. rewrite Hn1 in Heq. subst s1.
    generalize (eq_trans (eq_sym H1) Hnaive). discriminate. }
  assert (Hs2 : b ++ u ".pdf" <> s2).
  { intros Heq. subst s2.
    generalize (eq_trans (eq_sym H2) Hnaive). discriminate. }
  assert (H2' : dir1 !! s2 = Some f2).
  { rewrite Hd1, lookup_insert_ne, lookup_delete_ne by congruence. exact H2. }
  destruct (safe_rename_direct_spec dir1 s2 b f2 H2')
    as (r2 & dir2 & Hr2 & _ & _ & Hc2).
  destruct Hc2 as (k & Hk & Hnp & Hj); [|exact Hs2|].
  { rewrite Hd1, lookup_insert_eq. eauto. }
  assert (k = 1).
  { destruct (decide (k = 1)) as [|Hk1]; [assumption|]. exfalso.
    destruct (Hj 1 ltac:(lia)) as [x Hx].
    rewrite Hd1, lookup_insert_ne in Hx
      by (intros Heq; symmetry in Heq; exact (suffixed_not_naive _ _ Heq)).
    destruct (decide (s1 = suffixed b 1)) as [Heq | Hs1].
    - rewrite <- Heq, lookup_delete_eq in Hx. discriminate Hx.
    - rewrite lookup_delete_ne in Hx by exact Hs1.
      generalize (eq_trans (eq_sym Hx) Hone). discriminate. }
  subst k. exists [r1; r2], dir2. cbn [rename_all]. rewrite Hr1, Hr2.
  split; [reflexivity|]. cbn [map]. rewrite Hn1, Hnp. reflexivity.
Qed.

End RenameTheorems.

(** C2: successive calls of [safe_rename] (dry_run false) that rename
    distinct existing files of one directory to one base name all end, and
    their final paths are pairwise distinct; the final path of a call is
    the path of the file itself or a path that did not exist, and when the
    naive target exists and is another file the final path is the first
    free one among base_1, base_2, ...; so two documents renamed to a base
    that no file has yet become base.pdf and base_1.pdf. *)
Theorem C2_renames_never_collide (dir : gmap str N) (sources : list str)
    (b : str) :
  NoDup sources ->
  (forall s, In s sources -> is_Some (dir !! s)) ->
  (exists rs dir',
     rename_all dir sources b = Some (rs, dir')
     /\ length rs = length sources
     /\ NoDup (map new_path rs)
     /\ Forall (fun r => is_Some (dir' !! new_path r)) rs)
  /\ (forall d path f, d !! path = Some f ->
      exists r d',
        safe_rename_direct d path b false = Some (r, d')
        /\ (new_path r = path /\ d' = d
            \/ d !! new_path r = None
               /\ d' = <[new_path r := f]> (delete path d))
        /\ (d !! (b ++ u ".pdf") = None \/ b ++ u ".pdf" = path ->
            new_path r = b ++ u ".pdf")
        /\ (is_Some (d !! (b ++ u ".pdf")) -> b ++ u ".pdf" <> path ->
            exists k, 1 <= k /\ new_path r = suffixed b k
                 /\ forall j, 1 <= j < k -> is_Some (d !! suffixed b j)))
  /\ (forall s1 s2, sources = [s1; s2] ->
      dir !! (b ++ u ".pdf") = None -> dir !! suffixed b 1 = None ->
      exists rs dir',
        rename_all dir sources b = Some (rs, dir')
        /\ map new_path rs = [b ++ u ".pdf"; suffixed b 1]).
Proof.
  intros Hnd Hex. split; [apply rename_all_distinct; assumption|].
  split; [intros d path f; apply safe_rename_direct_spec|].
  intros s1 s2 -> Hnaive Hone.
  apply rename_two_documents; auto.
  - apply NoDup_cons in Hnd as [Hnot _]. intros ->. apply Hnot. left.
  - apply Hex. left. reflexivity.
  - apply Hex. right. left. reflexivity.
Qed.

Lemma C2_renames_never_collide_witness :
  (NoDup [u "doc1.pdf"; u "duplicate.pdf"]
   /\ forall s, In s [u "doc1.pdf"; u "duplicate.pdf"] ->
                is_Some (two_documents !! s))
  /\ exists rs dir',
       rename_all two_documents [u "doc1.pdf"; u "duplicate.pdf"]
         (u "ABCD1234567") = Some (rs, dir')
       /\ map new_path rs = [u "ABCD1234567.pdf"; u "ABCD1234567_1.pdf"].
Proof.
  assert (Hnd : NoDup [u "doc1.pdf"; u "duplicate.pdf"]).
  { apply NoDup_cons. split; [|apply NoDup_singleton].
    rewrite list_elem_of_In. intros [H | []]. vm_compute in H.
    discriminate H. }
  assert (Hex : forall s, In s [u "doc1.pdf"; u "duplicate.pdf"] ->
                          is_Some (two_documents !! s)).
  { intros s [<- | [<- | []]]; vm_compute; eauto. }
  split; [split; assumption|].
  exact (proj2 (proj2 (C2_renames_never_collide two_documents
                         [u "doc1.pdf"; u "duplicate.pdf"] (u "ABCD1234567")
                         Hnd Hex))
           (u "doc1.pdf") (u "duplicate.pdf") eq_refl eq_refl eq_refl).
Defined.

(** * Further properties of the code *)

(** ** The matcher of regular expressions: groups are pieces of the text *)

Lemma substring_skip g s a : substring g s -> substring g (a ++ s).
Proof.
  intros (x & y & ->). exists (a ++ x), y. rewrite <- app_assoc. reflexivity.
Qed.

Lemma substring_nil s : substring [] s.
Proof. exists [], s. reflexivity. Qed.

Section MatcherSound.
Context {U : UnicodeData}.
Variable icase : bool.

Lemma reached_refl st : reached st st.
Proof.
  split; [exists []; reflexivity|]. exists []. rewrite app_nil_r.
  split; [reflexivity | apply List.Forall_nil].
Qed.

Lemma reached_trans st1 st2 st3 :
  reached st1 st2 -> reached st2 st3 -> reached st1 st3.
Proof.
  intros [[c1 H1] (n1 & Hc1 & Hf1)] [[c2 H2] (n2 & Hc2 & Hf2)]. split.
  - exists (c1 ++ c2). rewrite H1, H2, app_assoc. reflexivity.
  - exists (n1 ++ n2). rewrite Hc2, Hc1, app_assoc. split; [reflexivity|].
    apply Forall_app. split; [exact Hf1|].
    eapply List.Forall_impl; [|exact Hf2]. intros g Hg. rewrite H1.
    apply substring_skip. exact Hg.
Qed.

Lemma reached_step1 st t s' :
  Re.rest st = t :: s' ->
  reached st (Re.MState (Some t) s' (Re.caps st)).
Proof.
  intros H. split; [exists [t]; exact H|]. exists []. cbn.
  rewrite app_nil_r. split; [reflexivity | apply List.Forall_nil].
Qed.

Lemma step1_sound p st k res :
  Re.step1 p st k = Some res ->
  exists st', reached st st' /\ k st' = Some res.
Proof.
  unfold Re.step1. destruct (Re.rest st) as [|t s'] eqn:Hr; [discriminate|].
  destruct (p t); [|discriminate]. intros H.
  eexists. split; [apply reached_step1; exact Hr | exact H].
Qed.

(** Whatever the matcher passes to its continuation is reached from the
    position it started at. *)
Lemma m_sound r :
  forall st k res,
    Re.m icase r st k = Some res ->
    exists st', reached st st' /\ k st' = Some res.
Proof.
  induction r as [| c | items | r1 IH1 r2 IH2 | r1 IH1 r2 IH2 | r1 IH1
                  | r1 IH1 | n r1 IH1 | r1 IH1 | | |];
    intros st k res H; cbn [Re.m] in H.
  - exists st. split; [apply reached_refl | exact H].
  - apply step1_sound in H. exact H.
  - apply step1_sound in H. exact H.
  - apply IH1 in H as (st1 & H1 & H). apply IH2 in H as (st2 & H2 & H).
    exists st2. split; [eapply reached_trans; eassumption | exact H].
  - unfold Re.or_else in H.
    destruct (Re.m icase r1 st k) eqn:E1.
    + injection H as <-. apply IH1 in E1. exact E1.
    + apply IH2 in H. exact H.
  - unfold Re.or_else in H.
    destruct (Re.m icase r1 st k) eqn:E1.
    + injection H as <-. apply IH1 in E1. exact E1.
    + exists st. split; [apply reached_refl | exact H].
  - remember (length (Re.rest st)) as fuel eqn:Hfuel in H. clear Hfuel.
    revert st H. induction fuel as [|fuel IHf]; intros st H.
    + exists st. split; [apply reached_refl | exact H].
    + unfold Re.or_else in H.
      match type of H with
      | match ?x with _ => _ end = _ => destruct x eqn:E1
      end.
      * injection H as <-. apply IH1 in E1 as (st1 & H1 & E1).
        destruct (_ <? _)%nat; [|discriminate].
        apply IHf in E1 as (st2 & H2 & E1).
        exists st2. split; [eapply reached_trans; eassumption | exact E1].
      * exists st. split; [apply reached_refl | exact H].
  - revert st H. induction n as [|n IHn]; intros st H.
    + exists st. split; [apply reached_refl | exact H].
    + apply IH1 in H as (st1 & H1 & H). apply IHn in H as (st2 & H2 & H).
      exists st2. split; [eapply reached_trans; eassumption | exact H].
  - apply IH1 in H as (st1 & H1 & H). eexists. split; [|exact H].
    destruct H1 as [[c Hc] (new & Hn & Hf)]. split; cbn [Re.rest Re.caps].
    + exists c. exact Hc.
    + exists (new ++ [firstn (length (Re.rest st) - length (Re.rest st1))
                        (Re.rest st)]).
      rewrite Hn, app_assoc. split; [reflexivity|].
      apply Forall_app. split; [exact Hf|].
      apply List.Forall_cons; [|apply List.Forall_nil].
      exists [], (Re.rest st1). cbn [app]. rewrite Hc at 2 3.
      rewrite length_app, Nat.add_sub.
      rewrite firstn_app, firstn_all, Nat.sub_diag. cbn [firstn].
      rewrite app_nil_r. exact Hc.
  - destruct (xorb _ _); [|discriminate].
    exists st. split; [apply reached_refl | exact H].
  - destruct (Re.prev st); [discriminate|].
    exists st. split; [apply reached_refl | exact H].
  - exists st. split; [apply reached_refl|].
    destruct (Re.rest st) as [|c [|? ?]]; try discriminate; [exact H|].
    destruct (c =? 10)%N; [exact H | discriminate].
Qed.

Lemma match_at_sound r p s gs n :
  Re.match_at icase r p s = Some (gs, n) ->
  Forall (fun g => substring g s) gs /\ n <= length s.
Proof.
  unfold Re.match_at.
  destruct (Re.m icase r (Re.MState p s []) Some) as [st|] eqn:E;
    [|discriminate].
  intros H. injection H as <- <-.
  apply m_sound in E as (st' & [_ (new & Hn & Hf)] & E).
  injection E as ->. cbn in Hn, Hf. rewrite Hn. split; [exact Hf | lia].
Qed.

Lemma scan_sound r s :
  forall p skip gs,
    In gs (Re.scan icase r p s skip) -> Forall (fun g => substring g s) gs.
Proof.
  induction s as [|c s IH]; intros p skip gs H; cbn [Re.scan] in H.
  - destruct skip; [|destruct H].
    destruct (Re.match_at icase r p []) as [[gs' n]|] eqn:E; [|destruct H].
    destruct H as [<- | []]. apply match_at_sound in E as [E _]. exact E.
  - assert (Hlift : forall x, Forall (fun g => substring g s) x ->
                              Forall (fun g => substring g (c :: s)) x).
    { intros x Hx. eapply List.Forall_impl; [|exact Hx]. intros g Hg.
      apply (substring_skip g s [c]). exact Hg. }
    destruct skip as [|skip]; [|apply Hlift, (IH _ _ _ H)].
    destruct (Re.match_at icase r p (c :: s)) as [[gs' n]|] eqn:E.
    + destruct H as [<- | H]; [|apply Hlift, (IH _ _ _ H)].
      apply match_at_sound in E as [E _]. exact E.
    + apply Hlift, (IH _ _ _ H).
Qed.

(** Every group that [findall] returns is a piece of the text. *)
Lemma findall_sound r s gs :
  In gs (Re.findall icase r s) -> Forall (fun g => substring g s) gs.
Proof. apply scan_sound. Qed.

End MatcherSound.

(** ** The candidates of the pattern matcher *)

Lemma str_mem_In x xs : str_mem x xs = true <-> In x xs.
Proof.
  unfold str_mem, str_eqb. rewrite existsb_exists. split.
  - intros (y & Hy & Heq). apply bool_decide_eq_true in Heq. subst y.
    exact Hy.
  - intros H. exists x. split; [exact H | apply bool_decide_eq_true_2].
    reflexivity.
Qed.

Lemma dict_fromkeys_fold l :
  forall keys,
    NoDup keys ->
    NoDup (fold_left
             (fun keys x => if str_mem x keys then keys else keys ++ [x])
             l keys)
    /\ forall c,
         In c (fold_left
                 (fun keys x => if str_mem x keys then keys else keys ++ [x])
                 l keys)
         <-> In c keys \/ In c l.
Proof.
  induction l as [|x l IH]; intros keys Hnd; cbn [fold_left].
  - split; [exact Hnd|]. intros c. cbn. tauto.
  - destruct (str_mem x keys) eqn:Hm.
    + destruct (IH keys Hnd) as [H1 H2]. split; [exact H1|].
      intros c. rewrite H2. apply str_mem_In in Hm. cbn. intuition congruence.
    + assert (Hnd' : NoDup (keys ++ [x])).
      { apply NoDup_app. split; [exact Hnd|]. split; [|apply NoDup_singleton].
        intros y Hy Hx. apply list_elem_of_In in Hx as [<- | []].
        apply list_elem_of_In, str_mem_In in Hy. congruence. }
      destruct (IH _ Hnd') as [H1 H2]. split; [exact H1|].
      intros c. rewrite H2, in_app_iff. cbn. tauto.
Qed.

Lemma dict_fromkeys_NoDup l : NoDup (dict_fromkeys l).
Proof. apply dict_fromkeys_fold, NoDup_nil_2. Qed.

Lemma dict_fromkeys_In l c : In c (dict_fromkeys l) <-> In c l.
Proof.
  unfold dict_fromkeys. rewrite (proj2 (dict_fromkeys_fold l [] (NoDup_nil_2))).
  cbn. tauto.
Qed.

Section CandidateFacts.
Context {U : UnicodeData}.

Lemma validated_In raws c :
  In c (validated raws) <->
  exists raw, In raw raws /\ c = normalize_raw raw /\ valid c.
Proof.
  unfold validated, valid. rewrite in_flat_map. split.
  - intros (raw & Hraw & Hc). exists raw.
    destruct (re_match VALIDATION_PATTERN (normalize_raw raw)) eqn:Hm;
      [|destruct Hc].
    destruct Hc as [<- | []]. auto.
  - intros (raw & Hraw & -> & Hv). exists raw. split; [exact Hraw|].
    rewrite Hv. left. reflexivity.
Qed.

Lemma nth_substring gs s i :
  Forall (fun g => substring g s) gs -> substring (nth i gs []) s.
Proof.
  intros H. destruct (Nat.lt_ge_cases i (length gs)) as [Hi | Hi].
  - rewrite List.Forall_forall in H. apply H, nth_In. exact Hi.
  - rewrite nth_overflow by exact Hi. apply substring_nil.
Qed.

Lemma candidates_valid text :
  Forall valid (candidates (fst (regex_extract_code_direct text))).
Proof.
  apply List.Forall_forall. intros c Hc. destruct (gated text) eqn:Hg.
  - unfold regex_extract_code_direct in Hc. fold (gated text) in Hc.
    rewrite Hg in Hc. destruct Hc.
  - rewrite regex_extract_code_direct_candidates in Hc by exact Hg.
    apply (proj1 (dict_fromkeys_In _ _)) in Hc.
    destruct (is_empty (priority_candidates text));
      apply (proj1 (validated_In _ _)) in Hc as (raw & _ & _ & Hv); exact Hv.
Qed.

(** The matcher fabricates nothing: its candidates are distinct, each has
    passed the validation, and each is the normalization of one piece of
    the text (priority pass) or of two pieces of it, the letters and the
    digits (fallback pass). *)
Theorem matcher_candidates_traceable (text : str) :
  let cs := candidates (fst (regex_extract_code_direct text)) in
  NoDup cs
  /\ forall c, In c cs ->
       valid c
       /\ exists raw1 raw2,
            c = normalize_raw (raw1 ++ raw2)
            /\ substring raw1 text /\ substring raw2 text.
Proof.
  cbv zeta. destruct (gated text) eqn:Hg.
  - unfold regex_extract_code_direct. fold (gated text). rewrite Hg. cbn.
    split; [apply NoDup_nil_2 | intros c []].
  - rewrite regex_extract_code_direct_candidates by exact Hg.
    split; [apply dict_fromkeys_NoDup|]. intros c Hc.
    apply (proj1 (dict_fromkeys_In _ _)) in Hc.
    destruct (is_empty (priority_candidates text)).
    + apply (proj1 (validated_In _ _)) in Hc as (raw & Hraw & -> & Hv).
      split; [exact Hv|].
      apply in_map_iff in Hraw as (gs & <- & Hgs).
      apply findall_sound in Hgs.
      exists (nth 0 gs []), (nth 1 gs []).
      split; [reflexivity|]. split; apply nth_substring; exact Hgs.
    + apply (proj1 (validated_In _ _)) in Hc as (raw & Hraw & -> & Hv).
      split; [exact Hv|].
      apply in_map_iff in Hraw as (gs & <- & Hgs).
      apply findall_sound in Hgs.
      exists (nth 0 gs []), []. rewrite app_nil_r.
      split; [reflexivity|]. split; [|apply substring_nil].
      apply nth_substring. exact Hgs.
Qed.

(** What the scorer selects from any list: nothing, with the confidence
    0.0, or one of the candidates that is not excluded. *)
Lemma calculate_confidence_selected cands text method :
  let r := _calculate_confidence cands text method in
  (selected_code r = [] /\ selected_confidence r = 0.0%float)
  \/ (In (selected_code r) cands /\ is_excluded (selected_code r) = false).
Proof.
  cbv zeta. destruct cands as [|a [|b l]].
  - left. split; reflexivity.
  - rewrite calculate_confidence_one. destruct (is_excluded a) eqn:He;
      [left; split; reflexivity|].
    right. destruct (is_known a); (split; [left; reflexivity | exact He]).
  - rewrite calculate_confidence_many by (cbn; lia).
    destruct (sort_desc _) as [|[[bc bs] bp] rest] eqn:Hs;
      [left; split; reflexivity|].
    assert (Hin : In (bc, bs, bp) (sort_desc (score_all (py_lower text)
                                                (a :: b :: l))))
      by (rewrite Hs; left; reflexivity).
    apply (proj1 (sort_desc_In _ _)), score_all_In in Hin
      as (c & Hc & He & Heq).
    injection Heq as -> _ _. right. split; assumption.
Qed.

Lemma calculate_confidence_capped cands text method :
  Forall valid cands ->
  PrimFloat.leb
    (selected_confidence (_calculate_confidence cands text method))
    0.98%float = true.
Proof.
  intros Hv. destruct cands as [|a [|b l]].
  - reflexivity.
  - rewrite calculate_confidence_one.
    destruct (is_excluded a); [reflexivity|].
    destruct (is_known a); reflexivity.
  - rewrite calculate_confidence_many by (cbn; lia).
    destruct (sort_desc _) as [|[[bc bs] bp] rest] eqn:Hs; [reflexivity|].
    assert (Hin : In (bc, bs, bp) (sort_desc (score_all (py_lower text)
                                                (a :: b :: l))))
      by (rewrite Hs; left; reflexivity).
    apply (proj1 (sort_desc_In _ _)) in Hin.
    pose proof (score_all_values text _ Hv) as Hval.
    rewrite List.Forall_forall in Hval. specialize (Hval _ Hin).
    unfold score_of in Hval. cbn [fst snd] in Hval.
    unfold selected_confidence. cbn [fst snd].
    pose proof score_values_capped as Hcap. rewrite forallb_forall in Hcap.
    apply Hcap. exact Hval.
Qed.

Lemma regex_extract_code_direct_result text :
  gated text = false ->
  let r := fst (regex_extract_code_direct text) in
  code r = selected_code (_calculate_confidence (candidates r) text (u "regex"))
  /\ confidence r
     = selected_confidence
         (_calculate_confidence (candidates r) text (u "regex")).
Proof.
  intros Hg. cbv zeta.
  rewrite regex_extract_code_direct_candidates by exact Hg.
  unfold regex_extract_code_direct. fold (gated text). rewrite Hg.
  unfold bind, run_pass, ret. cbn [fst snd pass_pattern].
  fold (priority_candidates text). fold (fallback_candidates text).
  destruct (is_empty (priority_candidates text)); cbn [fst snd];
    destruct (_calculate_confidence _ _ _) as [[? ?] ?]; split; reflexivity.
Qed.

Lemma regex_extract_code_direct_code text :
  let r := fst (regex_extract_code_direct text) in
  (code r = [] /\ confidence r = 0.0%float)
  \/ (In (code r) (candidates r) /\ valid (code r)
      /\ is_excluded (code r) = false).
Proof.
  cbv zeta. destruct (gated text) eqn:Hg.
  - unfold regex_extract_code_direct. fold (gated text). rewrite Hg. cbn.
    left; split; reflexivity.
  - destruct (regex_extract_code_direct_result text Hg) as [-> ->].
    destruct (calculate_confidence_selected
                (candidates (fst (regex_extract_code_direct text))) text
                (u "regex")) as [H | [Hin He]]; [left; exact H|].
    right. split; [exact Hin|]. split; [|exact He].
    pose proof (candidates_valid text) as Hv.
    rewrite List.Forall_forall in Hv. apply Hv. exact Hin.
Qed.

(** For every text, the pattern matcher and the scorer return no code
    with the confidence 0.0, or a code that is one of the candidates, has
    passed the validation and has no excluded prefix; the confidence is at
    most 0.98. *)
Theorem extraction_result_invariant (text : str) :
  let r := fst (regex_extract_code_direct text) in
  ((code r = [] /\ confidence r = 0.0%float)
   \/ (In (code r) (candidates r) /\ valid (code r)
       /\ is_excluded (code r) = false))
  /\ PrimFloat.leb (confidence r) 0.98%float = true.
Proof.
  cbv zeta. destruct (gated text) eqn:Hg.
  - unfold regex_extract_code_direct. fold (gated text). rewrite Hg. cbn.
    split; [left; split; reflexivity | reflexivity].
  - split; [apply regex_extract_code_direct_code|].
    destruct (regex_extract_code_direct_result text Hg) as [_ ->].
    apply calculate_confidence_capped, candidates_valid.
Qed.

End CandidateFacts.

(** ** The order of binary64 numbers *)

Lemma SFcompare_antisym a b c :
  SFcompare a b = Some c -> SFcompare b a = Some (CompOpp c).
Proof.
  destruct a as [sa | sa | | sa ma ea], b as [sb | sb | | sb mb eb];
    cbn; try discriminate; intros H; injection H as <-;
    try (destruct sa; reflexivity); try (destruct sb; reflexivity);
    try (destruct sa, sb; reflexivity).
  destruct sa, sb; cbn; try reflexivity;
    rewrite (Z.compare_antisym ea eb); destruct (ea ?= eb)%Z; cbn;
    try reflexivity;
    rewrite (Pos.compare_cont_antisym ma mb Eq); reflexivity.
Qed.

Lemma SFcompare_defined a b :
  a <> S754_nan -> b <> S754_nan -> exists c, SFcompare a b = Some c.
Proof.
  destruct a, b; cbn; try congruence; eauto.
Qed.

(** [min(x, b)] is at most [b] when it is a number: here it is greater
    than some [c], and [b] is not a NaN. *)
Lemma py_min_le_bound x b c :
  PrimFloat.leb b b = true -> PrimFloat.ltb c (py_min x b) = true ->
  PrimFloat.leb (py_min x b) b = true.
Proof.
  unfold py_min. intros Hb Hx. destruct (PrimFloat.ltb b x) eqn:E;
    [exact Hb|].
  rewrite ltb_spec in Hx, E. rewrite leb_spec in Hb |- *.
  unfold SFltb, SFleb in *.
  assert (Hxn : Prim2SF x <> S754_nan).
  { intros Hn. rewrite Hn in Hx. destruct (Prim2SF c); discriminate Hx. }
  assert (Hbn : Prim2SF b <> S754_nan).
  { intros Hn. rewrite Hn in Hb. discriminate Hb. }
  destruct (SFcompare_defined _ _ Hbn Hxn) as [r Hr].
  rewrite Hr in E. rewrite (SFcompare_antisym _ _ _ Hr).
  destruct r; [reflexivity | discriminate E | reflexivity].
Qed.

(** ** The normalizer, exactly *)

(** [normalize] returns a code exactly when the stripped and uppercased
    input is 4 letters and 7 digits, possibly followed by one newline; the
    code is that string, and any other input gives a message that starts
    with "ERROR". *)
Theorem normalize_code_direct_exact {U : UnicodeData} (L : UnicodeLaws U)
    (raw : str) :
  (succeeds (normalize_code_direct raw) = true <->
   exists s', shape_4L7D s' = true
              /\ (normalize_raw raw = s'
                  \/ normalize_raw raw = s' ++ [0x0A%N]))
  /\ (succeeds (normalize_code_direct raw) = true ->
      normalize_code_direct raw = normalize_raw raw)
  /\ (succeeds (normalize_code_direct raw) = false ->
      py_startswith (normalize_code_direct raw) (u "ERROR") = true).
Proof.
  split; [|split].
  - destruct (normalize_code_direct_cases raw) as [(Hm & _ & Hs) | (Hm & Hs)];
      rewrite Hs; split.
    + intros _. apply validation_match_inv. exact Hm.
    + reflexivity.
    + discriminate.
    + intros (s' & Hs' & [Heq | Heq]); rewrite Heq in Hm.
      * rewrite validation_match_shape in Hm by exact Hs'. discriminate Hm.
      * rewrite validation_match_newline in Hm by exact Hs'. discriminate Hm.
  - destruct (normalize_code_direct_cases raw) as [(_ & Hn & _) | (_ & Hs)];
      [intros _; exact Hn | congruence].
  - unfold succeeds. intros H. apply negb_false_iff in H. exact H.
Qed.

Lemma normalize_code_direct_exact_witness :
  let raw := u "abcd-1234567" in
  succeeds (normalize_code_direct raw) = true
  /\ normalize_code_direct raw = u "ABCD1234567"
  /\ exists s', shape_4L7D s' = true
                /\ (normalize_raw raw = s'
                    \/ normalize_raw raw = s' ++ [0x0A%N]).
Proof.
  split; [reflexivity|]. split; [reflexivity|].
  apply (proj1 (proj1 (normalize_code_direct_exact ucd_laws
                         (u "abcd-1234567")))).
  reflexivity.
Defined.

Section ComposeFacts.
Context {U : UnicodeData} {L : UnicodeLaws U}.

(** A string that has passed the validation is returned as it is. *)
Lemma normalize_valid c : valid c -> normalize_code_direct c = c.
Proof.
  intros Hv. unfold normalize_code_direct.
  destruct c as [|x c]; [apply valid_nonempty in Hv; congruence|].
  cbn [is_empty]. rewrite (validated_fixed _ Hv).
  unfold valid in Hv. rewrite Hv. reflexivity.
Qed.

End ComposeFacts.

Section AgentFacts.
Context {U : UnicodeData}.

(** The LLM extractor returns no code, or a code that has passed the
    validation and the test against the text. *)
Lemma extract_code_with_llm_cases text llm :
  let r := extract_code_with_llm text llm in
  (llm_code r = [] /\ llm_confidence r = 0.0%float)
  \/ (valid (llm_code r) /\ found_in_text text (llm_code r) = true
      /\ exists confidence,
           llm_confidence r = py_min confidence 0.95%float).
Proof.
  cbv zeta. unfold extract_code_with_llm.
  destruct (llm (firstn 2000 text)) as [e | | c conf reason];
    try (left; split; reflexivity).
  destruct (negb (is_empty (py_strip c))); [|left; split; reflexivity].
  destruct (re_match VALIDATION_PATTERN _) eqn:Hm;
    [|left; split; reflexivity].
  cbn [negb]. destruct (found_in_text text _) eqn:Hf;
    [|left; split; reflexivity].
  right. cbn. split; [exact Hm|]. split; [exact Hf|]. eauto.
Qed.

End AgentFacts.

(** ** The renamer: dry runs, notes and what is left untouched *)

Section RenameMore.
Implicit Types (dir : gmap str N) (b path : str).

Lemma u_pdf : u ".pdf" = [0x2E; 0x70; 0x64; 0x66]%N.
Proof. reflexivity. Qed.

Lemma safe_rename_direct_plan dir path b dry_run f :
  dir !! path = Some f ->
  safe_rename_direct dir path b dry_run =
  match rename_plan dir path b with
  | None => None
  | Some (new_path, note) =>
    if negb dry_run
    then Some (RenameResult new_path note,
               if negb (str_eqb new_path path)
               then fs_rename dir path new_path else dir)
    else Some (RenameResult new_path (u "DRY RUN: " ++ note), dir)
  end.
Proof.
  intros Hp. unfold safe_rename_direct, rename_plan. rewrite Hp. reflexivity.
Qed.

(** The plan exists: the target is the naive name with the plain note, or
    the first free suffixed name with the note that names its suffix. *)
Lemma rename_plan_spec dir path b :
  is_Some (dir !! path) ->
  exists new_path note,
    rename_plan dir path b = Some (new_path, note)
    /\ (new_path = path \/ dir !! new_path = None)
    /\ ((new_path = b ++ u ".pdf" /\ note = u "переименовано успешно")
        \/ exists k,
             1 <= k /\ new_path = suffixed b k
             /\ note = u "коллизия имени, добавлен суффикс _" ++ str_of_nat k
             /\ is_Some (dir !! (b ++ u ".pdf"))
             /\ forall j, 1 <= j < k -> is_Some (dir !! suffixed b j)).
Proof.
  intros Hp. unfold rename_plan.
  destruct (bool_decide (is_Some (dir !! (b ++ u ".pdf")))) eqn:He;
    [apply bool_decide_eq_true in He | apply bool_decide_eq_false in He];
    (destruct (str_eqb (b ++ u ".pdf") path) eqn:Hq;
     [apply bool_decide_eq_true in Hq | apply bool_decide_eq_false in Hq]);
    cbn [andb negb].
  - eexists _, _. split; [reflexivity|]. split; [left; exact Hq|].
    left. split; reflexivity.
  - destruct (next_free_total (S (size dir)) dir b (b ++ u ".pdf") 1)
      as [[name' c'] Hnf]; try lia; auto.
    rewrite Hnf. apply next_free_sound in Hnf as [Hfree Hnf].
    destruct Hnf as [[-> _] | (_ & k & Hk & -> & -> & Hj)].
    { destruct He as [? He]. exfalso.
      generalize (eq_trans (eq_sym He) Hfree). discriminate. }
    eexists _, _. split; [reflexivity|]. split; [right; exact Hfree|].
    right. exists k. replace (S k - 1) with k by lia. auto.
  - eexists _, _. split; [reflexivity|]. split; [left; exact Hq|].
    left. split; reflexivity.
  - eexists _, _. split; [reflexivity|]. split.
    + right. destruct (dir !! (b ++ u ".pdf")) eqn:E; [|exact E].
      exfalso. apply He. eauto.
    + left. split; reflexivity.
Qed.

Lemma fs_rename_files dir path new_path f :
  dir !! path = Some f -> dir !! new_path = None ->
  size (fs_rename dir path new_path) = size dir
  /\ (forall g, has_file (fs_rename dir path new_path) g <-> has_file dir g)
  /\ (forall n, n <> path -> n <> new_path ->
                fs_rename dir path new_path !! n = dir !! n)
  /\ fs_rename dir path new_path !! new_path = Some f
  /\ fs_rename dir path new_path !! path = None.
Proof.
  intros Hp Hfree. unfold fs_rename. rewrite Hp.
  assert (Hne : new_path <> path) by congruence.
  split; [|split; [|split; [|split]]].
  - rewrite map_size_insert_None
      by (rewrite lookup_delete_ne by congruence; exact Hfree).
    pose proof (map_size_delete_Some path dir (ex_intro _ f Hp)) as Hd.
    assert (size dir <> 0); [|lia].
    intros Hz. apply map_size_empty_inv in Hz. subst dir.
    rewrite lookup_empty in Hp. discriminate Hp.
  - intros g. unfold has_file. split.
    + intros [n Hn]. destruct (decide (new_path = n)) as [<- | Hnn].
      * rewrite lookup_insert_eq in Hn. injection Hn as <-. eauto.
      * rewrite lookup_insert_ne in Hn by exact Hnn.
        destruct (decide (path = n)) as [<- | Hpn].
        -- rewrite lookup_delete_eq in Hn. discriminate Hn.
        -- rewrite lookup_delete_ne in Hn by exact Hpn. eauto.
    + intros [n Hn]. destruct (decide (path = n)) as [<- | Hpn].
      * exists new_path. rewrite lookup_insert_eq. congruence.
      * exists n. rewrite lookup_insert_ne, lookup_delete_ne; try assumption.
        intros <-. congruence.
  - intros n H1 H2. rewrite lookup_insert_ne, lookup_delete_ne; congruence.
  - apply lookup_insert_eq.
  - rewrite lookup_insert_ne, lookup_delete_eq; congruence.
Qed.

End RenameMore.

Section RenameTotal.
Implicit Types (dir : gmap str N) (b path : str).

(** Every call returns: an error for a missing file, or the planned
    target, renamed to unless the run is dry or the target is the file
    itself. *)
Lemma safe_rename_direct_any dir path b dry_run :
  exists r dir',
    safe_rename_direct dir path b dry_run = Some (r, dir')
    /\ ((dir !! path = None
         /\ r = RenameResult [] (u "ERROR: файл не найден: " ++ path)
         /\ dir' = dir)
        \/ exists f np nt,
             dir !! path = Some f
             /\ rename_plan dir path b = Some (np, nt)
             /\ (np = path \/ dir !! np = None)
             /\ r = RenameResult np
                      (if dry_run then u "DRY RUN: " ++ nt else nt)
             /\ dir' = if dry_run then dir
                       else if decide (np = path) then dir
                       else fs_rename dir path np).
Proof.
  destruct (dir !! path) as [f|] eqn:Hp.
  - destruct (rename_plan_spec dir path b (ex_intro _ f Hp))
      as (np & nt & Hplan & Hfree & _).
    rewrite (safe_rename_direct_plan dir path b dry_run f Hp), Hplan.
    destruct dry_run; cbn [negb].
    + eexists _, _. split; [reflexivity|]. right. exists f, np, nt.
      repeat split; auto.
    + eexists _, _. split; [reflexivity|]. right. exists f, np, nt.
      repeat split; auto. unfold str_eqb.
      destruct (decide (np = path)) as [Heq | Hne].
      * rewrite (bool_decide_eq_true_2 _ Heq). reflexivity.
      * rewrite (bool_decide_eq_false_2 _ Hne). reflexivity.
  - unfold safe_rename_direct. rewrite Hp. eexists _, _.
    split; [reflexivity|]. left. auto.
Qed.

End RenameTotal.

(** [safe_rename] never loses or overwrites a file: whatever the path, the
    base name and the mode, the call returns, the directory keeps its
    number of files and the same files, every name other than the source
    and the target keeps its file, and the file renamed is found under the
    target. *)
Theorem safe_rename_preserves_files (dir : gmap str N) (path b : str)
    (dry_run : bool) :
  exists r dir',
    safe_rename_direct dir path b dry_run = Some (r, dir')
    /\ size dir' = size dir
    /\ (forall g, has_file dir' g <-> has_file dir g)
    /\ (forall n, n <> path -> n <> new_path r -> dir' !! n = dir !! n)
    /\ (dry_run = false -> forall f, dir !! path = Some f ->
        dir' !! new_path r = Some f).
Proof.
  destruct (safe_rename_direct_any dir path b dry_run)
    as (r & dir' & Hr & [(Hp & -> & ->) | (f & np & nt & Hp & _ & Hfree
                                             & -> & ->)]).
  - eexists _, dir. split; [exact Hr|]. repeat split; auto.
    intros _ f Hf. congruence.
  - eexists _, _. split; [exact Hr|]. cbn [new_path].
    destruct dry_run.
    + repeat split; auto; discriminate.
    + destruct (decide (np = path)) as [-> | Hne].
      * repeat split; auto; intros _ g Hg; exact Hg.
      * destruct Hfree as [|Hfree]; [contradiction|].
        destruct (fs_rename_files dir path np f Hp Hfree)
          as (H1 & H2 & H3 & H4 & _).
        split; [exact H1|]. split; [exact H2|]. split; [auto|].
        intros _ g Hg. congruence.
Qed.

(** A dry run computes the target of the real run and leaves the
    directory as it is; its note is the note of the real run after
    "DRY RUN: ", except for a missing file, whose error is returned as it
    is. *)
Theorem safe_rename_dry_run_same_target (dir : gmap str N) (path b : str) :
  exists r dir1 r',
    safe_rename_direct dir path b false = Some (r, dir1)
    /\ safe_rename_direct dir path b true = Some (r', dir)
    /\ new_path r' = new_path r
    /\ ((dir !! path = None /\ note r' = note r)
        \/ (is_Some (dir !! path) /\ note r' = u "DRY RUN: " ++ note r)).
Proof.
  destruct (safe_rename_direct_any dir path b false)
    as (r & dir1 & Hr & Hcase).
  destruct (safe_rename_direct_any dir path b true)
    as (r' & dir2 & Hr' & Hcase').
  exists r, dir1, r'. split; [exact Hr|].
  destruct Hcase as [(Hp & -> & _) | (f & np & nt & Hp & Hplan & _ & -> & _)];
    destruct Hcase' as [(Hp' & -> & ->)
                       | (f' & np' & nt' & Hp' & Hplan' & _ & -> & ->)];
    try congruence.
  - split; [exact Hr'|]. split; [reflexivity|]. left. auto.
  - rewrite Hplan in Hplan'. injection Hplan' as <- <-.
    split; [exact Hr'|]. split; [reflexivity|]. right. split; [eauto|].
    reflexivity.
Qed.

(** The result of [safe_rename] is an error - an empty new path, a note
    that starts with "ERROR" - exactly when the source file does not
    exist. *)
Theorem safe_rename_error_iff_missing (dir : gmap str N) (path b : str)
    (dry_run : bool) :
  exists r dir',
    safe_rename_direct dir path b dry_run = Some (r, dir')
    /\ (py_startswith (note r) (u "ERROR") = true <-> dir !! path = None)
    /\ (new_path r = [] <-> dir !! path = None).
Proof.
  destruct (safe_rename_direct_any dir path b dry_run)
    as (r & dir' & Hr & [(Hp & -> & ->) | (f & np & nt & Hp & Hplan & _
                                             & -> & ->)]).
  - eexists _, _. split; [exact Hr|]. cbn [note new_path]. split.
    + split; [auto | reflexivity].
    + split; auto.
  - eexists _, _. split; [exact Hr|]. cbn [note new_path].
    destruct (rename_plan_spec dir path b (ex_intro _ f Hp))
      as (np' & nt' & Hplan' & _ & Hshape).
    rewrite Hplan in Hplan'. injection Hplan' as <- <-.
    assert (Hnote : py_startswith
                      (if dry_run then u "DRY RUN: " ++ nt else nt)
                      (u "ERROR") = false).
    { destruct dry_run; [reflexivity|].
      destruct Hshape as [[_ ->] | (k & _ & _ & -> & _)]; reflexivity. }
    assert (Hnp : np <> []).
    { destruct Hshape as [[-> _] | (k & _ & -> & _)].
      - rewrite u_pdf. intros H. apply app_eq_nil in H as [_ H].
        discriminate H.
      - unfold suffixed. intros H. apply app_eq_nil in H as [_ H].
        discriminate H. }
    split; split; intros H; congruence.
Qed.

(** On a collision the note reports the suffix of the new name; without
    one the file gets the naive name and the plain note. *)
Theorem safe_rename_note_names_suffix (dir : gmap str N) (path b : str)
    (f : N) :
  dir !! path = Some f ->
  exists r dir',
    safe_rename_direct dir path b false = Some (r, dir')
    /\ ((new_path r = b ++ u ".pdf"
         /\ note r = u "переименовано успешно")
        \/ exists k,
             1 <= k /\ new_path r = suffixed b k
             /\ note r = u "коллизия имени, добавлен суффикс _"
                           ++ str_of_nat k
             /\ is_Some (dir !! (b ++ u ".pdf"))).
Proof.
  intros Hp.
  destruct (safe_rename_direct_any dir path b false)
    as (r & dir' & Hr & [(Hp' & _) | (f' & np & nt & _ & Hplan & _
                                        & -> & _)]); [congruence|].
  eexists _, dir'. split; [exact Hr|]. cbn [new_path note].
  destruct (rename_plan_spec dir path b (ex_intro _ f Hp))
    as (np' & nt' & Hplan' & _ & Hshape).
  rewrite Hplan in Hplan'. injection Hplan' as <- <-.
  destruct Hshape as [H | (k & Hk & Hnp & Hnt & He & _)]; [left; exact H|].
  right. exists k. auto.
Qed.

Lemma safe_rename_note_names_suffix_witness :
  busy_directory !! u "scan.pdf" = Some 3%N
  /\ exists r dir',
       safe_rename_direct busy_directory (u "scan.pdf") (u "ABCD1234567")
         false = Some (r, dir')
       /\ new_path r = u "ABCD1234567_2.pdf"
       /\ note r = u "коллизия имени, добавлен суффикс _2".
Proof.
  assert (Hp : busy_directory !! u "scan.pdf" = Some 3%N)
    by (vm_compute; reflexivity).
  split; [exact Hp|].
  destruct (safe_rename_note_names_suffix busy_directory
              (u "scan.pdf") (u "ABCD1234567") 3%N Hp)
    as (r & dir' & Hr & _).
  exists r, dir'. split; [exact Hr|].
  assert (Hplan : rename_plan busy_directory (u "scan.pdf") (u "ABCD1234567")
                  = Some (u "ABCD1234567_2.pdf",
                          u "коллизия имени, добавлен суффикс _2"))
    by (vm_compute; reflexivity).
  rewrite (safe_rename_direct_plan _ _ _ _ _ Hp), Hplan in Hr.
  cbn [negb] in Hr. injection Hr as <- _. split; reflexivity.
Defined.

(** ** The processing of a folder *)

Section FolderFacts.
Context {U : UnicodeData}.

(** What [normalize] returns when it is not an error has passed the
    validation. *)
Lemma normalize_not_error_valid raw :
  py_startswith (normalize_code_direct raw) (u "ERROR") = false ->
  valid (normalize_code_direct raw).
Proof.
  unfold normalize_code_direct, valid. destruct raw as [|x raw];
    [discriminate|]. cbn [is_empty].
  destruct (re_match VALIDATION_PATTERN _) eqn:Hm; cbn [negb];
    [intros _; exact Hm | discriminate].
Qed.

(** One document: the function returns, one counter among [errors],
    [skipped] and [renamed] grows by one, the directory keeps its files,
    and a record with a new path carries a validated code and a name made
    from it. *)
Lemma process_document_step llm ocr_enabled dry_run dir c p text ocr_text :
  exists row c' dir',
    process_document llm ocr_enabled dry_run dir c p text ocr_text
    = Some (row, c', dir')
    /\ row_original_path row = p
    /\ errors c' + skipped c' + renamed c'
       = S (errors c + skipped c + renamed c)
    /\ renamed c' - renamed c <= processed c' - processed c
    /\ processed c <= processed c' <= S (processed c)
    /\ renamed c <= renamed c'
    /\ (dry_run = true -> dir' = dir)
    /\ size dir' = size dir
    /\ (forall g, has_file dir' g <-> has_file dir g)
    /\ (row_new_path row <> [] ->
        valid (row_extracted_code row)
        /\ named_after (row_extracted_code row) (row_new_path row)
        /\ is_Some (dir !! p))
    /\ (dir' <> dir -> row_new_path row <> []).
Proof.
  unfold process_document.
  destruct (py_startswith text (u "ERROR")).
  { eexists _, _, _. split; [reflexivity|]. cbn.
    repeat split; auto; try lia; congruence. }
  destruct (is_empty (extracted_code _)).
  { eexists _, _, _. split; [reflexivity|]. cbn.
    repeat split; auto; try lia; congruence. }
  destruct (py_startswith (normalize_code_direct _) (u "ERROR")) eqn:Hn.
  { eexists _, _, _. split; [reflexivity|]. cbn.
    repeat split; auto; try lia; congruence. }
  apply normalize_not_error_valid in Hn.
  set (normalized := normalize_code_direct _) in *.
  destruct (safe_rename_direct_any dir p normalized dry_run)
    as (r & dir' & Hr & Hcase).
  rewrite Hr. eexists _, _, _. split; [reflexivity|].
  cbn [row_original_path row_new_path row_extracted_code].
  split; [reflexivity|].
  assert (Hcount : forall t : bool,
            let c' := if t
                      then Counters (S (processed c)) (renamed c) (skipped c)
                             (S (errors c))
                      else Counters (S (processed c)) (S (renamed c))
                             (skipped c) (errors c) in
            errors c' + skipped c' + renamed c'
            = S (errors c + skipped c + renamed c)
            /\ renamed c' - renamed c <= processed c' - processed c
            /\ processed c <= processed c' <= S (processed c)
            /\ renamed c <= renamed c').
  { intros [|]; cbn; lia. }
  destruct (Hcount (is_empty (new_path r)
                    || py_startswith (note r) (u "ERROR")))
    as (H1 & H2 & H3 & H4).
  split; [exact H1|]. split; [exact H2|]. split; [exact H3|].
  split; [exact H4|]. clear Hcount H1 H2 H3 H4.
  destruct Hcase as [(Hp & -> & ->)
                    | (f & np & nt & Hp & Hplan & Hfree & -> & ->)].
  - cbn [new_path]. repeat split; auto; congruence.
  - cbn [new_path].
    destruct (rename_plan_spec dir p normalized (ex_intro _ f Hp))
      as (np' & nt' & Hplan' & _ & Hshape).
    rewrite Hplan in Hplan'. injection Hplan' as <- <-.
    assert (Hnamed : named_after normalized np).
    { destruct Hshape as [[-> _] | (k & Hk & -> & _)];
        [left; reflexivity | right; eauto]. }
    assert (Hnp : np <> []).
    { destruct Hnamed as [-> | (k & _ & ->)].
      - rewrite u_pdf. intros H. apply app_eq_nil in H as [_ H].
        discriminate H.
      - unfold suffixed. intros H. apply app_eq_nil in H as [_ H].
        discriminate H. }
    destruct dry_run.
    + repeat split; eauto; congruence.
    + split; [discriminate|].
      destruct (decide (np = p)) as [-> | Hne].
      * repeat split; eauto; congruence.
      * destruct Hfree as [|Hfree]; [contradiction|].
        destruct (fs_rename_files dir p np f Hp Hfree) as (S1 & S2 & _).
        split; [exact S1|]. split; [exact S2|].
        split; [intros _; split; [exact Hn|]; split; [exact Hnamed | eauto]|].
        intros _. exact Hnp.
Qed.

Lemma process_paths_steps llm ocr_enabled dry_run read ocr pdf_paths :
  forall dir c,
  exists rows c' dir',
    process_paths llm ocr_enabled dry_run read ocr dir c pdf_paths
    = Some (rows, c', dir')
    /\ map row_original_path rows = pdf_paths
    /\ errors c' + skipped c' + renamed c'
       = errors c + skipped c + renamed c + length pdf_paths
    /\ renamed c' - renamed c <= processed c' - processed c
    /\ processed c <= processed c' <= processed c + length pdf_paths
    /\ renamed c <= renamed c'
    /\ (dry_run = true -> dir' = dir)
    /\ size dir' = size dir
    /\ (forall g, has_file dir' g <-> has_file dir g)
    /\ Forall (fun row =>
                 row_new_path row <> [] ->
                 valid (row_extracted_code row)
                 /\ named_after (row_extracted_code row) (row_new_path row))
         rows
    /\ (dir' <> dir -> exists row, In row rows /\ row_new_path row <> []).
Proof.
  induction pdf_paths as [|p ps IH]; intros dir c; cbn [process_paths].
  - exists [], c, dir. split; [reflexivity|]. cbn.
    repeat split; auto; try lia. congruence.
  - destruct (process_document_step llm ocr_enabled dry_run dir c p
                (read p) (ocr p))
      as (row & c1 & dir1 & Hrow & Ho & Hsum & Hrp & Hproc & Hren & Hdry
          & Hsize & Hfiles & Hvalid & Hchg).
    rewrite Hrow.
    destruct (IH dir1 c1)
      as (rows & c2 & dir2 & Hrows & Hos & Hsum2 & Hrp2 & Hproc2 & Hren2
          & Hdry2 & Hsize2 & Hfiles2 & Hvalid2 & Hchg2).
    rewrite Hrows. exists (row :: rows), c2, dir2. split; [reflexivity|].
    split; [cbn [map]; congruence|].
    split; [cbn [length]; lia|]. split; [lia|].
    split; [cbn [length]; lia|]. split; [lia|].
    split; [intros Hd; rewrite (Hdry2 Hd); apply Hdry; exact Hd|].
    split; [lia|].
    split; [intros g; rewrite Hfiles2; apply Hfiles|].
    split.
    + apply List.Forall_cons; [|exact Hvalid2].
      intros Hne. destruct (Hvalid Hne) as (H1 & H2 & _). auto.
    + intros Hne. destruct (decide (dir1 = dir)) as [Heq | Hd1].
      * subst dir1. destruct (Hchg2 Hne) as (r & Hr & Hr').
        exists r. split; [right; exact Hr | exact Hr'].
      * exists row. split; [left; reflexivity | apply Hchg; exact Hd1].
Qed.

End FolderFacts.

(** Every run over a folder ends with one record per document, in the
    order of the paths, and counts each document once: as an error, as
    skipped or as renamed; the documents that reached the renaming are the
    [processed] ones. *)
Theorem process_folder_counts_each_document_once {U : UnicodeData}
    (llm : option (str -> llm_reply)) (ocr_enabled dry_run : bool)
    (read ocr : str -> str) (dir : gmap str N) (pdf_paths : list str) :
  exists rows c dir',
    process_paths llm ocr_enabled dry_run read ocr dir (Counters 0 0 0 0)
      pdf_paths = Some (rows, c, dir')
    /\ map row_original_path rows = pdf_paths
    /\ errors c + skipped c + renamed c = length pdf_paths
    /\ renamed c <= processed c <= length pdf_paths.
Proof.
  destruct (process_paths_steps llm ocr_enabled dry_run read ocr pdf_paths
              dir (Counters 0 0 0 0))
    as (rows & c & dir' & H & Ho & Hsum & Hrp & Hproc & _).
  exists rows, c, dir'. cbn in Hsum, Hrp, Hproc.
  repeat split; auto; lia.
Qed.

(** A dry run over a folder leaves the directory as it was. *)
Theorem process_folder_dry_run_changes_nothing {U : UnicodeData}
    (llm : option (str -> llm_reply)) (ocr_enabled : bool)
    (read ocr : str -> str) (dir : gmap str N) (c : counters)
    (pdf_paths : list str) :
  exists rows c',
    process_paths llm ocr_enabled true read ocr dir c pdf_paths
    = Some (rows, c', dir).
Proof.
  destruct (process_paths_steps llm ocr_enabled true read ocr pdf_paths dir c)
    as (rows & c' & dir' & H & _ & _ & _ & _ & _ & Hdry & _).
  rewrite (Hdry eq_refl) in H. eauto.
Qed.

(** A run over a folder loses no file and overwrites none: the directory
    has the same number of files and the same files afterwards, and it
    differs only if some record has a new path. *)
Theorem process_folder_keeps_every_file {U : UnicodeData}
    (llm : option (str -> llm_reply)) (ocr_enabled dry_run : bool)
    (read ocr : str -> str) (dir : gmap str N) (c : counters)
    (pdf_paths : list str) :
  exists rows c' dir',
    process_paths llm ocr_enabled dry_run read ocr dir c pdf_paths
    = Some (rows, c', dir')
    /\ size dir' = size dir
    /\ (forall g, has_file dir' g <-> has_file dir g)
    /\ (dir' <> dir -> exists row, In row rows /\ row_new_path row <> []).
Proof.
  destruct (process_paths_steps llm ocr_enabled dry_run read ocr pdf_paths
              dir c)
    as (rows & c' & dir' & H & _ & _ & _ & _ & _ & _ & Hsize & Hfiles
        & _ & Hchg).
  exists rows, c', dir'. auto.
Qed.

(** A file is only ever renamed after a code that has passed the
    validation: every record with a new path carries such a code, and the
    new path is the code with ".pdf" or with a numeric suffix before it. *)
Theorem process_folder_renames_to_valid_codes {U : UnicodeData}
    (llm : option (str -> llm_reply)) (ocr_enabled dry_run : bool)
    (read ocr : str -> str) (dir : gmap str N) (c : counters)
    (pdf_paths : list str) :
  exists rows c' dir',
    process_paths llm ocr_enabled dry_run read ocr dir c pdf_paths
    = Some (rows, c', dir')
    /\ forall row, In row rows -> row_new_path row <> [] ->
         valid (row_extracted_code row)
         /\ named_after (row_extracted_code row) (row_new_path row).
Proof.
  destruct (process_paths_steps llm ocr_enabled dry_run read ocr pdf_paths
              dir c)
    as (rows & c' & dir' & H & _ & _ & _ & _ & _ & _ & _ & _ & Hvalid & _).
  exists rows, c', dir'. split; [exact H|].
  rewrite List.Forall_forall in Hvalid. exact Hvalid.
Qed.

(** ** The regex extractor and the LLM extractor together *)

Lemma confidence_values_facts :
  forallb
    (fun x => negb (PrimFloat.ltb x 0.0%float)
              && (PrimFloat.eqb x 0.0%float
                  || negb (PrimFloat.ltb x 0.41%float)))
    confidence_values = true.
Proof. vm_compute. reflexivity. Qed.

Section ExtractionFacts.
Context {U : UnicodeData}.

Lemma calculate_confidence_values cands text method :
  Forall valid cands ->
  In (selected_confidence (_calculate_confidence cands text method))
    confidence_values.
Proof.
  intros Hv. destruct cands as [|a [|b l]].
  - left. reflexivity.
  - rewrite calculate_confidence_one.
    destruct (is_excluded a); [left; reflexivity|].
    destruct (is_known a); [right; right; left | right; left]; reflexivity.
  - rewrite calculate_confidence_many by (cbn; lia).
    destruct (sort_desc _) as [|[[bc bs] bp] rest] eqn:Hs;
      [left; reflexivity|].
    assert (Hin : In (bc, bs, bp) (sort_desc (score_all (py_lower text)
                                                (a :: b :: l))))
      by (rewrite Hs; left; reflexivity).
    apply (proj1 (sort_desc_In _ _)) in Hin.
    pose proof (score_all_values text _ Hv) as Hval.
    rewrite List.Forall_forall in Hval. specialize (Hval _ Hin).
    unfold score_of in Hval. cbn [fst snd] in Hval.
    unfold selected_confidence. cbn [fst snd].
    revert Hval. generalize bs. apply List.Forall_forall.
    repeat (apply List.Forall_cons; [vm_compute; tauto|]).
    apply List.Forall_nil.
Qed.

Lemma regex_confidence_values text :
  In (confidence (fst (regex_extract_code_direct text))) confidence_values.
Proof.
  destruct (gated text) eqn:Hg.
  - unfold regex_extract_code_direct. fold (gated text). rewrite Hg.
    left. reflexivity.
  - destruct (regex_extract_code_direct_result text Hg) as [_ ->].
    apply calculate_confidence_values, candidates_valid.
Qed.

(** An LLM result whose confidence exceeds a confidence of the regex
    extractor carries a code, validated and found in the text, and its
    confidence is at most 0.95. *)
Lemma better_llm_result text llm primary :
  In primary confidence_values ->
  let r := extract_code_with_llm text llm in
  PrimFloat.ltb primary (llm_confidence r) = true ->
  llm_code r <> [] /\ valid (llm_code r)
  /\ found_in_text text (llm_code r) = true
  /\ PrimFloat.leb (llm_confidence r) 0.95%float = true.
Proof.
  intros Hp r Hlt.
  destruct (extract_code_with_llm_cases text llm)
    as [[_ H0] | (Hv & Hf & conf & Hc)]; fold r in H0 || fold r in Hv, Hf, Hc.
  - exfalso. rewrite H0 in Hlt. pose proof confidence_values_facts as H.
    rewrite forallb_forall in H. specialize (H _ Hp).
    apply andb_true_iff in H as [H _]. rewrite Hlt in H. discriminate H.
  - split; [apply valid_nonempty; exact Hv|]. split; [exact Hv|].
    split; [exact Hf|]. rewrite Hc. rewrite Hc in Hlt.
    apply (py_min_le_bound conf 0.95%float primary); [reflexivity | exact Hlt].
Qed.

End ExtractionFacts.

(** When the result of the LLM is adopted (method "llm", or "ocr+llm" on
    the text of OCR), its code is not empty, has passed the validation and
    the test against the text, and its confidence is above that of the
    regex extractor and at most 0.95. *)
Theorem llm_result_adopted_only_when_verified {U : UnicodeData}
    (llm : str -> llm_reply) (text : str) (after_ocr : bool) :
  let e := if after_ocr then extract_from_ocr (Some llm) text
           else extract_from_text (Some llm) text in
  method e = (if after_ocr then u "ocr+llm" else u "llm") ->
  extracted_code e <> [] /\ valid (extracted_code e)
  /\ found_in_text text (extracted_code e) = true
  /\ PrimFloat.ltb (confidence (fst (regex_extract_code_direct text)))
       (ex_confidence e) = true
  /\ PrimFloat.leb (ex_confidence e) 0.95%float = true.
Proof.
  destruct after_ocr; cbv zeta; intros Hm.
  - unfold extract_from_ocr in *.
    destruct (PrimFloat.ltb _ MIN_CONFIDENCE_THRESHOLD); [|discriminate Hm].
    destruct (PrimFloat.ltb _ (llm_confidence _)) eqn:Hlt; [|discriminate Hm].
    cbn [extracted_code ex_confidence].
    destruct (better_llm_result text llm _ (regex_confidence_values text) Hlt)
      as (H1 & H2 & H3 & H4).
    auto.
  - unfold extract_from_text in *.
    destruct (_ || _); [|discriminate Hm].
    destruct (PrimFloat.ltb _ _) eqn:Hlt; [|discriminate Hm].
    cbn [extracted_code ex_confidence].
    destruct (better_llm_result text llm _ (regex_confidence_values text) Hlt)
      as (H1 & H2 & H3 & H4).
    auto.
Qed.

Lemma llm_result_adopted_only_when_verified_witness :
  let text := u "AAAA1111111 BBBB2222222" in
  let e := extract_from_text (Some second_code_llm) text in
  method e = u "llm"
  /\ extracted_code e = u "BBBB2222222"
  /\ valid (extracted_code e)
  /\ PrimFloat.leb (ex_confidence e) 0.95%float = true.
Proof.
  cbv zeta.
  assert (Hm : method (extract_from_text (Some second_code_llm)
                         (u "AAAA1111111 BBBB2222222")) = u "llm")
    by (vm_compute; reflexivity).
  split; [exact Hm|]. split; [vm_compute; reflexivity|].
  destruct (llm_result_adopted_only_when_verified second_code_llm
              (u "AAAA1111111 BBBB2222222") false Hm)
    as (_ & Hv & _ & _ & Hle).
  split; [exact Hv | exact Hle].
Defined.

Section ExtractionCodes.
Context {U : UnicodeData}.

(** The code of an extraction is empty or has passed the validation. *)
Lemma extraction_code_valid llm text after_ocr :
  let e := if after_ocr : bool then extract_from_ocr llm text
           else extract_from_text llm text in
  extracted_code e = [] \/ valid (extracted_code e).
Proof.
  assert (Hprim : code (fst (regex_extract_code_direct text)) = []
                  \/ valid (code (fst (regex_extract_code_direct text)))).
  { destruct (regex_extract_code_direct_code text) as [[H _] | (_ & H & _)];
      auto. }
  assert (Hllm : forall l, llm_code (extract_code_with_llm text l) = []
                           \/ valid (llm_code (extract_code_with_llm text l))).
  { intros l. destruct (extract_code_with_llm_cases text l)
      as [[H _] | (H & _)]; auto. }
  destruct after_ocr; cbv zeta.
  - unfold extract_from_ocr. destruct llm as [l|]; [|exact Hprim].
    destruct (PrimFloat.ltb _ MIN_CONFIDENCE_THRESHOLD); [|exact Hprim].
    destruct (PrimFloat.ltb _ (llm_confidence _)); [apply Hllm | exact Hprim].
  - unfold extract_from_text. destruct llm as [l|]; [|exact Hprim].
    destruct (_ || _); [|exact Hprim].
    destruct (PrimFloat.ltb _ _); [apply Hllm | exact Hprim].
Qed.

End ExtractionCodes.

(** The normalizer never rejects what the extractors return: a code
    extracted from a text, by the regex extractor or by the LLM, with or
    without OCR, is returned unchanged by [normalize_code_direct]. *)
Theorem extracted_code_always_normalizes {U : UnicodeData}
    (L : UnicodeLaws U) (llm : option (str -> llm_reply)) (text : str)
    (after_ocr : bool) :
  let e := if after_ocr then extract_from_ocr llm text
           else extract_from_text llm text in
  extracted_code e <> [] ->
  normalize_code_direct (extracted_code e) = extracted_code e.
Proof.
  cbv zeta. intros Hne.
  destruct (extraction_code_valid llm text after_ocr) as [H | H];
    [contradiction|].
  apply normalize_valid. exact H.
Qed.

Lemma extracted_code_always_normalizes_witness :
  let e := extract_from_text None (u "Контейнер № ABCD1234567 был доставлен") in
  extracted_code e = u "ABCD1234567"
  /\ normalize_code_direct (extracted_code e) = extracted_code e.
Proof.
  cbv zeta.
  assert (Hc : extracted_code
                 (extract_from_text None
                    (u "Контейнер № ABCD1234567 был доставлен"))
               = u "ABCD1234567") by (vm_compute; reflexivity).
  split; [exact Hc|].
  apply (extracted_code_always_normalizes ucd_laws None
           (u "Контейнер № ABCD1234567 был доставлен") false).
  rewrite Hc. discriminate.
Defined.

(** A sole candidate that is not excluded is final: its confidence is 0.85
    or 0.98, so the LLM is not consulted, whatever it would answer. *)
Theorem sole_candidate_never_asks_llm {U : UnicodeData}
    (llm : str -> llm_reply) (text c : str) :
  candidates (fst (regex_extract_code_direct text)) = [c] ->
  is_excluded c = false ->
  extract_from_text (Some llm) text = extract_from_text None text
  /\ extracted_code (extract_from_text (Some llm) text) = c
  /\ (ex_confidence (extract_from_text (Some llm) text) = 0.85%float
      \/ ex_confidence (extract_from_text (Some llm) text) = 0.98%float).
Proof.
  intros Hc He.
  assert (Hg : gated text = false).
  { destruct (gated text) eqn:Hg; [|reflexivity].
    unfold regex_extract_code_direct in Hc. fold (gated text) in Hc.
    rewrite Hg in Hc. discriminate Hc. }
  destruct (regex_extract_code_direct_result text Hg) as [Hcode Hconf].
  rewrite Hc, calculate_confidence_one, He in Hcode, Hconf.
  unfold extract_from_text. rewrite Hc, Hcode, Hconf.
  destruct (is_known c); cbn; auto.
Qed.

Lemma sole_candidate_never_asks_llm_witness :
  let text := u "Контейнер № ABCD1234567 был доставлен" in
  candidates (fst (regex_extract_code_direct text)) = [u "ABCD1234567"]
  /\ extract_from_text (Some second_code_llm) text
     = extract_from_text None text.
Proof.
  cbv zeta.
  assert (Hc : candidates (fst (regex_extract_code_direct
                                  (u "Контейнер № ABCD1234567 был доставлен")))
               = [u "ABCD1234567"]) by (vm_compute; reflexivity).
  split; [exact Hc|].
  apply (sole_candidate_never_asks_llm second_code_llm
           (u "Контейнер № ABCD1234567 был доставлен") (u "ABCD1234567") Hc).
  vm_compute. reflexivity.
Defined.

(** Among valid candidates, a known prefix beats an unknown one: a
    candidate with a known prefix scores strictly more than a candidate
    with an unknown prefix, unless the unknown one alone has a keyword
    that names the cargo near it. *)
Theorem known_prefix_outscores_unknown {U : UnicodeData}
    (text c1 c2 : str) :
  valid c1 -> valid c2 ->
  is_known c1 = true -> is_known c2 = false ->
  (List.find (near (py_lower text) (py_lower c1)) CONTAINER_KEYWORDS <> None
   \/ forall k,
        List.find (near (py_lower text) (py_lower c2)) CONTAINER_KEYWORDS
        = Some k -> cargo_keyword k = false) ->
  PrimFloat.ltb (candidate_score (py_lower text) c2)
    (candidate_score (py_lower text) c1) = true.
Proof.
  intros H1 H2 K1 K2 Hkw. rewrite !candidate_score_formula.
  apply validation_match_length in H1, H2. unfold score_formula.
  rewrite K1, K2.
  destruct (List.find (near (py_lower text) (py_lower c1)) CONTAINER_KEYWORDS)
    as [k1|];
    destruct (List.find (near (py_lower text) (py_lower c2)) CONTAINER_KEYWORDS)
      as [k2|];
    try destruct (cargo_keyword k1);
    try (destruct (cargo_keyword k2) eqn:E2;
         [try (destruct Hkw as [Hkw | Hkw];
               [congruence | specialize (Hkw k2 eq_refl); congruence])|]);
    destruct H1 as [-> | ->], H2 as [-> | ->]; vm_compute; reflexivity.
Qed.

Lemma known_prefix_outscores_unknown_witness :
  let text := u "код BBBB2222222, container MSCU3333333" in
  (valid (u "MSCU3333333") /\ valid (u "BBBB2222222")
   /\ is_known (u "MSCU3333333") = true /\ is_known (u "BBBB2222222") = false)
  /\ PrimFloat.ltb (candidate_score (py_lower text) (u "BBBB2222222"))
       (candidate_score (py_lower text) (u "MSCU3333333")) = true.
Proof.
  cbv zeta.
  assert (H1 : valid (u "MSCU3333333")) by (vm_compute; reflexivity).
  assert (H2 : valid (u "BBBB2222222")) by (vm_compute; reflexivity).
  assert (K1 : is_known (u "MSCU3333333") = true) by (vm_compute; reflexivity).
  assert (K2 : is_known (u "BBBB2222222") = false)
    by (vm_compute; reflexivity).
  split; [auto|].
  apply (known_prefix_outscores_unknown
           (u "код BBBB2222222, container MSCU3333333")
           (u "MSCU3333333") (u "BBBB2222222") H1 H2 K1 K2).
  left. vm_compute. discriminate.
Defined.

(** ** The log: [log_result], [log_result_direct] and [analyze_log] *)

Lemma csv_read_quoted v :
  forall cur done tl,
    csv_read InQuoted cur done (double_quotes v ++ 0x22%N :: tl)
    = csv_read QuoteSeen (cur ++ v) done tl.
Proof.
  induction v as [|c v IH]; intros cur done tl.
  - cbn. rewrite app_nil_r. reflexivity.
  - cbn [double_quotes flat_map]. fold (double_quotes v).
    destruct (N.eqb_spec c 0x22) as [-> | Hc].
    + cbn [app csv_read N.eqb Pos.eqb]. rewrite IH, <- app_assoc. reflexivity.
    + cbn [app csv_read]. apply N.eqb_neq in Hc. rewrite Hc.
      rewrite IH, <- app_assoc. reflexivity.
Qed.

Lemma csv_read_line values :
  forall done,
    values <> [] ->
    csv_read FieldStart [] done (csv_line values) = Some (done ++ values).
Proof.
  unfold csv_line. induction values as [|v vs IH]; intros done Hne;
    [congruence|].
  destruct vs as [|w vs].
  - cbn [map py_join]. unfold csv_quote. cbn [app csv_read N.eqb Pos.eqb].
    rewrite csv_read_quoted. reflexivity.
  - change (py_join (u ",") (map csv_quote (v :: w :: vs)))
      with (csv_quote v ++ u "," ++ py_join (u ",") (map csv_quote (w :: vs))).
    unfold csv_quote at 1. rewrite <- !app_assoc.
    cbn [app csv_read N.eqb Pos.eqb]. rewrite csv_read_quoted.
    change (u ",") with [0x2C%N] at 1. cbn [app csv_read N.eqb Pos.eqb].
    rewrite IH by discriminate. rewrite <- app_assoc. reflexivity.
Qed.

Lemma csv_read_csv_line vs :
  csv_read FieldStart [] [] (csv_line vs) = Some vs.
Proof.
  destruct vs as [|v vs]; [reflexivity|]. apply (csv_read_line (v :: vs) []).
  discriminate.
Qed.

(** A line of the log can be read back: the reader returns the values
    that were written, whatever quotes and commas they hold; so two lists
    of values that give the same line are the same list. *)
Theorem csv_line_round_trip (values : list str) :
  csv_read FieldStart [] [] (csv_line values) = Some values
  /\ forall values', csv_line values' = csv_line values -> values' = values.
Proof.
  split; [apply csv_read_csv_line|].
  intros values' Heq. pose proof (csv_read_csv_line values') as H.
  rewrite Heq, csv_read_csv_line in H. congruence.
Qed.

(** The values of a line, one for each field of [LOG_FIELDS], are the
    timestamp and what the row has under the keys of the fields. *)
Lemma log_values_eq timestamp row :
  log_values timestamp row
  = [timestamp;
     dict_get row (u "original_path") [];
     dict_get row (u "new_path") [];
     dict_get row (u "extracted_code") [];
     dict_get row (u "method") [];
     dict_get row (u "confidence") [];
     dict_get row (u "note") [];
     dict_get row (u "dry_run") (u "0")].
Proof.
  unfold log_values, log_entry.
  generalize (dict_get row (u "original_path") []),
    (dict_get row (u "new_path") []), (dict_get row (u "extracted_code") []),
    (dict_get row (u "method") []), (dict_get row (u "confidence") []),
    (dict_get row (u "note") []), (dict_get row (u "dry_run") (u "0")).
  intros v1 v2 v3 v4 v5 v6 v7. vm_compute. reflexivity.
Qed.

Lemma row_dict_values str_of_float timestamp r :
  log_values timestamp (row_dict str_of_float r)
  = [timestamp; row_original_path r; row_new_path r; row_extracted_code r;
     row_method r; str_of_float (row_confidence r); row_note r;
     row_dry_run r].
Proof.
  rewrite log_values_eq. unfold row_dict.
  generalize (row_original_path r), (row_new_path r), (row_extracted_code r),
    (row_method r), (str_of_float (row_confidence r)), (row_note r),
    (row_dry_run r).
  intros v1 v2 v3 v4 v5 v6 v7. vm_compute. reflexivity.
Qed.

Lemma log_results_initialized calls :
  forall lines,
    log_results calls (Some lines)
    = (map (fun _ => u "OK: запись добавлена в лог") calls,
       Some (lines ++ map (fun call => log_line (fst call) (snd call)) calls)).
Proof.
  induction calls as [|[timestamp row] calls IH]; intros lines.
  - cbn. rewrite app_nil_r. reflexivity.
  - cbn [log_results log_result]. rewrite IH. cbn [map fst snd].
    rewrite <- app_assoc. reflexivity.
Qed.

Lemma log_results_uninitialized calls :
  log_results calls None
  = (map (fun _ => u "ERROR: лог-файл не инициализирован") calls, None).
Proof.
  induction calls as [|[timestamp row] calls IH]; [reflexivity|].
  cbn [log_results log_result]. rewrite IH. reflexivity.
Qed.

(** The log keeps, column by column, what the rows held.  A line read
    back has one value for each field of [LOG_FIELDS], the columns of the
    header that [set_log_file] writes: the timestamp, and under every
    other field what the row has under that key (nothing for a key that it
    lacks, "0" for [dry_run]); for the dictionary that
    [process_folder_simple] passes, the columns are the fields of the
    record, in particular the new path and the note that [analyze_log]
    reads.  After [set_log_file], a sequence of calls of [log_result]
    answers "OK: запись добавлена в лог" each time and leaves the lines
    that were there (the header, for a new file) followed by one line for
    each call, in order; before [set_log_file] every call answers
    "ERROR: лог-файл не инициализирован" and nothing is written. *)
Theorem log_keeps_rows_by_column (str_of_float : float -> str)
    (existing : option (list str)) (calls : list (str * gmap str str)) :
  (forall timestamp row,
     csv_read FieldStart [] [] (log_line timestamp row)
     = Some (log_values timestamp row)
     /\ length (log_values timestamp row) = length LOG_FIELDS
     /\ forall i field,
          nth_error LOG_FIELDS i = Some field ->
          nth_error (log_values timestamp row) i
          = Some (if str_eqb field (u "timestamp") then timestamp
                  else dict_get row field (field_default field)))
  /\ (forall timestamp r,
        combine LOG_FIELDS (log_values timestamp (row_dict str_of_float r))
        = [(u "timestamp", timestamp);
           (u "original_path", row_original_path r);
           (u "new_path", row_new_path r);
           (u "extracted_code", row_extracted_code r);
           (u "method", row_method r);
           (u "confidence", str_of_float (row_confidence r));
           (u "note", row_note r);
           (u "dry_run", row_dry_run r)])
  /\ log_results calls (set_log_file existing)
     = (map (fun _ => u "OK: запись добавлена в лог") calls,
        Some (match existing with
              | Some lines => lines
              | None => [py_join (u ",") LOG_FIELDS]
              end
              ++ map (fun call => log_line (fst call) (snd call)) calls))
  /\ log_results calls None
     = (map (fun _ => u "ERROR: лог-файл не инициализирован") calls, None)
  /\ forall timestamp row lines,
       log_result_direct timestamp row lines
       = (u "OK", lines ++ [log_line timestamp row]).
Proof.
  split; [|split; [|split; [|split]]].
  - intros timestamp row. split; [apply csv_read_csv_line|].
    rewrite log_values_eq. split; [reflexivity|].
    intros i field Hi.
    do 8 (destruct i as [|i];
          [injection Hi as <-; vm_compute str_eqb; reflexivity|]).
    destruct i; discriminate Hi.
  - intros timestamp r. rewrite row_dict_values. reflexivity.
  - destruct existing as [lines|]; cbn [set_log_file];
      apply log_results_initialized.
  - apply log_results_uninitialized.
  - reflexivity.
Qed.

Section AnalyzeFacts.
Context {U : UnicodeData}.

Lemma analyze_rows_sum rows :
  forall c,
    let c' := fold_left analyze_row rows c in
    renamed c' + skipped c' + errors c'
    = renamed c + skipped c + errors c + length rows
    /\ renamed c' = renamed c + length (List.filter counts_as_renamed rows).
Proof.
  induction rows as [|row rows IH]; intros c; cbn [fold_left List.filter length].
  - cbn. lia.
  - destruct (IH (analyze_row c row)) as [H1 H2]. cbv zeta in *.
    rewrite H1, H2. unfold analyze_row. fold (counts_as_renamed row).
    destruct (counts_as_renamed row); cbn [renamed skipped errors length];
      [lia|].
    destruct (_ || _); cbn [renamed skipped errors]; lia.
Qed.

(** The renamed counter of one document grows exactly when its record
    counts as renamed. *)
Lemma process_document_renamed llm ocr_enabled dry_run dir c p text ocr_text
    row c' dir' :
  process_document llm ocr_enabled dry_run dir c p text ocr_text
  = Some (row, c', dir') ->
  renamed c' = renamed c + (if counts_as_renamed row then 1 else 0).
Proof.
  unfold process_document, counts_as_renamed.
  destruct (py_startswith text (u "ERROR")).
  { intros H. injection H as <- <- _. cbn. lia. }
  destruct (is_empty (extracted_code _)).
  { intros H. injection H as <- <- _. cbn. lia. }
  destruct (py_startswith (normalize_code_direct _) (u "ERROR")).
  { intros H. injection H as <- <- _. cbn. lia. }
  destruct (safe_rename_direct _ _ _ _) as [[r d]|]; [|discriminate].
  intros H. injection H as <- <- _. cbn [row_new_path row_note].
  destruct (is_empty (new_path r)); cbn [negb andb orb renamed]; [lia|].
  destruct (py_startswith (note r) (u "ERROR")); cbn [negb renamed]; lia.
Qed.

Lemma process_paths_renamed llm ocr_enabled dry_run read ocr pdf_paths :
  forall dir c rows c' dir',
    process_paths llm ocr_enabled dry_run read ocr dir c pdf_paths
    = Some (rows, c', dir') ->
    renamed c' = renamed c + length (List.filter counts_as_renamed rows).
Proof.
  induction pdf_paths as [|p ps IH]; intros dir c rows c' dir';
    cbn [process_paths].
  - intros H. injection H as <- <- _. cbn. lia.
  - destruct (process_document _ _ _ _ _ _ _ _) as [[[row c1] dir1]|] eqn:Hd;
      [|discriminate].
    destruct (process_paths _ _ _ _ _ dir1 c1 ps) as [[[rs c2] dir2]|] eqn:Hp;
      [|discriminate].
    intros H. injection H as <- <- _.
    apply process_document_renamed in Hd. apply IH in Hp.
    cbn [List.filter]. destruct (counts_as_renamed row); cbn [length]; lia.
Qed.

End AnalyzeFacts.

(** [analyze_log] counts every record once, as renamed, skipped or error,
    and on the records of a run of [process_folder_simple] its count of
    the renamed documents is the count of the run. *)
Theorem analyze_log_counts {U : UnicodeData}
    (llm : option (str -> llm_reply)) (ocr_enabled dry_run : bool)
    (read ocr : str -> str) (dir : gmap str N) (pdf_paths : list str)
    (any_rows : list log_row) :
  (renamed (analyze_log any_rows) + skipped (analyze_log any_rows)
   + errors (analyze_log any_rows) = length any_rows
   /\ processed (analyze_log any_rows) = length any_rows)
  /\ exists rows c dir',
       process_paths llm ocr_enabled dry_run read ocr dir (Counters 0 0 0 0)
         pdf_paths = Some (rows, c, dir')
       /\ renamed (analyze_log rows) = renamed c.
Proof.
  split.
  - unfold analyze_log. cbn [renamed skipped errors processed].
    destruct (analyze_rows_sum any_rows (Counters 0 0 0 0)) as [H _].
    cbn in H. split; [lia | reflexivity].
  - destruct (process_paths_steps llm ocr_enabled dry_run read ocr pdf_paths
                dir (Counters 0 0 0 0)) as (rows & c & dir' & H & _).
    exists rows, c, dir'. split; [exact H|].
    apply process_paths_renamed in H. unfold analyze_log. cbn [renamed] in *.
    destruct (analyze_rows_sum rows (Counters 0 0 0 0)) as [_ H2].
    cbn in H2. lia.
Qed.

(** ** No two documents of a run get the same name *)

Section FolderNames.
Context {U : UnicodeData}.

Lemma given_names_cons row rows :
  given_names (row :: rows) =
  (if is_empty (row_new_path row) then [] else [row_new_path row])
  ++ given_names rows.
Proof.
  unfold given_names. cbn [map List.filter].
  destruct (is_empty (row_new_path row)); reflexivity.
Qed.

(** One document of a real run whose file exists: no new path and the
    directory as it was, or a new path that is the file's own or was free,
    under which the file is then found. *)
Lemma process_document_names llm ocr_enabled dir c p text ocr_text f :
  dir !! p = Some f ->
  exists row c' dir',
    process_document llm ocr_enabled false dir c p text ocr_text
    = Some (row, c', dir')
    /\ ((row_new_path row = [] /\ dir' = dir)
        \/ (row_new_path row <> []
            /\ ((row_new_path row = p /\ dir' = dir)
                \/ (dir !! row_new_path row = None
                    /\ dir' = <[row_new_path row := f]> (delete p dir))))).
Proof.
  intros Hp.
  destruct (process_document_step llm ocr_enabled false dir c p text ocr_text)
    as (row & c' & dir' & Hrow & _ & _ & _ & _ & _ & _ & _ & _ & _ & Hchg).
  exists row, c', dir'. split; [exact Hrow|].
  unfold process_document in Hrow.
  destruct (py_startswith text (u "ERROR"));
    [injection Hrow as <- _ <-; left; auto|].
  destruct (is_empty (extracted_code _));
    [injection Hrow as <- _ <-; left; auto|].
  destruct (py_startswith (normalize_code_direct _) (u "ERROR"));
    [injection Hrow as <- _ <-; left; auto|].
  set (normalized := normalize_code_direct _) in *.
  destruct (safe_rename_direct_any dir p normalized false)
    as (r & d & Hr & [(Hp' & _) | (f' & np & nt & Hp' & Hplan & Hfree
                                     & -> & ->)]); [congruence|].
  rewrite Hr in Hrow. injection Hrow as <- _ <-. cbn [row_new_path new_path].
  assert (f' = f) by congruence. subst f'.
  destruct (rename_plan_spec dir p normalized (ex_intro _ f Hp))
    as (np' & nt' & Hplan' & _ & Hshape).
  rewrite Hplan in Hplan'. injection Hplan' as <- <-.
  assert (Hnp : np <> []).
  { destruct Hshape as [[-> _] | (k & _ & -> & _)].
    - rewrite u_pdf. intros H. apply app_eq_nil in H as [_ H].
      discriminate H.
    - unfold suffixed. intros H. apply app_eq_nil in H as [_ H].
      discriminate H. }
  right. split; [exact Hnp|].
  destruct (decide (np = p)) as [-> | Hne]; [left; auto|].
  destruct Hfree as [|Hfree]; [contradiction|].
  right. split; [exact Hfree|]. unfold fs_rename. rewrite Hp. reflexivity.
Qed.

(** The invariant of a real run over distinct existing files: the names
    given are distinct, the file of every renamed document is found under
    its new path when the run ends, and a name that is not among the
    paths still to be processed is not given and keeps its file. *)
Lemma process_paths_names llm ocr_enabled read ocr pdf_paths :
  forall dir c,
    NoDup pdf_paths ->
    (forall p, In p pdf_paths -> is_Some (dir !! p)) ->
    exists rows c' dir',
      process_paths llm ocr_enabled false read ocr dir c pdf_paths
      = Some (rows, c', dir')
      /\ NoDup (given_names rows)
      /\ Forall (fun row =>
                   row_new_path row <> [] ->
                   In (row_original_path row) pdf_paths
                   /\ exists f, dir !! row_original_path row = Some f
                                /\ dir' !! row_new_path row = Some f) rows
      /\ (forall t f, dir !! t = Some f -> ~ In t pdf_paths ->
          ~ In t (given_names rows) /\ dir' !! t = Some f).
Proof.
  induction pdf_paths as [|p ps IH]; intros dir c Hnd Hex;
    cbn [process_paths].
  - exists [], c, dir. split; [reflexivity|]. cbn.
    split; [apply NoDup_nil_2|]. split; [apply List.Forall_nil|]. auto.
  - apply NoDup_cons in Hnd as [Hp_notin Hnd].
    rewrite list_elem_of_In in Hp_notin.
    destruct (Hex p (or_introl eq_refl)) as [f Hp].
    destruct (process_document_step llm ocr_enabled false dir c p
                (read p) (ocr p)) as (row0 & c0 & dir0 & Hrow0 & Horig & _).
    destruct (process_document_names llm ocr_enabled dir c p (read p) (ocr p)
                f Hp) as (row & c1 & dir1 & Hrow & Hcase).
    rewrite Hrow in Hrow0. injection Hrow0 as <- <- <-.
    rewrite Hrow.
    (* the other names keep their files, and are not the name given *)
    assert (Hstay : forall s g, s <> p -> dir !! s = Some g ->
              dir1 !! s = Some g
              /\ (row_new_path row <> [] -> row_new_path row <> s)).
    { intros s g Hsp Hs.
      destruct Hcase as [[Hnil ->] | (Hne & [[Hnp ->] | [Hfree ->]])].
      - split; [exact Hs | congruence].
      - split; [exact Hs | congruence].
      - assert (row_new_path row <> s).
        { intros Heq. rewrite Heq in Hfree.
          generalize (eq_trans (eq_sym Hfree) Hs). discriminate. }
        split; [|auto].
        rewrite lookup_insert_ne, lookup_delete_ne by congruence. exact Hs. }
    (* the file of this document is under the name given, if any *)
    assert (Hown : row_new_path row <> [] ->
              dir1 !! row_new_path row = Some f).
    { intros Hne.
      destruct Hcase as [[Hnil _] | (_ & [[-> ->] | [_ ->]])];
        [contradiction | exact Hp | apply lookup_insert_eq]. }
    assert (Hps : forall q, In q ps -> q <> p) by (intros q Hq ->; auto).
    destruct (IH dir1 c1 Hnd)
      as (rows & c2 & dir2 & Hrows & Hnd2 & Hfiles2 & Hkeep2).
    { intros q Hq. destruct (Hex q (or_intror Hq)) as [g Hg].
      destruct (Hstay q g (Hps q Hq) Hg) as [H1 _]. eauto. }
    rewrite Hrows. exists (row :: rows), c2, dir2.
    split; [reflexivity|]. rewrite given_names_cons.
    assert (Hnew : row_new_path row <> [] ->
              ~ In (row_new_path row) (given_names rows)
              /\ dir2 !! row_new_path row = Some f).
    { intros Hne. apply Hkeep2; [apply Hown; exact Hne|].
      intros Hin.
      destruct Hcase as [[Hnil _] | (_ & [[Heq _] | [Hfree _]])];
        [contradiction | rewrite Heq in Hin; auto|].
      destruct (Hex _ (or_intror Hin)) as [x Hx].
      generalize (eq_trans (eq_sym Hfree) Hx). discriminate. }
    assert (Hrowsf : Forall (fun row =>
                   row_new_path row <> [] ->
                   In (row_original_path row) (p :: ps)
                   /\ exists f, dir !! row_original_path row = Some f
                                /\ dir2 !! row_new_path row = Some f)
                (row :: rows)).
    { apply List.Forall_cons.
      - intros Hne. rewrite Horig. split; [left; reflexivity|].
        exists f. split; [exact Hp | apply Hnew; exact Hne].
      - eapply List.Forall_impl; [|exact Hfiles2].
        intros r Hr Hne. destruct (Hr Hne) as (Hin & g & Hg1 & Hg2).
        split; [right; exact Hin|]. exists g. split; [|exact Hg2].
        destruct (Hex _ (or_intror Hin)) as [g' Hg'].
        destruct (Hstay _ g' (Hps _ Hin) Hg') as [H1 _]. congruence. }
    split; [|split; [exact Hrowsf|]].
    + destruct (is_empty (row_new_path row)) eqn:Hemp; cbn [app];
        [exact Hnd2|].
      assert (Hne : row_new_path row <> [])
        by (intros Heq; rewrite Heq in Hemp; discriminate Hemp).
      apply NoDup_cons. split; [|exact Hnd2].
      rewrite list_elem_of_In. apply Hnew. exact Hne.
    + intros t g Ht Hnot.
      assert (Htp : t <> p) by (intros ->; apply Hnot; left; reflexivity).
      destruct (Hstay t g Htp Ht) as [Ht1 Hnt].
      destruct (Hkeep2 t g Ht1) as [Hnin Hfin];
        [intros Hin; apply Hnot; right; exact Hin|].
      split; [|exact Hfin].
      destruct (is_empty (row_new_path row)) eqn:Hemp; cbn [app];
        [exact Hnin|].
      assert (Hne : row_new_path row <> [])
        by (intros Heq; rewrite Heq in Hemp; discriminate Hemp).
      intros [Heq | Hin]; [|contradiction]. exact (Hnt Hne Heq).
Qed.

Lemma given_names_In rows n :
  In n (given_names rows)
  <-> exists row, In row rows /\ row_new_path row = n /\ n <> [].
Proof.
  unfold given_names. rewrite List.filter_In, in_map_iff. split.
  - intros [(row & Hn & Hrow) Hne]. exists row.
    split; [exact Hrow|]. split; [exact Hn|].
    intros ->. discriminate Hne.
  - intros (row & Hrow & Hn & Hne). split; [eauto|].
    destruct n; [contradiction | reflexivity].
Qed.

End FolderNames.

(** In a real run over distinct existing files no two documents get the
    same new path, and every document that got one is found under it when
    the run ends: the file that the directory had under the document's
    original path is the file it has under the new path after the whole
    run, whatever the later documents were renamed to. *)
Theorem process_folder_names_are_distinct {U : UnicodeData}
    (llm : option (str -> llm_reply)) (ocr_enabled : bool)
    (read ocr : str -> str) (dir : gmap str N) (c : counters)
    (pdf_paths : list str) :
  NoDup pdf_paths ->
  (forall p, In p pdf_paths -> is_Some (dir !! p)) ->
  exists rows c' dir',
    process_paths llm ocr_enabled false read ocr dir c pdf_paths
    = Some (rows, c', dir')
    /\ NoDup (given_names rows)
    /\ (forall n, In n (given_names rows) -> is_Some (dir' !! n))
    /\ (forall row, In row rows -> row_new_path row <> [] ->
        exists f, dir !! row_original_path row = Some f
                  /\ dir' !! row_new_path row = Some f).
Proof.
  intros Hnd Hex.
  destruct (process_paths_names llm ocr_enabled read ocr pdf_paths dir c
              Hnd Hex) as (rows & c' & dir' & H & H1 & H2 & _).
  rewrite List.Forall_forall in H2.
  exists rows, c', dir'. split; [exact H|]. split; [exact H1|]. split.
  - intros n Hn. apply (proj1 (given_names_In _ _)) in Hn
      as (row & Hrow & <- & Hne).
    destruct (H2 row Hrow Hne) as (_ & f & _ & Hf). eauto.
  - intros row Hrow Hne. destruct (H2 row Hrow Hne) as (_ & f & Hf). eauto.
Qed.

Lemma process_folder_names_are_distinct_witness :
  (NoDup [u "doc1.pdf"; u "duplicate.pdf"]
   /\ forall p, In p [u "doc1.pdf"; u "duplicate.pdf"] ->
                is_Some (two_documents !! p))
  /\ exists rows c' dir',
       process_paths None false false same_code_reader same_code_reader
         two_documents (Counters 0 0 0 0) [u "doc1.pdf"; u "duplicate.pdf"]
       = Some (rows, c', dir')
       /\ NoDup (given_names rows)
       /\ (forall n, In n (given_names rows) -> is_Some (dir' !! n))
       /\ (forall row, In row rows -> row_new_path row <> [] ->
           exists f, two_documents !! row_original_path row = Some f
                     /\ dir' !! row_new_path row = Some f).
Proof.
  assert (Hnd : NoDup [u "doc1.pdf"; u "duplicate.pdf"]).
  { apply NoDup_cons. split; [|apply NoDup_singleton].
    rewrite list_elem_of_In. intros [H | []]. vm_compute in H.
    discriminate H. }
  assert (Hex : forall p, In p [u "doc1.pdf"; u "duplicate.pdf"] ->
                          is_Some (two_documents !! p)).
  { intros p [<- | [<- | []]]; vm_compute; eauto. }
  split; [split; assumption|].
  exact (process_folder_names_are_distinct None false same_code_reader
           same_code_reader two_documents (Counters 0 0 0 0)
           [u "doc1.pdf"; u "duplicate.pdf"] Hnd Hex).
Defined.

(** ** The candidates of the matcher have exactly the shape of a code *)

Section GroupEnds.
Context {U : UnicodeData}.
Variable icase : bool.

Lemma m_seq r1 r2 st k :
  Re.m icase (Re.Seq r1 r2) st k
  = Re.m icase r1 st (fun st' => Re.m icase r2 st' k).
Proof. reflexivity. Qed.

(** Without groups the matcher only consumes characters. *)
Lemma m_no_groups r :
  no_groups r = true ->
  forall st k res,
    Re.m icase r st k = Some res ->
    exists st', k st' = Some res /\ Re.caps st' = Re.caps st
                /\ exists consumed, Re.rest st = consumed ++ Re.rest st'.
Proof.
  assert (Hrefl : forall st (k : Re.mstate -> option Re.mstate) res,
            k st = Some res ->
            exists st', k st' = Some res /\ Re.caps st' = Re.caps st
                        /\ exists consumed, Re.rest st = consumed ++ Re.rest st').
  { intros st k res H. exists st. split; [exact H|]. split; [reflexivity|].
    exists []. reflexivity. }
  assert (Hstep : forall p st k res, Re.step1 p st k = Some res ->
            exists st', k st' = Some res /\ Re.caps st' = Re.caps st
                        /\ exists consumed, Re.rest st = consumed ++ Re.rest st').
  { intros p st k res. unfold Re.step1.
    destruct (Re.rest st) as [|t s'] eqn:Hr; [discriminate|].
    destruct (p t); [|discriminate]. intros H. eexists. split; [exact H|].
    cbn. split; [reflexivity|]. exists [t]. reflexivity. }
  assert (Htrans : forall st st1 (k : Re.mstate -> option Re.mstate) res,
            Re.caps st1 = Re.caps st ->
            (exists c1, Re.rest st = c1 ++ Re.rest st1) ->
            (exists st', k st' = Some res /\ Re.caps st' = Re.caps st1
                         /\ exists c2, Re.rest st1 = c2 ++ Re.rest st') ->
            exists st', k st' = Some res /\ Re.caps st' = Re.caps st
                        /\ exists c, Re.rest st = c ++ Re.rest st').
  { intros st st1 k res Hc [c1 H1] (st' & Hk & Hc' & c2 & H2).
    exists st'. split; [exact Hk|]. split; [congruence|].
    exists (c1 ++ c2). rewrite H1, H2, app_assoc. reflexivity. }
  induction r as [| c | items | r1 IH1 r2 IH2 | r1 IH1 r2 IH2 | r1 IH1
                  | r1 IH1 | n r1 IH1 | r1 IH1 | | |];
    intros Hng st k res H; cbn [no_groups] in Hng; cbn [Re.m] in H;
    try (apply andb_true_iff in Hng as [Hng1 Hng2]).
  - apply Hrefl. exact H.
  - apply Hstep in H. exact H.
  - apply Hstep in H. exact H.
  - apply (IH1 Hng1) in H as (st1 & H & Hc1 & Hr1).
    apply (Htrans st st1 k res Hc1 Hr1). apply (IH2 Hng2). exact H.
  - unfold Re.or_else in H. destruct (Re.m icase r1 st k) eqn:E1.
    + injection H as <-. apply (IH1 Hng1) in E1. exact E1.
    + apply (IH2 Hng2) in H. exact H.
  - unfold Re.or_else in H. destruct (Re.m icase r1 st k) eqn:E1.
    + injection H as <-. apply (IH1 Hng) in E1. exact E1.
    + apply Hrefl. exact H.
  - remember (length (Re.rest st)) as fuel eqn:Hfuel in H. clear Hfuel.
    revert st H. induction fuel as [|fuel IHf]; intros st H.
    + apply Hrefl. exact H.
    + unfold Re.or_else in H.
      match type of H with
      | match ?x with _ => _ end = _ => destruct x eqn:E1
      end.
      * injection H as <-. apply (IH1 Hng) in E1 as (st1 & E1 & Hc1 & Hr1).
        destruct (_ <? _)%nat; [|discriminate].
        eapply Htrans; [exact Hc1 | exact Hr1 |]. apply IHf. exact E1.
      * apply Hrefl. exact H.
  - revert st H. induction n as [|n IHn]; intros st H.
    + apply Hrefl. exact H.
    + apply (IH1 Hng) in H as (st1 & H & Hc1 & Hr1).
      apply (Htrans st st1 k res Hc1 Hr1). apply IHn. exact H.
  - discriminate Hng.
  - destruct (xorb _ _); [|discriminate]. apply Hrefl. exact H.
  - destruct (Re.prev st); [discriminate|]. apply Hrefl. exact H.
  - apply Hrefl.
    destruct (Re.rest st) as [|c [|? ?]]; try discriminate; [exact H|].
    destruct (c =? 10)%N; [exact H | discriminate].
Qed.

(** [r{n+1}] for a class of characters ends on a character of the class. *)
Lemma m_rep_class n items :
  forall st k res,
    Re.m icase (Re.Rep (S n) (Re.Cls items)) st k = Some res ->
    exists st', k st' = Some res /\ Re.caps st' = Re.caps st
                /\ exists consumed t,
                     Re.rest st = consumed ++ t :: Re.rest st'
                     /\ Re.cls_matches icase items t = true.
Proof.
  induction n as [|n IH]; intros st k res H.
  - cbn [Re.m] in H. unfold Re.step1 in H.
    destruct (Re.rest st) as [|t s'] eqn:Hr; [discriminate|].
    destruct (Re.cls_matches icase items t) eqn:Ht; [|discriminate].
    eexists. split; [exact H|]. cbn. split; [reflexivity|].
    exists [], t. split; [reflexivity | exact Ht].
  - change (Re.m icase (Re.Rep (S (S n)) (Re.Cls items)) st k)
      with (Re.m icase (Re.Cls items) st
              (fun st' => Re.m icase (Re.Rep (S n) (Re.Cls items)) st' k)) in H.
    cbn [Re.m] in H. unfold Re.step1 in H.
    destruct (Re.rest st) as [|t s'] eqn:Hr; [discriminate|].
    destruct (Re.cls_matches icase items t); [|discriminate].
    apply IH in H as (st' & Hk & Hc & consumed & t' & Hrest & Ht').
    cbn in Hc, Hrest. exists st'. split; [exact Hk|]. split; [exact Hc|].
    exists (t :: consumed), t'. rewrite Hrest. split; [reflexivity | exact Ht'].
Qed.

(** A group around [r{n+1}] for a class, after a prefix without groups,
    captures a string that ends on a character of the class. *)
Lemma m_group_ends pre n items :
  no_groups pre = true ->
  forall st k res,
    Re.m icase
      (Re.Group (Re.Seq pre (Re.Rep (S n) (Re.Cls items)))) st k = Some res ->
    exists st' g t,
      k (Re.MState (Re.prev st') (Re.rest st') (Re.caps st ++ [g ++ [t]]))
      = Some res
      /\ Re.cls_matches icase items t = true.
Proof.
  intros Hng st k res H. cbn [Re.m] in H.
  change (Re.m icase pre st ?k') with (Re.m icase pre st k') in H.
  apply (m_no_groups pre Hng) in H as (st1 & H & Hc1 & c1 & Hr1).
  apply m_rep_class in H as (st2 & H & Hc2 & c2 & t & Hr2 & Ht).
  exists st2, (c1 ++ c2), t. split; [|exact Ht].
  rewrite Hc2, Hc1 in H.
  replace (firstn (length (Re.rest st) - length (Re.rest st2)) (Re.rest st))
    with ((c1 ++ c2) ++ [t]) in H; [exact H|].
  rewrite Hr1, Hr2.
  replace (c1 ++ c2 ++ t :: Re.rest st2)
    with (((c1 ++ c2) ++ [t]) ++ Re.rest st2)
    by (rewrite <- !app_assoc; reflexivity).
  rewrite length_app, Nat.add_sub, firstn_app, firstn_all, Nat.sub_diag.
  cbn [firstn]. rewrite app_nil_r. reflexivity.
Qed.

Lemma scan_all (Q : list str -> Prop) r :
  (forall p s gs n, Re.match_at icase r p s = Some (gs, n) -> Q gs) ->
  forall s p skip gs, In gs (Re.scan icase r p s skip) -> Q gs.
Proof.
  intros HQ. induction s as [|c s IH]; intros p skip gs H; cbn [Re.scan] in H.
  - destruct skip; [|destruct H].
    destruct (Re.match_at icase r p []) as [[gs' n]|] eqn:E; [|destruct H].
    destruct H as [<- | []]. eapply HQ. exact E.
  - destruct skip as [|skip]; [|apply (IH _ _ _ H)].
    destruct (Re.match_at icase r p (c :: s)) as [[gs' n]|] eqn:E;
      [|apply (IH _ _ _ H)].
    destruct H as [<- | H]; [eapply HQ; exact E | apply (IH _ _ _ H)].
Qed.

End GroupEnds.

Section CandidateShape.
Context {U : UnicodeData}.

Lemma cls_digit t : Re.cls_matches true [Re.CDigit] t = is_decimal t.
Proof. cbn. apply orb_false_r. Qed.

(** The group of a match of the priority pattern ends on a digit. *)
Lemma priority_match_ends_on_digit p s gs n :
  Re.match_at true (re PRIORITY_PATTERN) p s = Some (gs, n) ->
  exists g t, gs = [g ++ [t]] /\ is_decimal t = true.
Proof.
  unfold Re.match_at.
  destruct (Re.m true (re PRIORITY_PATTERN) (Re.MState p s []) Some)
    as [st|] eqn:E; [|discriminate].
  intros H. injection H as <- _.
  unfold PRIORITY_PATTERN in E. cbn [re] in E.
  rewrite m_seq in E.
  apply m_no_groups in E as (st1 & E & Hc1 & _); [|reflexivity].
  rewrite m_seq in E.
  apply m_no_groups in E as (st2 & E & Hc2 & _); [|reflexivity].
  rewrite m_seq in E.
  apply m_no_groups in E as (st3 & E & Hc3 & _); [|reflexivity].
  rewrite m_seq in E.
  apply m_no_groups in E as (st4 & E & Hc4 & _); [|reflexivity].
  rewrite m_seq in E.
  assert (Hg : forall st k,
            Re.m true
              (Re.Group (Re.Seq (Re.Rep 4 AZ)
                           (Re.Seq (Re.Opt sep) (Re.Rep 7 digit)))) st k
            = Re.m true
                (Re.Group (Re.Seq (Re.Seq (Re.Rep 4 AZ) (Re.Opt sep))
                             (Re.Rep 7 (Re.Cls [Re.CDigit])))) st k)
    by reflexivity.
  rewrite Hg in E.
  apply m_group_ends in E as (st5 & g & t & E & Ht); [|reflexivity].
  cbn [Re.m Re.prev Re.rest Re.caps] in E.
  destruct (xorb _ _); [|discriminate]. injection E as <-.
  cbn [Re.caps]. rewrite Hc4, Hc3, Hc2, Hc1. cbn [Re.caps app].
  exists g, t. rewrite cls_digit in Ht. auto.
Qed.

(** The second group of a match of the fallback pattern ends on a digit. *)
Lemma fallback_match_ends_on_digit p s gs n :
  Re.match_at true (re FALLBACK_PATTERN) p s = Some (gs, n) ->
  exists g1 g t, gs = [g1; g ++ [t]] /\ is_decimal t = true.
Proof.
  unfold Re.match_at.
  destruct (Re.m true (re FALLBACK_PATTERN) (Re.MState p s []) Some)
    as [st|] eqn:E; [|discriminate].
  intros H. injection H as <- _.
  unfold FALLBACK_PATTERN in E. cbn [re] in E.
  rewrite m_seq in E.
  apply m_no_groups in E as (st1 & E & Hc1 & _); [|reflexivity].
  rewrite m_seq in E.
  assert (Hg1 : forall st k,
            Re.m true (Re.Group (Re.Rep 4 AZ)) st k
            = Re.m true
                (Re.Group (Re.Seq Re.Eps
                             (Re.Rep 4 (Re.Cls [Re.CRange 0x41 0x5A])))) st k)
    by reflexivity.
  rewrite Hg1 in E.
  apply m_group_ends in E as (st2 & g1 & t1 & E & _); [|reflexivity].
  rewrite m_seq in E.
  apply m_no_groups in E as (st3 & E & Hc3 & _); [|reflexivity].
  rewrite m_seq in E.
  assert (Hg2 : forall st k,
            Re.m true (Re.Group (Re.Rep 7 digit)) st k
            = Re.m true
                (Re.Group (Re.Seq Re.Eps (Re.Rep 7 (Re.Cls [Re.CDigit])))) st k)
    by reflexivity.
  rewrite Hg2 in E.
  apply m_group_ends in E as (st4 & g & t & E & Ht); [|reflexivity].
  cbn [Re.m Re.prev Re.rest Re.caps] in E.
  destruct (xorb _ _); [|discriminate]. injection E as <-.
  cbn [Re.caps]. rewrite Hc3. cbn [Re.caps]. rewrite Hc1. cbn [Re.caps app].
  exists (g1 ++ [t1]), g, t. rewrite cls_digit in Ht. auto.
Qed.

End CandidateShape.

Section CandidateShapeLaws.
Context {U : UnicodeData} {L : UnicodeLaws U}.

Lemma normalize_raw_ends g t :
  is_decimal t = true -> normalize_raw (g ++ [t]) = normalize_raw g ++ [t].
Proof.
  intros Ht. destruct (plain_decimal t Ht) as [(H1 & H2 & H3) Hu].
  apply N.eqb_neq in H1, H2, H3.
  unfold normalize_raw, strip_separators, py_remove, py_upper.
  rewrite !List.filter_app. cbn [List.filter]. rewrite H1. cbn [negb List.filter].
  rewrite H2. cbn [negb List.filter]. rewrite H3. cbn [negb].
  rewrite flat_map_app. cbn [flat_map]. rewrite Hu. reflexivity.
Qed.

(** A validated string that ends on a digit has no final newline. *)
Lemma valid_ends_on_digit s t :
  is_decimal t = true -> valid (s ++ [t]) -> shape_4L7D (s ++ [t]) = true.
Proof.
  intros Ht Hv. apply validation_match_inv in Hv as (s' & Hs & [-> | Heq]);
    [exact Hs|].
  apply app_inj_tail in Heq as [_ ->].
  rewrite decimal_ascii in Ht by lia. discriminate Ht.
Qed.

Lemma priority_candidates_shape text c :
  In c (priority_candidates text) -> shape_4L7D c = true.
Proof.
  intros Hc. apply (proj1 (validated_In _ _)) in Hc as (raw & Hraw & -> & Hv).
  apply in_map_iff in Hraw as (gs & <- & Hgs).
  assert (Hq : exists g t, gs = [g ++ [t]] /\ is_decimal t = true).
  { unfold findall, Re.findall in Hgs.
    apply (scan_all _ (fun gs => exists g t,
                         gs = [g ++ [t]] /\ is_decimal t = true)) in Hgs;
      [exact Hgs|].
    intros p s gs' n. apply priority_match_ends_on_digit. }
  destruct Hq as (g & t & -> & Ht). cbn [nth] in *.
  rewrite normalize_raw_ends in * by exact Ht.
  apply valid_ends_on_digit; assumption.
Qed.

Lemma fallback_candidates_shape text c :
  In c (fallback_candidates text) -> shape_4L7D c = true.
Proof.
  intros Hc. apply (proj1 (validated_In _ _)) in Hc as (raw & Hraw & -> & Hv).
  apply in_map_iff in Hraw as (gs & <- & Hgs).
  assert (Hq : exists g1 g t, gs = [g1; g ++ [t]] /\ is_decimal t = true).
  { unfold findall, Re.findall in Hgs.
    apply (scan_all _ (fun gs => exists g1 g t,
                         gs = [g1; g ++ [t]] /\ is_decimal t = true)) in Hgs;
      [exact Hgs|].
    intros p s gs' n. apply fallback_match_ends_on_digit. }
  destruct Hq as (g1 & g & t & -> & Ht). cbn [nth] in *.
  rewrite app_assoc in *.
  rewrite normalize_raw_ends in * by exact Ht.
  apply valid_ends_on_digit; assumption.
Qed.

Lemma candidates_shape text :
  Forall (fun c => shape_4L7D c = true)
    (candidates (fst (regex_extract_code_direct text))).
Proof.
  destruct (gated text) eqn:Hg.
  - unfold regex_extract_code_direct. fold (gated text). rewrite Hg. cbn.
    apply List.Forall_nil.
  - rewrite regex_extract_code_direct_candidates by exact Hg.
    apply List.Forall_forall. intros c Hc.
    apply (proj1 (dict_fromkeys_In _ _)) in Hc.
    destruct (is_empty (priority_candidates text)).
    + apply (fallback_candidates_shape text c Hc).
    + apply (priority_candidates_shape text c Hc).
Qed.

Lemma code_shape text :
  code (fst (regex_extract_code_direct text)) = []
  \/ shape_4L7D (code (fst (regex_extract_code_direct text))) = true.
Proof.
  destruct (regex_extract_code_direct_code text) as [[H _] | (Hin & _)];
    [left; exact H|].
  right. pose proof (candidates_shape text) as Hall.
  rewrite List.Forall_forall in Hall. apply Hall. exact Hin.
Qed.

(** Without an LLM a record with a new path carries a code of exactly
    the shape. *)
Lemma process_document_regex_only ocr_enabled dry_run dir c p text ocr_text
    row c' dir' :
  process_document None ocr_enabled dry_run dir c p text ocr_text
  = Some (row, c', dir') ->
  row_new_path row <> [] ->
  shape_4L7D (row_extracted_code row) = true.
Proof.
  unfold process_document.
  destruct (py_startswith text (u "ERROR"));
    [intros H; injection H as <- _ _; cbn; congruence|].
  destruct (is_empty (extracted_code _)) eqn:He;
    [intros H; injection H as <- _ _; cbn; congruence|].
  destruct (py_startswith (normalize_code_direct _) (u "ERROR"));
    [intros H; injection H as <- _ _; cbn; congruence|].
  assert (Hs : shape_4L7D
                 (extracted_code
                    (extract_document None ocr_enabled text ocr_text)) = true).
  { revert He. unfold extract_document.
    destruct (negb (is_empty (py_strip text))).
    - cbn [extract_from_text extracted_code].
      destruct (code_shape text) as [-> | H]; [discriminate | intros _; exact H].
    - destruct ocr_enabled; [|discriminate].
      destruct (_ && _); [|discriminate].
      cbn [extract_from_ocr extracted_code].
      destruct (code_shape ocr_text) as [-> | H];
        [discriminate | intros _; exact H]. }
  rewrite (normalize_valid _ (validation_match_shape _ Hs)).
  destruct (safe_rename_direct _ _ _ _) as [[r d]|]; [|discriminate].
  intros H _. injection H as <- _ _. exact Hs.
Qed.

Lemma process_paths_regex_only ocr_enabled dry_run read ocr pdf_paths :
  forall dir c rows c' dir',
    process_paths None ocr_enabled dry_run read ocr dir c pdf_paths
    = Some (rows, c', dir') ->
    Forall (fun row => row_new_path row <> [] ->
                       shape_4L7D (row_extracted_code row) = true) rows.
Proof.
  induction pdf_paths as [|p ps IH]; intros dir c rows c' dir';
    cbn [process_paths].
  - intros H. injection H as <- _ _. apply List.Forall_nil.
  - destruct (process_document _ _ _ _ _ _ _ _) as [[[row c1] dir1]|] eqn:Hd;
      [|discriminate].
    destruct (process_paths _ _ _ _ _ _ _ _) as [[[rows1 c2] dir2]|] eqn:Hp;
      [|discriminate].
    intros H. injection H as <- _ _. apply List.Forall_cons.
    + apply (process_document_regex_only _ _ _ _ _ _ _ _ _ _ Hd).
    + apply (IH _ _ _ _ _ Hp).
Qed.

End CandidateShapeLaws.

(** Every candidate of the pattern matcher, and so the code it returns,
    is exactly 4 letters A-Z followed by 7 decimal digits, 11 characters
    in all: both patterns end their last group on a digit, so that the
    newline that the validation lets through never ends a candidate. *)
Theorem matcher_candidates_have_code_shape `{L : UnicodeLaws} (text : str) :
  let r := fst (regex_extract_code_direct text) in
  Forall (fun c => shape_4L7D c = true) (candidates r)
  /\ (code r = [] \/ shape_4L7D (code r) = true).
Proof.
  cbv zeta. split; [apply candidates_shape | apply code_shape].
Qed.

Lemma matcher_candidates_have_code_shape_witness :
  let r := fst (regex_extract_code_direct (U := ucd)
                  (u "container no ABCD-1234567")) in
  Forall (fun c => shape_4L7D c = true) (candidates r)
  /\ (code r = [] \/ shape_4L7D (code r) = true).
Proof.
  exact (matcher_candidates_have_code_shape (L := ucd_laws)
           (u "container no ABCD-1234567")).
Defined.

(** ** The names that a run gives *)

(** Without an LLM every file that a run renames gets a name made of
    exactly 4 letters A-Z and 7 decimal digits, an optional numeric
    suffix and ".pdf". *)
Theorem process_folder_regex_only_names `{L : UnicodeLaws}
    (ocr_enabled dry_run : bool) (read ocr : str -> str) (dir : gmap str N)
    (c : counters) (pdf_paths : list str) :
  exists rows c' dir',
    process_paths None ocr_enabled dry_run read ocr dir c pdf_paths
    = Some (rows, c', dir')
    /\ forall row, In row rows -> row_new_path row <> [] ->
         shape_4L7D (row_extracted_code row) = true
         /\ named_after (row_extracted_code row) (row_new_path row).
Proof.
  destruct (process_paths_steps None ocr_enabled dry_run read ocr pdf_paths
              dir c)
    as (rows & c' & dir' & H & _ & _ & _ & _ & _ & _ & _ & _ & Hvalid & _).
  exists rows, c', dir'. split; [exact H|].
  pose proof (process_paths_regex_only _ _ _ _ _ _ _ _ _ _ H) as Hshape.
  rewrite List.Forall_forall in Hvalid, Hshape.
  intros row Hin Hne. split; [apply Hshape; assumption|].
  apply Hvalid; assumption.
Qed.

Lemma process_folder_regex_only_names_witness :
  exists rows c' dir',
    process_paths (U := ucd) None false false same_code_reader
      (fun _ => []) two_documents (Counters 0 0 0 0)
      [u "doc1.pdf"; u "duplicate.pdf"]
    = Some (rows, c', dir')
    /\ forall row, In row rows -> row_new_path row <> [] ->
         shape_4L7D (row_extracted_code row) = true
         /\ named_after (row_extracted_code row) (row_new_path row).
Proof.
  exact (process_folder_regex_only_names (L := ucd_laws) false false
           same_code_reader (fun _ => []) two_documents (Counters 0 0 0 0)
           [u "doc1.pdf"; u "duplicate.pdf"]).
Defined.

(** With an LLM the shape is not guaranteed: when a text holds a code
    followed by a newline, the answer made of that code, a newline and a
    hyphen passes the stripping, the validation and the test against the
    text, so the LLM extractor returns the code with the newline, 12
    characters, and the normalizer returns it as it is. *)
Theorem llm_code_may_end_with_newline `{L : UnicodeLaws}
    (text s reason : str) (conf : float) :
  shape_4L7D s = true ->
  py_in (s ++ [0x0A%N]) (py_upper text) = true ->
  is_space 0x2D%N = false ->
  (forall c, is_AZ c = true -> is_space c = false) ->
  let r := extract_code_with_llm text
             (fun _ => ReplyJson (s ++ [0x0A; 0x2D]%N) conf reason) in
  llm_code r = s ++ [0x0A%N]
  /\ llm_confidence r = py_min conf 0.95%float
  /\ normalize_code_direct (llm_code r) = s ++ [0x0A%N]
  /\ shape_4L7D (llm_code r) = false.
Proof.
  intros Hs Hin Hsp Hletters. cbv zeta.
  pose proof (validation_match_newline s Hs) as Hv.
  pose proof (shape_plain s Hs) as Hplain.
  assert (Hstrip : py_strip (s ++ [0x0A; 0x2D]%N) = s ++ [0x0A; 0x2D]%N).
  { apply shape_inv in Hs
      as (a & b & c & d & d1 & d2 & d3 & d4 & d5 & d6 & d7 & -> & HA & _).
    cbn [forallb] in HA. apply andb_true_iff in HA as [HA _].
    unfold py_strip. cbn [app lstrip]. rewrite (Hletters a HA).
    cbn [rev app lstrip]. rewrite Hsp. reflexivity. }
  assert (Hnorm : py_upper (strip_separators (s ++ [0x0A; 0x2D]%N))
                  = s ++ [0x0A%N]).
  { unfold strip_separators, py_remove. rewrite !List.filter_app.
    cbn [List.filter N.eqb Pos.eqb negb app].
    fold (py_remove 0x20 s). fold (py_remove 0x2D (py_remove 0x20 s)).
    fold (py_remove 0x5F (py_remove 0x2D (py_remove 0x20 s))).
    fold (strip_separators s).
    rewrite strip_separators_fixed
      by (eapply List.Forall_impl; [|exact Hplain]; intros x [Hx _]; exact Hx).
    apply py_upper_fixed. apply Forall_app. split.
    - eapply List.Forall_impl; [|exact Hplain]. intros x [_ Hx]. exact Hx.
    - apply List.Forall_cons; [apply plain_newline | apply List.Forall_nil]. }
  assert (Hfound : found_in_text text (s ++ [0x0A%N]) = true).
  { unfold found_in_text. rewrite Hin. reflexivity. }
  assert (Hr : extract_code_with_llm text
                 (fun _ => ReplyJson (s ++ [0x0A; 0x2D]%N) conf reason)
               = LlmResult (s ++ [0x0A%N]) (py_min conf 0.95%float)
                   (u "LLM: " ++ reason ++ u " (проверено в тексте)")).
  { unfold extract_code_with_llm. rewrite Hstrip.
    assert (He : is_empty (s ++ [0x0A; 0x2D]%N) = false)
      by (destruct s; reflexivity).
    rewrite He. cbn [negb]. rewrite Hnorm. unfold valid in Hv.
    rewrite Hv, Hfound. reflexivity. }
  rewrite Hr. cbn [llm_code llm_confidence].
  split; [reflexivity|]. split; [reflexivity|].
  split; [apply normalize_valid; exact Hv|].
  unfold shape_4L7D. apply shape_inv in Hs
    as (a & b & c & d & d1 & d2 & d3 & d4 & d5 & d6 & d7 & -> & _ & _).
  reflexivity.
Qed.

Lemma llm_code_may_end_with_newline_witness :
  let text := u "AAAA1111111 bbbb2222222" ++ [0x0A%N] in
  let r := extract_code_with_llm (U := ucd) text
             (fun _ => ReplyJson (u "BBBB2222222" ++ [0x0A; 0x2D]%N)
                         0.9%float (u "second code")) in
  llm_code r = u "BBBB2222222" ++ [0x0A%N]
  /\ llm_confidence r = py_min 0.9%float 0.95%float
  /\ normalize_code_direct (llm_code r) = u "BBBB2222222" ++ [0x0A%N]
  /\ shape_4L7D (llm_code r) = false.
Proof.
  apply (llm_code_may_end_with_newline (L := ucd_laws)
           (u "AAAA1111111 bbbb2222222" ++ [0x0A%N]) (u "BBBB2222222")
           (u "second code") 0.9%float).
  - vm_compute. reflexivity.
  - vm_compute. reflexivity.
  - vm_compute. reflexivity.
  - intros c Hc. unfold is_AZ, in_range in Hc.
    apply andb_true_iff in Hc as [H1 H2]. apply N.leb_le in H1, H2.
    cbn [is_space ucd]. unfold Fragment.space, in_range.
    range_cases; reflexivity.
Defined.
